(** * arp-runtime: the orchestration core, embedded and checked

    The development follows the TypeScript sources of the control plane:
    - [backend/packages/shared/src/db.ts]            (tables, module [Store])
    - [backend/packages/workspace-manager/src/index.ts] (module [WorkspaceManager])
    - [backend/packages/orchestrator/src/lib/quota.ts]  (module [Quota])
    - [backend/packages/orchestrator/src/lib/lock-manager.ts] (module [LockManager])
    - [backend/packages/orchestrator/src/index.ts]   (module [Orchestrator])
    - the idle reaper and the GC worker              (modules [IdleReaper], [GC])
    - the evidence builder                           (module [EvidenceBuilder])

    Timestamps are milliseconds since the epoch ([Z]), as [Date.now()] gives
    them. Everything the handlers learn from outside (clock readings, ids
    generated by Postgres, what Docker and the agent worker answer) is an
    explicit argument of the handler that consumes it. *)

From Stdlib Require Import ZArith Lia.
From stdpp Require Import base decidable option list strings gmap sorting.

Open Scope Z_scope.

(** ** The tables of [db.ts] *)

Module Store.

Inductive workspace_state := warm | cold | error | deleted.

Inductive run_status := queued | running | succeeded | failed | timeout.

Inductive bundle_status := pending | ready | bundle_error | bundle_deleted.

#[global] Instance workspace_state_eq_dec : EqDecision workspace_state :=
  ltac:(solve_decision).

#[global] Instance run_status_eq_dec : EqDecision run_status :=
  ltac:(solve_decision).

#[global] Instance bundle_status_eq_dec : EqDecision bundle_status :=
  ltac:(solve_decision).

(** A JavaScript string whose characters matter (the agent's text): its
    UTF-16 code units. Identifiers, paths and messages are [string]s. *)
Definition jsstring := list N.

Record project := Project {
  pr_id : string;
  pr_user_id : string;
  pr_name : string;
  pr_repo_url : string
}.

Record workspace := Workspace {
  ws_id : string;
  ws_user_id : string;
  ws_project_id : string;
  ws_state : workspace_state;
  ws_container_id : option string;
  ws_volume_name : option string;
  ws_thread_id : option string;
  ws_image_name : option string;
  ws_image_digest : option string;
  ws_runtime_metadata : option string;
  ws_last_active_at : Z;
  ws_idle_expires_at : option Z
}.

Record run := Run {
  run_id : string;
  run_user_id : string;
  run_project_id : string;
  run_workspace_id : string;
  run_status_of : run_status;
  run_prompt : jsstring;
  run_final_text : option jsstring;
  run_diff : option jsstring;
  run_error_message : option string;
  run_started_at : Z;
  run_finished_at : option Z;
  run_duration_ms : option Z;
  run_git_commit : option string;
  run_image_name : option string;
  run_image_digest : option string;
  run_env_snapshot : option string;
  run_evidence_path : option string
}.

Record evidence_bundle := EvidenceBundle {
  eb_id : string;
  eb_run_id : string;
  eb_user_id : string;
  eb_project_id : string;
  eb_workspace_id : string;
  eb_status : bundle_status;
  eb_bundle_path : option (list string);
  eb_error_message : option string;
  eb_created_at : Z;
  eb_updated_at : Z
}.

Record db := Db {
  projects : list project;
  workspaces : list workspace;
  runs : list run;
  evidence_bundles : list evidence_bundle
}.

Definition empty_db : db := Db [] [] [] [].

(** [updateTable(t).set(f).where(p)]: every row that satisfies [p] is
    replaced by its image under [f]; the others, and the order, stay. *)
Definition update_where {A} (p : A → bool) (f : A → A) (rows : list A) : list A :=
  (λ r, if p r then f r else r) <$> rows.

(** [selectFrom(t).where(p).execute()] and [.executeTakeFirst()]. *)
Definition select_where {A} (p : A → bool) (rows : list A) : list A :=
  List.filter p rows.

Definition take_first {A} (p : A → bool) (rows : list A) : option A :=
  head (select_where p rows).

Definition set_workspaces (d : db) (ws : list workspace) : db :=
  Db (projects d) ws (runs d) (evidence_bundles d).

Definition set_runs (d : db) (rs : list run) : db :=
  Db (projects d) (workspaces d) rs (evidence_bundles d).

Definition set_bundles (d : db) (bs : list evidence_bundle) : db :=
  Db (projects d) (workspaces d) (runs d) bs.

(** [.set({ state: 'cold', container_id: null })] *)
Definition mark_cold (w : workspace) : workspace :=
  Workspace (ws_id w) (ws_user_id w) (ws_project_id w) cold None
    (ws_volume_name w) (ws_thread_id w) (ws_image_name w) (ws_image_digest w)
    (ws_runtime_metadata w) (ws_last_active_at w) (ws_idle_expires_at w).

Definition has_id (i : string) (w : workspace) : bool := bool_decide (ws_id w = i).

(** JavaScript truthiness of a nullable string: neither null nor empty. *)
Definition truthy (o : option string) : bool :=
  match o with Some s => negb (bool_decide (s = EmptyString)) | None => false end.

Definition truthy_text (o : option jsstring) : bool :=
  match o with Some (_ :: _) => true | _ => false end.

(** The rows of one user that are warm. *)
Definition warm_of (u : string) (w : workspace) : bool :=
  bool_decide (ws_user_id w = u) && bool_decide (ws_state w = warm).

Definition warm_count (u : string) (d : db) : nat :=
  length (select_where (warm_of u) (workspaces d)).

End Store.

Import Store.

(** ** Canonical events ([CodexEvent] of the shared package) *)

Module Events.

Inductive payload :=
| RunStart
| Token (delta : jsstring) (sequence : nat)
| DiffEvent (diff : jsstring)
| RunComplete (status : run_status) (error : option string).

Record CodexEvent := Event {
  ev_payload : payload;
  ev_ts : Z;
  ev_runId : string
}.

Definition is_run_start (e : CodexEvent) : bool :=
  match ev_payload e with RunStart => true | _ => false end.

Definition is_run_complete (e : CodexEvent) : bool :=
  match ev_payload e with RunComplete _ _ => true | _ => false end.

(** The [sequence] fields of the token events of a log, in log order. *)
Definition token_sequences (log : list CodexEvent) : list nat :=
  omap (λ e, match ev_payload e with Token _ n => Some n | _ => None end) log.

(** [events.map(e => JSON.stringify(e)).join('\n')]: one line per event, in
    order. The file is kept as its list of lines, each line as the event it
    serialises. *)
Definition ndjson := list CodexEvent.

End Events.

Import Events.

(** ** What the control plane asks of Docker ([workspace-manager])

    The daemon is outside the program. Calls whose failure the code swallows
    are recorded in a trace, in program order; calls whose answer steers the
    control flow take that answer as an argument. *)

Module WorkspaceManager.

Inductive docker_call :=
| EnsureVolume (volume : string)
| CreateContainer (image : string) (env : list string) (bind : string)
| ContainerStart (container : string)
| ContainerInspect (container : string)
| CloneRepo (container : string) (repo_url : string)
| ContainerStop (container : string)
| ContainerRemove (container : string)
| VolumeRemove (volume : string).

(** What the daemon answers during one [createWarmWorkspace]: [None] and
    [false] stand for a call that throws (for the clone: also a non-zero
    exit code), [dk_error] is the message of the error thrown. *)
Record docker_answers := DockerAnswers {
  dk_create : option string;
  dk_start : bool;
  dk_inspect : option (string * string);
  dk_clone : bool;
  dk_error : string
}.

Record warm_workspace := WarmWorkspace {
  containerId : string;
  volumeName : string;
  imageName : string;
  imageDigest : string
}.

(** [stopWorkspace]: stop, then remove; any error is logged and dropped, so
    the caller never sees a failure. *)
Definition stopWorkspace (cid : string) (trace : list docker_call) : list docker_call :=
  trace ++ [ContainerStop cid; ContainerRemove cid].

(** [deleteVolume]: errors are logged and dropped as well. *)
Definition deleteVolume (volume : string) (trace : list docker_call) : list docker_call :=
  trace ++ [VolumeRemove volume].

(** The [catch] block of [createWarmWorkspace]: stop and remove, each in its
    own [try], then rethrow. *)
Definition cleanup (cid : string) (trace : list docker_call) : list docker_call :=
  trace ++ [ContainerStop cid; ContainerRemove cid].

(** [createWarmWorkspace(projectId, repoUrl, apiKey, envVars)], with
    [image] the value of [WORKSPACE_IMAGE]. The result is the error message
    ([inl]) or the started workspace ([inr]), with the Docker trace. *)
Definition createWarmWorkspace (image : string) (projectId repoUrl apiKey : string)
    (envVars : list (string * string)) (a : docker_answers) (trace : list docker_call)
    : (string + warm_workspace) * list docker_call :=
  let volume := "ws-" +:+ projectId in
  let env := ("OPENAI_API_KEY=" +:+ apiKey) :: ((λ kv, kv.1 +:+ "=" +:+ kv.2) <$> envVars) in
  let t1 := trace ++ [EnsureVolume volume; CreateContainer image env (volume +:+ ":/workspace/repo")] in
  match dk_create a with
  | None => (inl (dk_error a), t1)
  | Some cid =>
      let t2 := t1 ++ [ContainerStart cid] in
      if negb (dk_start a) then (inl (dk_error a), cleanup cid t2) else
      let t3 := t2 ++ [ContainerInspect cid] in
      match dk_inspect a with
      | None => (inl (dk_error a), cleanup cid t3)
      | Some (realImageName, digest) =>
          let t4 := t3 ++ [CloneRepo cid repoUrl] in
          if negb (dk_clone a) then (inl (dk_error a), cleanup cid t4) else
          (inr (WarmWorkspace cid volume realImageName digest), t4)
      end
  end.

End WorkspaceManager.

Import WorkspaceManager.

(** ** The state the handlers and the background jobs act on

    [w_sandbox] holds the files written with [putFile], by container and
    path; [w_fs] the paths that exist on the host, as lists of components. *)
Record world := World {
  w_db : db;
  w_docker : list docker_call;
  w_sandbox : gmap (string * string) ndjson;
  w_fs : gset (list string)
}.

Definition with_db (st : world) (d : db) : world :=
  World d (w_docker st) (w_sandbox st) (w_fs st).

Definition with_docker (st : world) (t : list docker_call) : world :=
  World (w_db st) t (w_sandbox st) (w_fs st).

Definition empty_world : world := World empty_db [] ∅ ∅.

(** ** The idle reaper *)

Module IdleReaper.

(** [where state = 'warm' and idle_expires_at < now and container_id is not null];
    a null [idle_expires_at] compares to unknown and is not selected. *)
Definition is_idle (now : Z) (w : workspace) : bool :=
  bool_decide (ws_state w = warm)
  && match ws_idle_expires_at w with Some t => bool_decide (t < now) | None => false end
  && bool_decide (is_Some (ws_container_id w)).

(** The body of [for (const ws of idleWorkspaces)], on the selected columns
    [id] and [container_id]. *)
Definition reap_one (st : world) (ws : string * option string) : world :=
  match ws.2 with
  | Some c =>
      if truthy ws.2 then
        let st1 := with_docker st (stopWorkspace c (w_docker st)) in
        with_db st1 (set_workspaces (w_db st1)
                       (update_where (has_id ws.1) mark_cold (workspaces (w_db st1))))
      else st
  | None => st
  end.

Definition reapIdleWorkspaces (now : Z) (st : world) : world :=
  let idleWorkspaces :=
    (λ w, (ws_id w, ws_container_id w)) <$> select_where (is_idle now) (workspaces (w_db st)) in
  fold_left reap_one idleWorkspaces st.

End IdleReaper.

(** ** The retention collector ([gc-worker]) *)

Module GC.

Definition day_ms : Z := 24 * 60 * 60 * 1000.

(** [.set({ state: 'deleted', volume_name: null })] *)
Definition mark_deleted (w : workspace) : workspace :=
  Workspace (ws_id w) (ws_user_id w) (ws_project_id w) deleted (ws_container_id w)
    None (ws_thread_id w) (ws_image_name w) (ws_image_digest w)
    (ws_runtime_metadata w) (ws_last_active_at w) (ws_idle_expires_at w).

Definition is_expired_cold (limitDate : Z) (w : workspace) : bool :=
  bool_decide (ws_state w = cold)
  && bool_decide (ws_last_active_at w < limitDate)
  && bool_decide (is_Some (ws_volume_name w)).

Definition gc_one (st : world) (ws : string * option string) : world :=
  let st1 := match ws.2 with
             | Some v => if truthy ws.2 then with_docker st (deleteVolume v (w_docker st)) else st
             | None => st
             end in
  with_db st1 (set_workspaces (w_db st1)
                 (update_where (has_id ws.1) mark_deleted (workspaces (w_db st1)))).

(** [runWorkspaceGC], with [ttl_days] the value of [WORKSPACE_COLD_TTL_DAYS]. *)
Definition runWorkspaceGC (ttl_days : Z) (now : Z) (st : world) : world :=
  let limitDate := now - ttl_days * day_ms in
  let coldWorkspaces :=
    (λ w, (ws_id w, ws_volume_name w)) <$> select_where (is_expired_cold limitDate) (workspaces (w_db st)) in
  fold_left gc_one coldWorkspaces st.

Definition mark_bundle_deleted (b : evidence_bundle) : evidence_bundle :=
  EvidenceBundle (eb_id b) (eb_run_id b) (eb_user_id b) (eb_project_id b) (eb_workspace_id b)
    bundle_deleted None (eb_error_message b) (eb_created_at b) (eb_updated_at b).

Definition is_expired_bundle (limitDate : Z) (b : evidence_bundle) : bool :=
  bool_decide (eb_status b = ready)
  && bool_decide (eb_created_at b < limitDate)
  && bool_decide (is_Some (eb_bundle_path b)).

(** [fs.unlink(bundle_path)] if the path is truthy (a missing file or any
    other error is let pass), then the row is marked. *)
Definition gc_bundle (st : world) (b : string * option (list string)) : world :=
  let fs1 := match b.2 with Some (c :: p) => w_fs st ∖ {[c :: p]} | _ => w_fs st end in
  World (set_bundles (w_db st)
           (update_where (λ x, bool_decide (eb_id x = b.1)) mark_bundle_deleted
              (evidence_bundles (w_db st))))
        (w_docker st) (w_sandbox st) fs1.

(** [runEvidenceGC], with [ttl_days] the value of [EVIDENCE_TTL_DAYS]. *)
Definition runEvidenceGC (ttl_days : Z) (now : Z) (st : world) : world :=
  let limitDate := now - ttl_days * day_ms in
  let oldBundles :=
    (λ b, (eb_id b, eb_bundle_path b)) <$>
      select_where (is_expired_bundle limitDate) (evidence_bundles (w_db st)) in
  fold_left gc_bundle oldBundles st.

End GC.

(** ** The quota checker ([lib/quota.ts]) *)

Module Quota.

(** What [parseInt] returns: a number or NaN. *)
Inductive jsnumber := Num (z : Z) | NaN.

(** [a < b] on JavaScript numbers with [a] an integer: false against NaN. *)
Definition js_lt (a : Z) (b : jsnumber) : bool :=
  match b with Num z => bool_decide (a < z) | NaN => false end.

(** [startOfDay.setUTCHours(0, 0, 0, 0)] *)
Definition startOfDay (now : Z) : Z := now - now `mod` GC.day_ms.

Definition counted (userId : string) (start : Z) (r : run) : bool :=
  bool_decide (run_user_id r = userId) && bool_decide (start ≤ run_started_at r).

Definition run_count (userId : string) (start : Z) (d : db) : Z :=
  Z.of_nat (length (select_where (counted userId start) (runs d))).

(** [checkQuota(db, userId)], with [maxRuns] what [parseInt] made of
    [MAX_RUNS_PER_DAY] (500 when unset) and [now] the clock reading. *)
Definition checkQuota (maxRuns : jsnumber) (now : Z) (d : db) (userId : string) : bool :=
  js_lt (run_count userId (startOfDay now) d) maxRuns.

End Quota.

(** ** The per-key lock ([lib/lock-manager.ts])

    [run(key, fn)] chains promises. A promise of the map is either
    [Promise.resolve()] or [mutex.then(() => completion)], where [completion]
    is the signal of the task that built it; tasks are numbered in the order
    of their calls, so the number names the signal, and two promises are the
    same object exactly when they are the same term. *)

Module LockManager.

Inductive promise :=
| Resolved
| Then (mutex : promise) (completion : nat).

#[global] Instance promise_eq_dec : EqDecision promise :=
  ltac:(solve_decision).

(** Where a task stands: at [await mutex], inside [fn] (having inserted its
    Run row or not yet), or past the [finally] block. *)
Inductive phase := Waiting | Holding (inserted : bool) | Done.

#[global] Instance phase_eq_dec : EqDecision phase :=
  ltac:(solve_decision).

Record task := Task {
  t_key : string;
  t_mutex : promise;
  t_newMutex : promise;
  t_phase : phase
}.

(** A Run row as far as the lock is concerned: the task that inserted it,
    the key it ran under, and [started_at]. *)
Record run_row := RunRow {
  rr_task : nat;
  rr_key : string;
  rr_started_at : Z
}.

Record state := State {
  mutexes : gmap string promise;
  completed : gset nat;
  tasks : list task;
  rows : list run_row
}.

Definition init : state := State ∅ ∅ [] [].

(** A promise is fulfilled once every completion signal along it has been
    resolved. *)
Fixpoint fulfilled (signals : gset nat) (p : promise) : bool :=
  match p with
  | Resolved => true
  | Then m c => fulfilled signals m && bool_decide (c ∈ signals)
  end.

Definition set_phase (ph : phase) (t : task) : task :=
  Task (t_key t) (t_mutex t) (t_newMutex t) ph.

(** The points at which the event loop runs a piece of some [run] call:
    - [Call key]: the synchronous prefix, up to [await mutex];
    - [Resume i]: task [i] gets past [await mutex] and enters [fn];
    - [Insert i now]: inside [fn], [Date.now()] reads [now] and the Run row
      is inserted with [started_at = now];
    - [Finish i]: [fn] returns or throws and the [finally] block runs. *)
Inductive event :=
| Call (key : string)
| Resume (i : nat)
| Insert (i : nat) (now : Z)
| Finish (i : nat).

Definition step (s : state) (e : event) : option state :=
  match e with
  | Call key =>
      let i := length (tasks s) in
      let mutex := default Resolved (mutexes s !! key) in
      let newMutex := Then mutex i in
      Some (State (<[key := newMutex]> (mutexes s)) (completed s)
                  (tasks s ++ [Task key mutex newMutex Waiting]) (rows s))
  | Resume i =>
      match tasks s !! i with
      | Some t =>
          match t_phase t with
          | Waiting =>
              if fulfilled (completed s) (t_mutex t)
              then Some (State (mutexes s) (completed s)
                               (<[i := set_phase (Holding false) t]> (tasks s)) (rows s))
              else None
          | _ => None
          end
      | None => None
      end
  | Insert i now =>
      match tasks s !! i with
      | Some t =>
          match t_phase t with
          | Holding false =>
              Some (State (mutexes s) (completed s)
                          (<[i := set_phase (Holding true) t]> (tasks s))
                          (rows s ++ [RunRow i (t_key t) now]))
          | _ => None
          end
      | None => None
      end
  | Finish i =>
      match tasks s !! i with
      | Some t =>
          match t_phase t with
          | Holding _ =>
              let m := if decide (mutexes s !! t_key t = Some (t_newMutex t))
                       then delete (t_key t) (mutexes s) else mutexes s in
              Some (State m ({[i]} ∪ completed s)
                          (<[i := set_phase Done t]> (tasks s)) (rows s))
          | _ => None
          end
      | None => None
      end
  end.

(** A schedule is run from left to right; it is refused as soon as one of
    its events is not enabled. *)
Fixpoint exec (tr : list event) (s : state) : option state :=
  match tr with
  | [] => Some s
  | e :: tr' => match step s e with Some s' => exec tr' s' | None => None end
  end.


(** Each reading of the clock is later than the ones before it. *)
Fixpoint increasing (l : list Z) : Prop :=
  match l with
  | [] => True
  | x :: l' => Forall (λ y, x < y) l' ∧ increasing l'
  end.

End LockManager.

(** ** The evidence builder *)

Module EvidenceBuilder.

Definition path := list string.

(** A path with all the directories above it. *)
Fixpoint ancestors (p : path) : list path :=
  match p with
  | [] => [[]]
  | c :: p' => [] :: ((λ q, c :: q) <$> ancestors p')
  end.

(** [fs.mkdirSync(p, { recursive: true })] *)
Definition mkdir_p (p : path) (fs : gset path) : gset path :=
  list_to_set (ancestors p) ∪ fs.

(** [fs.rmSync(p, { recursive: true, force: true })] *)
Definition rm_rf (p : path) (fs : gset path) : gset path :=
  filter (λ q, ¬ p `prefix_of` q) fs.

Definition existsSync (p : path) (fs : gset path) : bool := bool_decide (p ∈ fs).

Definition writeFile (p : path) (fs : gset path) : gset path := {[p]} ∪ fs.

(** What the outside answers during one build. A [Some message] is a call
    that throws with that message.
    - [ba_archive]: [getContainerArchive] and the copy into [evidence.tar];
    - [ba_untar]: [tar -xf];
    - [ba_items]: what [readdirSync(extractDir)] lists, in its order; a
      directory comes with the paths below it, a plain file with [None];
    - [ba_copy]: the [cp] of a plain file (the two [cp -r ... || true] of a
      directory cannot fail);
    - [ba_zip]: [zip -r];
    - [ba_now]: [new Date()] for [updated_at]. *)
Record build_answers := BuildAnswers {
  ba_archive : option string;
  ba_untar : option string;
  ba_items : list (string * option (list path));
  ba_copy : option string;
  ba_zip : option string;
  ba_now : Z
}.

Definition for_run (runId : string) (b : evidence_bundle) : bool :=
  bool_decide (eb_run_id b = runId).

Definition mark_ready (zip : path) (now : Z) (b : evidence_bundle) : evidence_bundle :=
  EvidenceBundle (eb_id b) (eb_run_id b) (eb_user_id b) (eb_project_id b) (eb_workspace_id b)
    ready (Some zip) (eb_error_message b) (eb_created_at b) now.

Definition mark_error (message : string) (now : Z) (b : evidence_bundle) : evidence_bundle :=
  EvidenceBundle (eb_id b) (eb_run_id b) (eb_user_id b) (eb_project_id b) (eb_workspace_id b)
    bundle_error (eb_bundle_path b) (Some message) (eb_created_at b) now.

Definition update_bundle (runId : string) (f : evidence_bundle → evidence_bundle) (st : world) : world :=
  with_db st (set_bundles (w_db st) (update_where (for_run runId) f (evidence_bundles (w_db st)))).

(** The [catch] block: the row is marked [error]; nothing else is done. *)
Definition on_error (runId : string) (a : build_answers) (message : string) (st : world) : world :=
  let m := if decide (message = EmptyString) then "Unknown error" else message in
  update_bundle runId (mark_error m (ba_now a)) st.

Definition with_fs (st : world) (fs : gset path) : world :=
  World (w_db st) (w_docker st) (w_sandbox st) fs.

Definition tempDir (evidenceRoot : path) (runId : string) : path :=
  evidenceRoot ++ ["temp"; runId].

Definition extractDir (evidenceRoot : path) (runId : string) : path :=
  tempDir evidenceRoot runId ++ ["extract"].

Definition bundleDir (evidenceRoot : path) (runId : string) : path :=
  tempDir evidenceRoot runId ++ ["bundle"; runId].

Definition zipFilePath (evidenceRoot : path) (runId : string) : path :=
  evidenceRoot ++ [runId +:+ ".zip"].

(** The files [tar -xf] leaves under [dir]. *)
Definition extracted (dir : path) (items : list (string * option (list path))) : list path :=
  items ≫= (λ it, (dir ++ [it.1]) ::
                   match it.2 with
                   | Some below => (λ q, dir ++ it.1 :: q) <$> below
                   | None => []
                   end).

(** Steps 2 to 8 of [buildBundle], once the run and a workspace with a
    container are at hand. The result is the message of the error thrown
    ([inl]) or nothing; the world is the one reached either way. *)
Definition assemble (evidenceRoot : path) (runId : string) (r : run)
    (a : build_answers) (st : world) : (string + unit) * world :=
  let temp := tempDir evidenceRoot runId in
  let ext := extractDir evidenceRoot runId in
  let bun := bundleDir evidenceRoot runId in
  let fs0 := if existsSync temp (w_fs st) then rm_rf temp (w_fs st) else w_fs st in
  let fs1 := mkdir_p bun (mkdir_p ext fs0) in
  match ba_archive a with
  | Some e => (inl e, with_fs st fs1)
  | None =>
      let fs2 := writeFile (temp ++ ["evidence.tar"]) fs1 in
      match ba_untar a with
      | Some e => (inl e, with_fs st fs2)
      | None =>
          let fs3 := list_to_set (extracted ext (ba_items a)) ∪ fs2 in
          let copied :=
            match ba_items a with
            | [] => inr fs3
            | (name, Some below) :: _ =>
                inr (list_to_set ((λ q, bun ++ q) <$> below) ∪ fs3)
            | (name, None) :: _ =>
                match ba_copy a with
                | Some e => inl e
                | None => inr (writeFile (bun ++ [name]) fs3)
                end
            end in
          match copied with
          | inl e => (inl e, with_fs st fs3)
          | inr fs4 =>
              let fs5 := writeFile (bun ++ ["env_snapshot.json"])
                           (writeFile (bun ++ ["metadata.json"]) fs4) in
              let fs6 := if truthy_text (run_diff r)
                         then writeFile (bun ++ ["diff.patch"]) fs5 else fs5 in
              match ba_zip a with
              | Some e => (inl e, with_fs st fs6)
              | None =>
                  let zip := zipFilePath evidenceRoot runId in
                  let st7 := with_fs st (writeFile zip fs6) in
                  let st8 := update_bundle runId (mark_ready zip (ba_now a)) st7 in
                  (inr (), with_fs st8 (rm_rf temp (w_fs st8)))
              end
          end
      end
  end.

(** [buildBundle(runId)], with [evidenceRoot] the value of [EVIDENCE_ROOT]. *)
Definition buildBundle (evidenceRoot : path) (runId : string)
    (a : build_answers) (st : world) : world :=
  match take_first (λ r, bool_decide (run_id r = runId)) (runs (w_db st)) with
  | None => on_error runId a ("Run " +:+ runId +:+ " not found") st
  | Some r =>
      match take_first (has_id (run_workspace_id r)) (workspaces (w_db st)) with
      | Some ws =>
          if truthy (ws_container_id ws)
          then match assemble evidenceRoot runId r a st with
               | (inl e, st') => on_error runId a e st'
               | (inr _, st') => st'
               end
          else on_error runId a ("Workspace container not found for run " +:+ runId) st
      | None => on_error runId a ("Workspace container not found for run " +:+ runId) st
      end
  end.

End EvidenceBuilder.

(** ** The HTTP handlers ([orchestrator/src/index.ts]) *)

Module Orchestrator.

(** The environment variables the handlers read, as parsed. *)
Record config := Config {
  cfg_image : string;
  cfg_api_key : string;
  cfg_force_mock : option string;
  cfg_max_runs : Quota.jsnumber;
  cfg_idle_ms : Z;
  cfg_cold_ttl_days : Z;
  cfg_evidence_ttl_days : Z;
  cfg_evidence_root : EvidenceBuilder.path
}.

Inductive reply :=
| ProjectCreated (projectId : string)
| Opened (workspaceId : string) (state : workspace_state)
| RunResult (runId : string) (finalText diff : jsstring)
| EventStream (frames : list CodexEvent)
| HttpError (status : Z) (error : string).

(** *** [POST /projects] *)

Definition createProject (user name repoUrl newId : string) (st : world) : reply * world :=
  if existsb (λ p, bool_decide (pr_id p = newId)) (projects (w_db st))
  then (HttpError 500 "Failed to create project", st)
  else (ProjectCreated newId,
        with_db st (Db (projects (w_db st) ++ [Project newId user name repoUrl])
                       (workspaces (w_db st)) (runs (w_db st)) (evidence_bundles (w_db st)))).

(** *** [POST /projects/:id/open] *)

(** What the outside answers during one Open: Docker, the id Postgres
    generates if a row is inserted, and the clock readings of the upsert. *)
Record open_answers := OpenAnswers {
  oa_docker : docker_answers;
  oa_new_id : string;
  oa_now_idle : Z;
  oa_now_active : Z
}.

Definition find_project (d : db) (user id : string) : option project :=
  take_first (λ p, bool_decide (pr_id p = id) && bool_decide (pr_user_id p = user)) (projects d).

Definition find_workspace (d : db) (user id : string) : option workspace :=
  take_first (λ w, bool_decide (ws_project_id w = id) && bool_decide (ws_user_id w = user))
             (workspaces d).

Definition is_other_warm (user id : string) (w : workspace) : bool :=
  bool_decide (ws_state w = warm)
  && negb (bool_decide (ws_project_id w = id))
  && bool_decide (ws_user_id w = user).

Definition otherWarmWorkspaces (d : db) (user id : string) : list (string * option string) :=
  (λ w, (ws_id w, ws_container_id w)) <$> select_where (is_other_warm user id) (workspaces d).

(** The body of the LRU loop: stop the container if there is one, then mark
    the row cold. *)
Definition evict_one (st : world) (other : string * option string) : world :=
  let st1 := match other.2 with
             | Some c => if truthy other.2
                         then with_docker st (stopWorkspace c (w_docker st)) else st
             | None => st
             end in
  with_db st1 (set_workspaces (w_db st1)
                 (update_where (has_id other.1) mark_cold (workspaces (w_db st1)))).

Definition evict (others : list (string * option string)) (st : world) : world :=
  fold_left evict_one others st.

Definition twenty_minutes : Z := 20 * 60 * 1000.

Definition mark_warm (r : warm_workspace) (idle active : Z) (w : workspace) : workspace :=
  Workspace (ws_id w) (ws_user_id w) (ws_project_id w) warm (Some (containerId r))
    (ws_volume_name w) (ws_thread_id w) (Some (imageName r)) (Some (imageDigest r))
    (ws_runtime_metadata w) active (Some idle).

Definition new_workspace (newId user id : string) (r : warm_workspace) (idle active : Z) : workspace :=
  Workspace newId user id warm (Some (containerId r)) (Some (volumeName r)) None
    (Some (imageName r)) (Some (imageDigest r)) None active (Some idle).

Definition failed_to_open : reply := HttpError 500 "Failed to open workspace".

Definition envVars_of (cfg : config) (workspace : option workspace) : list (string * string) :=
  match cfg_force_mock cfg with
  | Some v => if truthy (cfg_force_mock cfg) then [("FORCE_MOCK_CODEX", v)] else []
  | None => []
  end ++
  match workspace with
  | Some w => match ws_thread_id w with
              | Some t => if truthy (ws_thread_id w) then [("CODEX_THREAD_ID", t)] else []
              | None => []
              end
  | None => []
  end.

(** Open from the warm test on: [workspace] is the row as it was read at the
    top of the handler. *)
Definition warm_up (cfg : config) (user id repoUrl : string) (workspace : option workspace)
    (a : open_answers) (st : world) : reply * world :=
  match workspace with
  | Some w =>
      if bool_decide (ws_state w = warm) && truthy (ws_container_id w)
      then (Opened (ws_id w) warm, st)
      else
        match createWarmWorkspace (cfg_image cfg) id repoUrl (cfg_api_key cfg)
                (envVars_of cfg workspace) (oa_docker a) (w_docker st) with
        | (inl _, t) => (failed_to_open, with_docker st t)
        | (inr r, t) =>
            let st1 := with_docker st t in
            if existsb (has_id (ws_id w)) (workspaces (w_db st1))
            then (Opened (ws_id w) warm,
                  with_db st1 (set_workspaces (w_db st1)
                    (update_where (has_id (ws_id w))
                       (mark_warm r (oa_now_idle a + twenty_minutes) (oa_now_active a))
                       (workspaces (w_db st1)))))
            else (failed_to_open, st1)
        end
  | None =>
      match createWarmWorkspace (cfg_image cfg) id repoUrl (cfg_api_key cfg)
              (envVars_of cfg workspace) (oa_docker a) (w_docker st) with
      | (inl _, t) => (failed_to_open, with_docker st t)
      | (inr r, t) =>
          let st1 := with_docker st t in
          if existsb (has_id (oa_new_id a)) (workspaces (w_db st1))
          then (failed_to_open, st1)
          else (Opened (oa_new_id a) warm,
                with_db st1 (set_workspaces (w_db st1)
                  (workspaces (w_db st1) ++
                     [new_workspace (oa_new_id a) user id r
                        (oa_now_idle a + twenty_minutes) (oa_now_active a)])))
      end
  end.

(** The whole handler, run without interruption. *)
Definition open (cfg : config) (user id : string) (a : open_answers) (st : world) : reply * world :=
  match find_project (w_db st) user id with
  | None => (HttpError 404 "Project not found", st)
  | Some project =>
      let workspace := find_workspace (w_db st) user id in
      let others := otherWarmWorkspaces (w_db st) user id in
      warm_up cfg user id (pr_repo_url project) workspace a (evict others st)
  end.

(** Two Open handlers whose awaits interleave: both read the tables, then
    both run their LRU pass, then the first and the second finish. Between
    two awaits a handler runs alone, so this is one of the schedules the
    event loop can produce. *)
Definition open_interleaved (cfg : config)
    (user1 id1 : string) (a1 : open_answers)
    (user2 id2 : string) (a2 : open_answers) (st : world) : option (reply * reply * world) :=
  match find_project (w_db st) user1 id1, find_project (w_db st) user2 id2 with
  | Some p1, Some p2 =>
      let workspace1 := find_workspace (w_db st) user1 id1 in
      let others1 := otherWarmWorkspaces (w_db st) user1 id1 in
      let workspace2 := find_workspace (w_db st) user2 id2 in
      let others2 := otherWarmWorkspaces (w_db st) user2 id2 in
      let st1 := evict others2 (evict others1 st) in
      let (r1, st2) := warm_up cfg user1 id1 (pr_repo_url p1) workspace1 a1 st1 in
      let (r2, st3) := warm_up cfg user2 id2 (pr_repo_url p2) workspace2 a2 st2 in
      Some (r1, r2, st3)
  | _, _ => None
  end.

(** *** The agent worker *)

Record worker_result := WorkerResult {
  finalText : jsstring;
  diff : jsstring;
  threadId : string;
  gitCommit : option string
}.

(** What [fetch] gives: a response that is [ok] and parses, one that is [ok]
    and whose body does not parse, one that is not [ok], or a rejection. *)
Inductive fetch_outcome :=
| Responded (result : worker_result)
| BadBody (message : string)
| NotOk (status errText : string)
| Rejected (name message : string).

(** The value reaching the code after the call, or the [message] of the
    error thrown on the way. *)
Definition worker_call (o : fetch_outcome) : string + worker_result :=
  match o with
  | Responded r => inr r
  | BadBody m => inl m
  | NotOk status errText => inl ("Worker responded with " +:+ status +:+ ": " +:+ errText)
  | Rejected _ m => inl m
  end.

(** The retry loop of the streaming handler, [for (let i = 0; i < 15; i++)],
    from iteration [i] with [n] iterations left: a rejection is rethrown on
    the last iteration and when it is an [AbortError] (the 10 s timer fired);
    otherwise the loop sleeps a second and tries again. [None]: the loop
    ended without a response. *)
Fixpoint fetch_retry (attempt : nat → fetch_outcome) (n i : nat) : option fetch_outcome :=
  match n with
  | O => None
  | S n' =>
      match attempt i with
      | Rejected name m =>
          if bool_decide (i = 14%nat) then Some (Rejected name m)
          else if bool_decide (name = "AbortError") then Some (Rejected name m)
          else fetch_retry attempt n' (S i)
      | o => Some o
      end
  end.

Definition worker_call_stream (attempt : nat → fetch_outcome) : string + worker_result :=
  match fetch_retry attempt 15 0 with
  | Some o => worker_call o
  | None => inl "Failed to connect to worker"
  end.

(** *** Token synthesis *)

(** [\s] of a JavaScript regular expression, on UTF-16 code units. *)
Definition is_space (c : N) : bool :=
  ((9 <=? c) && (c <=? 13) || (c =? 32) || (c =? 160) || (c =? 5760)
   || (8192 <=? c) && (c <=? 8202) || (c =? 8232) || (c =? 8233) || (c =? 8239)
   || (c =? 8287) || (c =? 12288) || (c =? 65279))%N.

(** [text.split(/(\s+)/)]: the pieces between maximal runs of white space,
    with the runs themselves kept in between. [cur] is the piece being read
    and [in_ws] tells whether it is a run of white space. *)
Fixpoint split_from (in_ws : bool) (cur : jsstring) (s : jsstring) : list jsstring :=
  match s with
  | [] => if in_ws then [cur; []] else [cur]
  | c :: s' =>
      if is_space c
      then (if in_ws then split_from true (cur ++ [c]) s'
            else cur :: split_from true [c] s')
      else (if in_ws then cur :: split_from false [c] s'
            else split_from false (cur ++ [c]) s')
  end.

Definition split_ws (text : jsstring) : list jsstring := split_from false [] text.

(** [emit(partial)]: stamp the event, push it on [runEvents] and write the
    frame. [clock k] is what [new Date()] reads at the emission numbered [k]. *)
Definition emit (clock : nat → Z) (runId : string) (log : list CodexEvent) (p : payload)
    : list CodexEvent :=
  log ++ [Event p (clock (length log)) runId].

(** [for (let i = 0; i < tokens.length; i++) if (tokens[i].length > 0) emit(...)] *)
Fixpoint emit_tokens (clock : nat → Z) (runId : string) (i : nat) (tokens : list jsstring)
    (log : list CodexEvent) : list CodexEvent :=
  match tokens with
  | [] => log
  | t :: ts =>
      emit_tokens clock runId (S i) ts
        (match t with
         | [] => log
         | _ :: _ => emit clock runId log (Token t i)
         end)
  end.

(** *** [POST /projects/:id/message] and [POST /projects/:id/message/stream] *)

Record request := Request {
  rq_user : string;
  rq_id : string;
  rq_text : jsstring
}.

(** What the outside answers during one run:
    - [ra_quota_now]: [new Date()] in [checkQuota];
    - [ra_start]: [Date.now()] for [startTime];
    - [ra_run_id]: the id Postgres generates for the Run row;
    - [ra_addr_error]: [Some message] when looking up the worker's address
      ([getContainerIp], [getContainerHostPort]) throws;
    - [ra_attempt i]: what the [i]-th [fetch] gives (the unary handler
      fetches once);
    - [ra_clock k]: [new Date()] at the emission numbered [k] of a stream;
    - [ra_finished_at], [ra_done]: [new Date()] and [Date.now()] once the
      worker is through;
    - [ra_put_ok]: whether [putFile] succeeds;
    - [ra_idle_now], [ra_active_now]: later readings;
    - [ra_bundle_id], [ra_bundle_now]: the id and the time Postgres gives
      the bundle row. *)
Record run_answers := RunAnswers {
  ra_quota_now : Z;
  ra_start : Z;
  ra_run_id : string;
  ra_addr_error : option string;
  ra_attempt : nat → fetch_outcome;
  ra_clock : nat → Z;
  ra_finished_at : Z;
  ra_done : Z;
  ra_put_ok : bool;
  ra_idle_now : Z;
  ra_active_now : Z;
  ra_bundle_id : string;
  ra_bundle_now : Z
}.

Definition find_warm_workspace (d : db) (user id : string) : option workspace :=
  take_first (λ w, bool_decide (ws_project_id w = id) && bool_decide (ws_user_id w = user)
                   && bool_decide (ws_state w = warm))
             (workspaces d).

Definition new_run (runId user id : string) (w : workspace) (text : jsstring) (start : Z) : run :=
  Run runId user id (ws_id w) running text None None None start None None None
      (ws_image_name w) (ws_image_digest w) (ws_runtime_metadata w) None.

Definition evidence_dir (runId : string) : string := "/workspace/evidence/" +:+ runId.

Definition events_path (runId : string) : string := evidence_dir runId +:+ "/events.jsonl".

Definition mark_succeeded (res : worker_result) (w : workspace) (finishedAt duration : Z)
    (r : run) : run :=
  Run (run_id r) (run_user_id r) (run_project_id r) (run_workspace_id r) succeeded
      (run_prompt r) (Some (finalText res)) (Some (diff res)) (run_error_message r)
      (run_started_at r) (Some finishedAt) (Some duration) (gitCommit res)
      (run_image_name r) (run_image_digest r) (ws_runtime_metadata w)
      (Some (evidence_dir (run_id r))).

Definition mark_failed (message : string) (finishedAt duration : Z) (r : run) : run :=
  Run (run_id r) (run_user_id r) (run_project_id r) (run_workspace_id r) failed
      (run_prompt r) (run_final_text r) (run_diff r) (Some message)
      (run_started_at r) (Some finishedAt) (Some duration) (run_git_commit r)
      (run_image_name r) (run_image_digest r) (run_env_snapshot r) (run_evidence_path r).

Definition update_run (runId : string) (f : run → run) (st : world) : world :=
  with_db st (set_runs (w_db st)
                (update_where (λ r, bool_decide (run_id r = runId)) f (runs (w_db st)))).

Definition mark_active (thread : string) (active idle : Z) (w : workspace) : workspace :=
  Workspace (ws_id w) (ws_user_id w) (ws_project_id w) (ws_state w) (ws_container_id w)
    (ws_volume_name w) (Some thread) (ws_image_name w) (ws_image_digest w)
    (ws_runtime_metadata w) active (Some idle).

Definition update_workspace (wsId : string) (f : workspace → workspace) (st : world) : world :=
  with_db st (set_workspaces (w_db st) (update_where (has_id wsId) f (workspaces (w_db st)))).

(** [putFile] inside its [try]: a failure is logged and the file is not
    there. *)
Definition putFile (cid path : string) (content : ndjson) (ok : bool) (st : world) : world :=
  if ok then World (w_db st) (w_docker st) (<[(cid, path) := content]> (w_sandbox st)) (w_fs st)
  else st.

(** [triggerEvidenceBuild]: the pending row, unless the run has one
    ([onConflict run_id doNothing]); any other failure of the insert is
    logged and dropped. The build itself runs later, on its own. *)
Definition triggerEvidenceBuild (runId user id wsId : string) (newId : string) (now : Z)
    (st : world) : world :=
  if existsb (EvidenceBuilder.for_run runId) (evidence_bundles (w_db st)) then st
  else if existsb (λ b, bool_decide (eb_id b = newId)) (evidence_bundles (w_db st)) then st
  else with_db st (set_bundles (w_db st)
         (evidence_bundles (w_db st) ++
            [EvidenceBundle newId runId user id wsId pending None None now now])).

Definition no_warm_workspace : reply :=
  HttpError 409 "No warm workspace found. Open project first.".

Definition failed_to_process : reply := HttpError 500 "Failed to process message".

Definition quota_exceeded : reply := HttpError 429 "quota_exceeded".

(** The event log the unary handler builds after a successful call. *)
Definition unary_events (runId : string) (res : worker_result) (start finishedAt duration : Z)
    : list CodexEvent :=
  [Event RunStart start runId]
  ++ match finalText res with
     | [] => []
     | _ :: _ => [Event (Token (finalText res) 0) (Z.quot (2 * start + duration) 2) runId]
     end
  ++ match diff res with
     | [] => []
     | _ :: _ => [Event (DiffEvent (diff res)) finishedAt runId]
     end
  ++ [Event (RunComplete succeeded None) finishedAt runId].

Definition unary_failure_events (runId message : string) (start finishedAt : Z)
    : list CodexEvent :=
  [Event RunStart start runId; Event (RunComplete failed (Some message)) finishedAt runId].

Definition message (cfg : config) (rq : request) (a : run_answers) (st : world) : reply * world :=
  if negb (Quota.checkQuota (cfg_max_runs cfg) (ra_quota_now a) (w_db st) (rq_user rq))
  then (quota_exceeded, st) else
  match find_warm_workspace (w_db st) (rq_user rq) (rq_id rq) with
  | None => (no_warm_workspace, st)
  | Some w =>
      match ws_container_id w with
      | None => (no_warm_workspace, st)
      | Some cid =>
          if negb (truthy (ws_container_id w)) then (no_warm_workspace, st) else
          let runId := ra_run_id a in
          if existsb (λ r, bool_decide (run_id r = runId)) (runs (w_db st))
          then (failed_to_process, st) else
          let st1 := with_db st (set_runs (w_db st)
                       (runs (w_db st) ++
                          [new_run runId (rq_user rq) (rq_id rq) w (rq_text rq) (ra_start a)])) in
          match ra_addr_error a with
          | Some _ => (failed_to_process, st1)
          | None =>
              let duration := ra_done a - ra_start a in
              match worker_call (ra_attempt a 0%nat) with
              | inr res =>
                  let events := unary_events runId res (ra_start a) (ra_finished_at a) duration in
                  let st2 := putFile cid (events_path runId) events (ra_put_ok a) st1 in
                  let st3 := update_run runId
                               (mark_succeeded res w (ra_finished_at a) duration) st2 in
                  let st4 := update_workspace (ws_id w)
                               (mark_active (threadId res) (ra_active_now a)
                                  (ra_idle_now a + cfg_idle_ms cfg)) st3 in
                  let st5 := triggerEvidenceBuild runId (rq_user rq) (rq_id rq) (ws_id w)
                               (ra_bundle_id a) (ra_bundle_now a) st4 in
                  (RunResult runId (finalText res) (diff res), st5)
              | inl msg =>
                  let st2 := update_run runId (mark_failed msg (ra_finished_at a) duration) st1 in
                  let events := unary_failure_events runId msg (ra_start a) (ra_finished_at a) in
                  let st3 := putFile cid (events_path runId) events (ra_put_ok a) st2 in
                  let st4 := triggerEvidenceBuild runId (rq_user rq) (rq_id rq) (ws_id w)
                               (ra_bundle_id a) (ra_bundle_now a) st3 in
                  (failed_to_process, st4)
              end
          end
      end
  end.

(** The streaming handler. [runEvents] is the log that [emit] extends; the
    frames written to the client are the same events in the same order, so
    the reply is the final log. Before the Run row exists [sendEvent] is the
    empty function and the outer [catch] sends nothing. *)
Definition stream (cfg : config) (rq : request) (a : run_answers) (st : world) : reply * world :=
  if negb (Quota.checkQuota (cfg_max_runs cfg) (ra_quota_now a) (w_db st) (rq_user rq))
  then (quota_exceeded, st) else
  match find_warm_workspace (w_db st) (rq_user rq) (rq_id rq) with
  | None => (EventStream [], st)
  | Some w =>
      match ws_container_id w with
      | None => (EventStream [], st)
      | Some cid =>
          if negb (truthy (ws_container_id w)) then (EventStream [], st) else
          let runId := ra_run_id a in
          if existsb (λ r, bool_decide (run_id r = runId)) (runs (w_db st))
          then (EventStream [], st) else
          let st1 := with_db st (set_runs (w_db st)
                       (runs (w_db st) ++
                          [new_run runId (rq_user rq) (rq_id rq) w (rq_text rq) (ra_start a)])) in
          let log1 := emit (ra_clock a) runId [] RunStart in
          match ra_addr_error a with
          | Some msg =>
              (EventStream (log1 ++ [Event (RunComplete failed (Some msg))
                                       (ra_clock a (length log1)) "unknown"]), st1)
          | None =>
              let duration := ra_done a - ra_start a in
              match worker_call_stream (ra_attempt a) with
              | inr res =>
                  let log2 := emit_tokens (ra_clock a) runId 0 (split_ws (finalText res)) log1 in
                  let log3 := match diff res with
                              | [] => log2
                              | _ :: _ => emit (ra_clock a) runId log2 (DiffEvent (diff res))
                              end in
                  let st2 := update_run runId
                               (mark_succeeded res w (ra_finished_at a) duration) st1 in
                  let st3 := update_workspace (ws_id w)
                               (mark_active (threadId res) (ra_active_now a)
                                  (ra_idle_now a + cfg_idle_ms cfg)) st2 in
                  let st4 := putFile cid (events_path runId) log3 (ra_put_ok a) st3 in
                  let st5 := triggerEvidenceBuild runId (rq_user rq) (rq_id rq) (ws_id w)
                               (ra_bundle_id a) (ra_bundle_now a) st4 in
                  (EventStream (emit (ra_clock a) runId log3 (RunComplete succeeded None)), st5)
              | inl msg =>
                  let st2 := update_run runId (mark_failed msg (ra_finished_at a) duration) st1 in
                  let st3 := putFile cid (events_path runId) log1 (ra_put_ok a) st2 in
                  let st4 := triggerEvidenceBuild runId (rq_user rq) (rq_id rq) (ws_id w)
                               (ra_bundle_id a) (ra_bundle_now a) st3 in
                  (EventStream (emit (ra_clock a) runId log1 (RunComplete failed (Some msg))), st4)
              end
          end
      end
  end.

(** *** Everything that can happen to the world, one request or sweep at a time *)

Inductive op :=
| OpCreateProject (user name repoUrl newId : string)
| OpOpen (user id : string) (a : open_answers)
| OpMessage (rq : request) (a : run_answers)
| OpStream (rq : request) (a : run_answers)
| OpReap (now : Z)
| OpWorkspaceGC (now : Z)
| OpEvidenceGC (now : Z)
| OpBuild (runId : string) (a : EvidenceBuilder.build_answers).

Definition exec_op (cfg : config) (st : world) (o : op) : world :=
  match o with
  | OpCreateProject user name repoUrl newId => (createProject user name repoUrl newId st).2
  | OpOpen user id a => (open cfg user id a st).2
  | OpMessage rq a => (message cfg rq a st).2
  | OpStream rq a => (stream cfg rq a st).2
  | OpReap now => IdleReaper.reapIdleWorkspaces now st
  | OpWorkspaceGC now => GC.runWorkspaceGC (cfg_cold_ttl_days cfg) now st
  | OpEvidenceGC now => GC.runEvidenceGC (cfg_evidence_ttl_days cfg) now st
  | OpBuild runId a => EvidenceBuilder.buildBundle (cfg_evidence_root cfg) runId a st
  end.

Definition exec_ops (cfg : config) (ops : list op) (st : world) : world :=
  fold_left (exec_op cfg) ops st.

End Orchestrator.

Import Orchestrator.

(** ** Auxiliary notions used in the statements *)

(** A table after one [update ... where id = i] per element of [ids]. *)
Definition update_each (f : workspace → workspace) (ids : list string) (rows : list workspace)
    : list workspace :=
  fold_left (λ rs i, update_where (has_id i) f rs) ids rows.

Definition hit (ids : list string) (w : workspace) : bool :=
  existsb (λ i, has_id i w) ids.

(** The ids a loop acts on when it skips the rows whose second column is
    falsy. *)
Definition truthy_ids (l : list (string * option string)) : list string :=
  fst <$> List.filter (λ p, truthy p.2) l.

(** Row by row, the table [rows'] continues [rows]: the row at each position
    of [rows] is still there in [rows'] and related to it by [R]. Rows may
    have been added at the end. *)
Definition continues (R : workspace → workspace → Prop) (rows rows' : list workspace) : Prop :=
  ∀ k w, rows !! k = Some w → ∃ w', rows' !! k = Some w' ∧ R w w'.

(** The row keeps its id and its volume name. *)
Definition same_volume (w w' : workspace) : Prop :=
  ws_id w' = ws_id w ∧ ws_volume_name w' = ws_volume_name w.

(** The row keeps its id and its volume name, or it is now [deleted] with
    no volume name. *)
Definition same_volume_or_deleted (w w' : workspace) : Prop :=
  ws_id w' = ws_id w
  ∧ (ws_volume_name w' = ws_volume_name w
     ∨ ws_state w' = deleted ∧ ws_volume_name w' = None).

(** The key of a workspace row: one row per user and project. *)
Definition ws_key (w : workspace) : string * string := (ws_user_id w, ws_project_id w).

(** The table has no two rows with the same id, and no two rows for the same
    user and project. *)
Definition well_keyed (rows : list workspace) : Prop :=
  NoDup (ws_id <$> rows) ∧ NoDup (ws_key <$> rows).

(** Every user has at most one warm row. *)
Definition single_warm (rows : list workspace) : Prop :=
  ∀ u, (length (select_where (warm_of u) rows) ≤ 1)%nat.

(** The row keeps its id and its key, and is warm only if it was. *)
Definition not_warmed (w w' : workspace) : Prop :=
  ws_id w' = ws_id w ∧ ws_key w' = ws_key w ∧ (ws_state w' = warm → ws_state w = warm).

(** The positions of the non-empty strings of [toks], counted from [i]. *)
Fixpoint nonempty_indices (i : nat) (toks : list jsstring) : list nat :=
  match toks with
  | [] => []
  | [] :: ts => nonempty_indices (S i) ts
  | (_ :: _) :: ts => i :: nonempty_indices (S i) ts
  end.

(** Each number of the list is below the ones after it. *)
Fixpoint ascending (l : list nat) : Prop :=
  match l with
  | [] => True
  | x :: l' => Forall (λ y, (x < y)%nat) l' ∧ ascending l'
  end.

(** ** What holds of the lock manager at every point of every schedule *)

Module LockInv.

Import LockManager.

Record holds (s : state) : Prop := Holds {
  (* the promise a task stores is the one it built on the promise it awaits *)
  inv_new : ∀ i t, tasks s !! i = Some t → t_newMutex t = Then (t_mutex t) i;
  (* a signal is resolved exactly when its task is past [finally] *)
  inv_done : ∀ i t, tasks s !! i = Some t → (t_phase t = Done ↔ i ∈ completed s);
  inv_completed : ∀ i, i ∈ completed s → (i < length (tasks s))%nat;
  (* the map holds, for a key, the promise of the last task called with it *)
  inv_map : ∀ key p, mutexes s !! key = Some p →
    ∃ i t, tasks s !! i = Some t ∧ t_key t = key ∧ p = t_newMutex t
           ∧ ∀ j tj, tasks s !! j = Some tj → t_key tj = key → (j ≤ i)%nat;
  (* a key is absent only when all its tasks are through *)
  inv_nomap : ∀ key, mutexes s !! key = None →
    ∀ i t, tasks s !! i = Some t → t_key t = key → t_phase t = Done;
  (* a task awaits a resolved promise, all earlier tasks of its key being
     through, or the promise of the task of its key called just before it *)
  inv_chain : ∀ j tj, tasks s !! j = Some tj →
    (t_mutex tj = Resolved
     ∧ ∀ i ti, (i < j)%nat → tasks s !! i = Some ti → t_key ti = t_key tj → t_phase ti = Done)
    ∨ (∃ i ti, (i < j)%nat ∧ tasks s !! i = Some ti ∧ t_key ti = t_key tj
               ∧ t_mutex tj = t_newMutex ti
               ∧ ∀ k tk, (i < k < j)%nat → tasks s !! k = Some tk → t_key tk ≠ t_key tj);
  (* a task past [await mutex] awaited a fulfilled promise *)
  inv_entered : ∀ j tj, tasks s !! j = Some tj → t_phase tj ≠ Waiting →
    fulfilled (completed s) (t_mutex tj) = true;
  (* a Run row belongs to a task that is past its insert *)
  inv_rows : ∀ r, r ∈ rows s →
    ∃ t, tasks s !! rr_task r = Some t ∧ t_key t = rr_key r
         ∧ (t_phase t = Holding true ∨ t_phase t = Done);
  (* the rows of one key were inserted in the order of the calls *)
  inv_rows_order : ∀ p q r1 r2, rows s !! p = Some r1 → rows s !! q = Some r2 →
    (p < q)%nat → rr_key r1 = rr_key r2 → (rr_task r1 < rr_task r2)%nat
}.

End LockInv.

(** ** Concrete worlds for the examples *)

Module Scenario.



Definition cfg : config :=
  Config "codexrt-workspace:v0.1" "dummy-key" None (Quota.Num 2) 1200000 30 180 ["evidence"].

(** Day 100 of the epoch, five seconds after midnight UTC. *)
Definition morning : Z := 100 * 86400000 + 5000.

Definition warm_row : workspace :=
  Workspace "w1" "u1" "p1" warm (Some "c1") (Some "ws-p1") None
    (Some "codexrt-workspace:v0.1") (Some "sha256:abc") None morning (Some (morning + 1200000)).

Definition past_run (i : string) (t : Z) : run :=
  Run i "u1" "p1" "w1" succeeded [104; 105]%N (Some [111; 107]%N) (Some []) None t
      (Some (t + 10)) (Some 10) None None None None (Some (evidence_dir i)).

(** [u1] owns [p1], open and warm, and has run twice today. *)
Definition busy_world : world :=
  World (Db [Project "p1" "u1" "demo" "https://github.com/octocat/Hello-World.git"]
            [warm_row]
            [past_run "r1" (morning - 4000); past_run "r2" (morning - 3000)] [])
        [] ∅ ∅.

(** The same, before any run. *)
Definition fresh_world : world :=
  World (Db [Project "p1" "u1" "demo" "https://github.com/octocat/Hello-World.git"]
            [warm_row] [] [])
        [] ∅ ∅.

Definition hello : request := Request "u1" "p1" [104; 105]%N.

(** A worker that answers [text] with no diff. *)
Definition answers (o : fetch_outcome) : run_answers :=
  RunAnswers morning (morning + 1) "r3" None (λ _, o) (λ k, morning + 2 + Z.of_nat k)
             (morning + 50) (morning + 51) true (morning + 52) (morning + 53) "b3" (morning + 54).

Definition says (text : jsstring) : fetch_outcome :=
  Responded (WorkerResult text [] "thread-1" None).

(** The 10 s timer fires while [fetch] is pending. *)
Definition aborted : fetch_outcome := Rejected "AbortError" "This operation was aborted".

(** The fresh world after one successful unary run, [r3]. *)
Definition after_run : world :=
  (message cfg hello (answers (says [111; 107]%N)) fresh_world).2.

(** A build during which Docker has no archive to give. *)
Definition no_archive : EvidenceBuilder.build_answers :=
  EvidenceBuilder.BuildAnswers (Some "no such container:path") None [] None None (morning + 100).

(** A build in which every step goes through; the archive holds the
    directory [r3] with the three logs. *)
Definition all_fine : EvidenceBuilder.build_answers :=
  EvidenceBuilder.BuildAnswers None None
    [("r3", Some [["events.jsonl"]; ["command_log.jsonl"]; ["outputs.json"]])]
    None None (morning + 100).

Definition cold_row : workspace :=
  Workspace "w1" "u1" "p1" cold None (Some "ws-p1") (Some "thread-1")
    (Some "codexrt-workspace:v0.1") (Some "sha256:abc") None morning (Some (morning + 1200000)).

(** [u1] owns [p1], whose workspace has been put to sleep. *)
Definition sleeping_world : world :=
  World (Db [Project "p1" "u1" "demo" "https://github.com/octocat/Hello-World.git"]
            [cold_row] [] [])
        [] ∅ ∅.

(** [u1] owns [p1] and [p2]; nothing has been opened yet. *)
Definition unopened_world : world :=
  World (Db [Project "p1" "u1" "demo" "https://github.com/octocat/Hello-World.git";
             Project "p2" "u1" "other" "https://github.com/octocat/Spoon-Knife.git"]
            [] [] [])
        [] ∅ ∅.

(** Docker creates container [c] and then: everything works, the start
    fails, or the clone fails. *)
Definition docker_fine (c : string) : docker_answers :=
  DockerAnswers (Some c) true (Some ("codexrt-workspace:v0.1", "sha256:abc")) true EmptyString.

Definition start_fails (c : string) : docker_answers :=
  DockerAnswers (Some c) false None false "driver failed programming external connectivity".

Definition clone_fails (c : string) : docker_answers :=
  DockerAnswers (Some c) true (Some ("codexrt-workspace:v0.1", "sha256:abc")) false
                "Git clone failed with exit code 128".

Definition opening (d : docker_answers) (newId : string) : open_answers :=
  OpenAnswers d newId morning morning.

(** Two requests for project [p1] arrive one after the other; the second
    calls [run] while the first is still inside [fn]. *)
Definition two_messages : list LockManager.event :=
  [LockManager.Call "p1"; LockManager.Resume 0; LockManager.Insert 0 morning;
   LockManager.Call "p1"; LockManager.Finish 0; LockManager.Resume 1;
   LockManager.Insert 1 (morning + 700); LockManager.Finish 1].

End Scenario.


(** * More of the control plane

    The routes of [index.ts] that only read, the metrics registry, the
    authentication hook and the path handling of [putFile]. *)

(** ** Text helpers shared below *)

Module Text.

(** [parts.join(sep)] *)
Fixpoint join (sep : string) (parts : list string) : string :=
  match parts with
  | [] => EmptyString
  | [x] => x
  | x :: rest => x +:+ sep +:+ join sep rest
  end.

Definition slash : Ascii.ascii := Ascii.ascii_of_nat 47.

(** [s.split('/')]: the pieces between slashes; never the empty list. *)
Fixpoint split_slash (s : string) : list string :=
  match s with
  | EmptyString => [EmptyString]
  | String c s' =>
      if Ascii.eqb c slash then EmptyString :: split_slash s'
      else match split_slash s' with
           | x :: rest => String c x :: rest
           | [] => [String c EmptyString]
           end
  end.

Fixpoint has_slash (s : string) : bool :=
  match s with
  | EmptyString => false
  | String c s' => Ascii.eqb c slash || has_slash s'
  end.

(** The order of [Array.prototype.sort] on strings, for the ASCII names
    used as label keys: by code unit, the shorter of two prefixes first. *)
Definition str_le (a b : string) : Prop := String.leb a b = true.

#[global] Instance str_le_dec : RelDecision str_le :=
  λ a b, decide (String.leb a b = true).

Definition dquote : string := String (Ascii.ascii_of_nat 34) EmptyString.

End Text.

(** ** The read-only routes and the operator route *)

Module Api.

(** The columns [GET /projects/:id/runs] selects. *)
Record run_summary := RunSummary {
  rs_id : string;
  rs_status : run_status;
  rs_prompt : jsstring;
  rs_started_at : Z;
  rs_finished_at : option Z;
  rs_duration_ms : option Z
}.

Inductive api_reply :=
| RunList (listed : list run_summary)
| RunDetails (r : run)
| ZipStream (path : EvidenceBuilder.path)
| Pending
| BundleFailed (message : option string)
| GcTriggered
| ApiError (status : Z) (error : string).

Definition summary (r : run) : run_summary :=
  RunSummary (run_id r) (run_status_of r) (run_prompt r) (run_started_at r)
             (run_finished_at r) (run_duration_ms r).

(** [orderBy('started_at', 'desc')]: a row comes before the rows that
    started no later. SQL leaves the order of equal keys open; the merge
    sort settles it one way. *)
Definition later_first (r1 r2 : run) : Prop := run_started_at r2 ≤ run_started_at r1.

#[global] Instance later_first_dec : RelDecision later_first :=
  λ r1 r2, decide (run_started_at r2 ≤ run_started_at r1).

(** [GET /projects/:id/runs] *)
Definition listRuns (user id : string) (d : db) : api_reply :=
  match find_project d user id with
  | None => ApiError 404 "Project not found"
  | Some _ =>
      RunList (summary <$> take 50 (merge_sort later_first
                 (select_where (λ r, bool_decide (run_project_id r = id)) (runs d))))
  end.


(** [GET /runs/:id/evidence] *)
Definition getEvidence (user id : string) (st : world) : api_reply :=
  match take_first (λ r, bool_decide (run_id r = id) && bool_decide (run_user_id r = user))
                   (runs (w_db st)) with
  | None => ApiError 404 "Run not found"
  | Some _ =>
      match take_first (EvidenceBuilder.for_run id) (evidence_bundles (w_db st)) with
      | None => ApiError 404 "Evidence bundle record not found"
      | Some b =>
          match eb_status b, eb_bundle_path b with
          | pending, _ => Pending
          | bundle_error, _ => BundleFailed (eb_error_message b)
          | ready, Some (c :: p) =>
              if EvidenceBuilder.existsSync (c :: p) (w_fs st) then ZipStream (c :: p)
              else ApiError 500 "Bundle file missing on disk"
          | _, _ => ApiError 404 "Evidence not available"
          end
      end
  end.


End Api.

(** ** The metrics registry ([metrics.ts]) *)

Module Metrics.

Import Text.

(** [labels[k]], for a key of the object. *)
Definition label_value (labels : list (string * string)) (k : string) : string :=
  match List.find (λ kv, String.eqb kv.1 k) labels with
  | Some kv => kv.2
  | None => "undefined"
  end.

(** [getMetricKey(name, labels)]: [labels] holds the entries of the object
    in the order of [Object.keys], with the values already rendered. *)
Definition getMetricKey (name : string) (labels : list (string * string)) : string :=
  match merge_sort str_le (fst <$> labels) with
  | [] => name
  | sortedKeys =>
      name +:+ "{"
      +:+ join "," ((λ k, k +:+ "=" +:+ dquote +:+ label_value labels k +:+ dquote) <$> sortedKeys)
      +:+ "}"
  end.

(** [increment(name, labels)] *)
Definition increment (name : string) (labels : list (string * string))
    (counters : gmap string nat) : gmap string nat :=
  let key := getMetricKey name labels in
  <[key := S (default 0%nat (counters !! key))]> counters.

End Metrics.

(** ** The authentication hook ([plugins/auth.ts]) *)

Module Auth.

Record user_row := UserRow {
  u_id : string;
  u_is_admin : bool
}.

Record api_key_row := ApiKeyRow {
  k_user_id : string;
  k_token_hash : string;
  k_revoked_at : option Z
}.

(** [request.headers['x-api-key']]: absent, one value, or several. *)
Inductive header := NoHeader | One (value : string) | Many (values : list string).

Inductive outcome :=
| Skipped
| Authenticated (id : string) (is_admin : bool)
| Denied (status : Z) (error : string).

(** [api_keys inner join users on users.id = api_keys.user_id where
    token_hash = h], with the three selected columns. *)
Definition joined (h : string) (keys : list api_key_row) (users : list user_row)
    : list (string * bool * option Z) :=
  k ← List.filter (λ k, bool_decide (k_token_hash k = h)) keys;
  u ← List.filter (λ u, bool_decide (u_id u = k_user_id k)) users;
  [(u_id u, u_is_admin u, k_revoked_at k)].

(** [authCheck], with [sha256] the hex digest of the key. *)
Definition authCheck (sha256 : string → string) (url : string) (apiKey : header)
    (keys : list api_key_row) (users : list user_row) : outcome :=
  if bool_decide (url = "/healthz") then Skipped else
  match apiKey with
  | One key =>
      if bool_decide (key = EmptyString) then Denied 401 "Unauthorized: Missing API Key" else
      match head (joined (sha256 key) keys users) with
      | None => Denied 401 "Unauthorized: Invalid API Key"
      | Some (id, is_admin, revoked_at) =>
          match revoked_at with
          | Some _ => Denied 401 "Unauthorized: Invalid API Key"
          | None => Authenticated id is_admin
          end
      end
  | _ => Denied 401 "Unauthorized: Missing API Key"
  end.

End Auth.

(** ** Where [putFile] writes ([workspace-manager]) *)

Module PutFilePath.

Import Text.

(** [dir] and [fileName] of [putFile(containerId, filePath, content)]:
    [filePath.split('/').slice(0, -1).join('/')] and
    [filePath.split('/').pop() || 'file']. *)
Definition target (filePath : string) : string * string :=
  let parts := split_slash filePath in
  (join "/" (take (length parts - 1) parts),
   match last parts with
   | Some f => if bool_decide (f = EmptyString) then "file" else f
   | None => "file"
   end).

End PutFilePath.

(** ** Further notions used in the statements *)

(** A Run row is either running and open-ended, or finished, as succeeded
    or failed, with its end and its duration recorded. *)
Definition run_settled (r : run) : Prop :=
  run_status_of r = running ∧ run_finished_at r = None ∧ run_duration_ms r = None
  ∨ (run_status_of r = succeeded ∨ run_status_of r = failed)
    ∧ is_Some (run_finished_at r) ∧ is_Some (run_duration_ms r).

(** A warm row has a container, a cold row has none, a deleted row has no
    volume name. *)
Definition ws_consistent (w : workspace) : Prop :=
  (ws_state w = warm → is_Some (ws_container_id w))
  ∧ (ws_state w = cold → ws_container_id w = None)
  ∧ (ws_state w = deleted → ws_volume_name w = None).

(** The [delta]s of the token events of a log, in log order. *)
Definition token_deltas (log : list CodexEvent) : list jsstring :=
  omap (λ e, match ev_payload e with Token d _ => Some d | _ => None end) log.

(** The user a request is made by; the sweeps and the builder act for
    nobody. *)
Definition requested_by (o : op) : option string :=
  match o with
  | OpCreateProject user _ _ _ => Some user
  | OpOpen user _ _ => Some user
  | OpMessage rq _ | OpStream rq _ => Some (rq_user rq)
  | _ => None
  end.

(** ** More concrete worlds *)

Module Tenants.

Import Scenario.

(** The warm workspace of another user, [u2], on project [p7]. *)
Definition other_row : workspace :=
  Workspace "w7" "u2" "p7" warm (Some "c7") (Some "ws-p7") None
    (Some "codexrt-workspace:v0.1") (Some "sha256:abc") None morning (Some (morning + 1200000)).

(** [u1] owns [p1], warm, and [p2], never opened; [u2] owns [p7], warm. *)
Definition shared_world : world :=
  World (Db [Project "p1" "u1" "demo" "https://github.com/octocat/Hello-World.git";
             Project "p2" "u1" "other" "https://github.com/octocat/Spoon-Knife.git";
             Project "p7" "u2" "theirs" "https://github.com/octocat/git-consortium.git"]
            [warm_row; other_row] [] [])
        [] ∅ ∅.

End Tenants.

(** Whether a bundle row carries one of the ids. *)
Definition hitb (ids : list string) (b : evidence_bundle) : bool :=
  existsb (λ i, bool_decide (eb_id b = i)) ids.

(** The bundle row is the one of run [r]: it names the run, its user, its
    project and its workspace. *)
Definition bundle_of (r : run) (b : evidence_bundle) : Prop :=
  eb_run_id b = run_id r ∧ eb_user_id b = run_user_id r
  ∧ eb_project_id b = run_project_id r ∧ eb_workspace_id b = run_workspace_id r.

(** No run has two bundle rows, and every bundle row is the one of a Run
    row. *)
Definition bundles_sound (d : db) : Prop :=
  NoDup (eb_run_id <$> evidence_bundles d)
  ∧ ∀ b, b ∈ evidence_bundles d → ∃ r, r ∈ runs d ∧ bundle_of r b.

(** The columns of a bundle row that are never rewritten. *)
Definition bundle_key (b : evidence_bundle) : string * string * string * string * string :=
  (eb_id b, eb_run_id b, eb_user_id b, eb_project_id b, eb_workspace_id b).

Module Records.

Import Scenario.

(** A finished run of [user] on [project], started at [t]. *)
Definition run_of (i user project : string) (t : Z) : run :=
  Run i user project "w1" succeeded [104; 105]%N (Some [111; 107]%N) (Some []) None t
      (Some (t + 10)) (Some 10) None None None None (Some (evidence_dir i)).

(** [u1]'s project [p1] with three runs, the second started last; [p7] of
    [u2] with one run. *)
Definition history : db :=
  Db [Project "p1" "u1" "demo" "https://github.com/octocat/Hello-World.git";
      Project "p7" "u2" "theirs" "https://github.com/octocat/git-consortium.git"]
     []
     [run_of "r1" "u1" "p1" 1000; run_of "r2" "u1" "p1" 3000; run_of "r7" "u2" "p7" 1500;
      run_of "r3" "u1" "p1" 2000]
     [].

(** A stand-in for the hex digest of a key. *)
Definition digest (key : string) : string := "sha256:" +:+ key.

Definition users : list Auth.user_row := [Auth.UserRow "u1" false; Auth.UserRow "u2" true].

(** The key table: one live key of [u1], one revoked key of [u2]. *)
Definition keys : list Auth.api_key_row :=
  [Auth.ApiKeyRow "u1" (digest "secret-1") None;
   Auth.ApiKeyRow "u2" (digest "secret-2") (Some 5000)].

End Records.

Module LockMap.

Import LockManager.

(** A key of the map is the key of a task that is not through, and the
    promise stored is the one that task built. *)
Definition busy (s : state) : Prop :=
  ∀ key p, mutexes s !! key = Some p →
    ∃ i t, tasks s !! i = Some t ∧ t_key t = key ∧ p = t_newMutex t ∧ t_phase t ≠ Done.

End LockMap.

(** How a handler finishes the row it inserted: not at all, as succeeded,
    or as failed. *)
Inductive finishing (w : workspace) : (run → run) → Prop :=
| left_running : finishing w (λ r, r)
| finished_ok res fin dur : finishing w (mark_succeeded res w fin dur)
| finished_ko m fin dur : finishing w (mark_failed m fin dur).
(** * Properties *)

(** ** Rows under repeated updates by id *)

Section UpdateById.

Variable f : workspace → workspace.
Hypothesis f_id : ∀ w, ws_id (f w) = ws_id w.
Hypothesis f_idem : ∀ w, f (f w) = f w.

Lemma has_id_f i w : has_id i (f w) = has_id i w.
Proof using f_id. unfold has_id. by rewrite f_id. Qed.

Lemma update_each_spec ids rows :
  update_each f ids rows = (λ w, if hit ids w then f w else w) <$> rows.
Proof using f_id f_idem.
  revert rows. induction ids as [|i ids IH]; intros rows; simpl.
  - unfold update_each; simpl. induction rows as [|w rows IHr]; simpl; [done|].
    by f_equal.
  - unfold update_each in *. simpl. rewrite IH. unfold update_where.
    rewrite <- list_fmap_compose. apply list_fmap_ext. intros k w _. simpl.
    destruct (has_id i w) eqn:Hi; simpl.
    + unfold hit. assert (existsb (λ j, has_id j (f w)) ids = existsb (λ j, has_id j w) ids) as ->.
      { clear IH. induction ids as [|j ids IHj]; simpl; [done|]. by rewrite has_id_f, IHj. }
      destruct (existsb _ ids); [apply f_idem | done].
    + done.
Qed.

Lemma update_each_lookup ids rows k w :
  rows !! k = Some w →
  update_each f ids rows !! k = Some (if hit ids w then f w else w).
Proof using f_id f_idem.
  intros H. rewrite update_each_spec, list_lookup_fmap, H. done.
Qed.

End UpdateById.

Lemma mark_cold_idem w : mark_cold (mark_cold w) = mark_cold w.
Proof. done. Qed.

Lemma mark_cold_id w : ws_id (mark_cold w) = ws_id w.
Proof. done. Qed.

(** ** Tables row by row *)

Section Continues.

Context (R : workspace → workspace → Prop).
Hypothesis R_refl : ∀ w, R w w.
Hypothesis R_trans : ∀ w1 w2 w3, R w1 w2 → R w2 w3 → R w1 w3.

Lemma continues_refl rows : continues R rows rows.
Proof using R_refl. intros k w Hk. eauto. Qed.

Lemma continues_trans rows1 rows2 rows3 :
  continues R rows1 rows2 → continues R rows2 rows3 → continues R rows1 rows3.
Proof using R_trans.
  intros H12 H23 k w Hk. destruct (H12 k w Hk) as (w2 & Hk2 & HR2).
  destruct (H23 k w2 Hk2) as (w3 & Hk3 & HR3). eauto.
Qed.

Lemma continues_app rows more : continues R rows (rows ++ more).
Proof using R_refl.
  intros k w Hk. exists w. split; [|done]. by apply lookup_app_l_Some.
Qed.

Lemma continues_update p f rows :
  (∀ w, R w (f w)) → continues R rows (update_where p f rows).
Proof using R_refl.
  intros Hf k w Hk. unfold update_where. rewrite list_lookup_fmap, Hk. simpl.
  eexists. split; [done|]. destruct (p w); eauto.
Qed.

Lemma continues_update_each f ids rows :
  (∀ w, R w (f w)) → continues R rows (update_each f ids rows).
Proof using R_refl R_trans.
  intros Hf. revert rows. induction ids as [|i ids IH]; intros rows.
  - apply continues_refl.
  - unfold update_each in *. simpl. eapply continues_trans; [|apply IH].
    by apply continues_update.
Qed.

End Continues.

Lemma same_volume_refl w : same_volume w w.
Proof. done. Qed.

Lemma same_volume_trans w1 w2 w3 : same_volume w1 w2 → same_volume w2 w3 → same_volume w1 w3.
Proof. unfold same_volume. intros [-> ->] [-> ->]. done. Qed.

Lemma same_volume_or_deleted_refl w : same_volume_or_deleted w w.
Proof. split; eauto. Qed.

Lemma same_volume_weaken rows rows' :
  continues same_volume rows rows' → continues same_volume_or_deleted rows rows'.
Proof.
  intros H k w Hk. destruct (H k w Hk) as (w' & Hk' & Hid & Hv).
  exists w'. split; [done|]. split; eauto.
Qed.

(** ** What the loops do to the workspaces table *)

Lemma evict_workspaces others st :
  workspaces (w_db (evict others st))
  = update_each mark_cold (fst <$> others) (workspaces (w_db st)).
Proof.
  unfold evict. revert st. induction others as [|[i c] others IH]; intros st; simpl; [done|].
  rewrite IH. unfold evict_one. simpl.
  destruct c as [c|]; simpl; [|done].
  destruct (negb (bool_decide (c = EmptyString))); done.
Qed.

Lemma gc_workspaces l st :
  workspaces (w_db (fold_left GC.gc_one l st))
  = update_each GC.mark_deleted (fst <$> l) (workspaces (w_db st)).
Proof.
  revert st. induction l as [|[i v] l IH]; intros st; simpl; [done|].
  rewrite IH. unfold GC.gc_one. simpl.
  destruct v as [v|]; simpl; [|done].
  destruct (negb (bool_decide (v = EmptyString))); done.
Qed.

Lemma gc_bundle_workspaces l st :
  workspaces (w_db (fold_left GC.gc_bundle l st)) = workspaces (w_db st).
Proof. revert st. induction l as [|b l IH]; intros st; simpl; [done|]. by rewrite IH. Qed.

Lemma build_workspaces root runId a st :
  workspaces (w_db (EvidenceBuilder.buildBundle root runId a st)) = workspaces (w_db st).
Proof.
  unfold EvidenceBuilder.buildBundle, EvidenceBuilder.assemble.
  repeat case_match; simplify_eq; done.
Qed.

Lemma reap_fold_workspaces l st :
  workspaces (w_db (fold_left IdleReaper.reap_one l st))
  = update_each mark_cold (truthy_ids l) (workspaces (w_db st)).
Proof.
  revert st. induction l as [|[i c] l IH]; intros st; simpl; [done|].
  rewrite IH. unfold IdleReaper.reap_one, truthy_ids. simpl.
  destruct c as [c|]; simpl; [|done].
  destruct (negb (bool_decide (c = EmptyString))); simpl; done.
Qed.

(** ** What the helpers of the handlers leave alone *)

Lemma sandbox_trigger runId user id wsId newId now st :
  w_sandbox (triggerEvidenceBuild runId user id wsId newId now st) = w_sandbox st.
Proof. unfold triggerEvidenceBuild. by repeat case_match. Qed.

Lemma sandbox_putFile cid path content st :
  w_sandbox (putFile cid path content true st) !! (cid, path) = Some content.
Proof. unfold putFile. apply lookup_insert_eq. Qed.

Lemma update_where_none {A} (p : A → bool) f rows :
  existsb p rows = false → update_where p f rows = rows.
Proof.
  induction rows as [|r rows IH]; simpl; [done|].
  intros [Hr Hrows]%orb_false_iff. unfold update_where in *. simpl.
  rewrite Hr. f_equal. by apply IH.
Qed.

Lemma update_where_app {A} (p : A → bool) f l1 l2 :
  update_where p f (l1 ++ l2) = update_where p f l1 ++ update_where p f l2.
Proof. unfold update_where. apply fmap_app. Qed.

Lemma runs_putFile cid path content ok st :
  runs (w_db (putFile cid path content ok st)) = runs (w_db st).
Proof. unfold putFile. by destruct ok. Qed.

Lemma runs_trigger runId user id wsId newId now st :
  runs (w_db (triggerEvidenceBuild runId user id wsId newId now st)) = runs (w_db st).
Proof. unfold triggerEvidenceBuild. by repeat case_match. Qed.

Lemma ids_determine_rows rows w w' :
  NoDup (ws_id <$> rows) → w ∈ rows → w' ∈ rows → ws_id w = ws_id w' → w = w'.
Proof.
  induction rows as [|x rows IH]; simpl; [by intros _ ?%elem_of_nil|].
  intros [Hx Hnd]%NoDup_cons [->|Hw]%elem_of_cons [->|Hw']%elem_of_cons Hid; [done| | |by apply IH].
  - exfalso. apply Hx. rewrite Hid. apply list_elem_of_fmap. eauto.
  - exfalso. apply Hx. rewrite <- Hid. apply list_elem_of_fmap. eauto.
Qed.

Lemma filter_fmap_fixed (q : workspace → bool) g rows :
  (∀ w, w ∈ rows → q (g w) = q w) →
  (∀ w, w ∈ rows → q w = true → g w = w) →
  List.filter q (g <$> rows) = List.filter q rows.
Proof.
  induction rows as [|x rows IH]; intros Hq Hg; [done|].
  rewrite fmap_cons. cbn [List.filter].
  rewrite Hq by apply list_elem_of_here.
  rewrite IH.
  - destruct (q x) eqn:Hx; [|done]. rewrite Hg; [done|apply list_elem_of_here|done].
  - intros w Hw. apply Hq. by apply list_elem_of_further.
  - intros w Hw. apply Hg. by apply list_elem_of_further.
Qed.

Lemma workspaces_putFile cid path content ok st :
  workspaces (w_db (putFile cid path content ok st)) = workspaces (w_db st).
Proof. unfold putFile. by destruct ok. Qed.

Lemma workspaces_trigger runId user id wsId newId now st :
  workspaces (w_db (triggerEvidenceBuild runId user id wsId newId now st)) = workspaces (w_db st).
Proof. unfold triggerEvidenceBuild. by repeat case_match. Qed.

(** ** C7: the idle reaper *)

Module ReaperProofs.

Import IdleReaper Scenario.

Lemma reap_lookup now st k w :
  workspaces (w_db st) !! k = Some w →
  workspaces (w_db (reapIdleWorkspaces now st)) !! k
  = Some (if hit (truthy_ids ((λ w, (ws_id w, ws_container_id w)) <$>
                                select_where (is_idle now) (workspaces (w_db st)))) w
          then mark_cold w else w).
Proof.
  intros H. unfold reapIdleWorkspaces. rewrite reap_fold_workspaces.
  by apply update_each_lookup.
Qed.





End ReaperProofs.

(** ** C4: the quota gate *)

Module QuotaProofs.

Import Quota Scenario.


Lemma startOfDay_spec now :
  startOfDay now ≤ now < startOfDay now + 86400000
  ∧ startOfDay now `mod` 86400000 = 0.
Proof.
  unfold startOfDay, GC.day_ms. change (24 * 60 * 60 * 1000) with 86400000.
  pose proof (Z.mod_pos_bound now 86400000 ltac:(lia)).
  split; [lia|].
  rewrite Zminus_mod, Zmod_mod, Z.sub_diag. done.
Qed.



End QuotaProofs.

(** ** C2: the event log written into the sandbox *)

Module EventLogProofs.

Import Scenario.

#[local] Arguments putFile : simpl never.
#[local] Arguments triggerEvidenceBuild : simpl never.
#[local] Arguments update_run : simpl never.
#[local] Arguments update_workspace : simpl never.

Lemma run_complete_emit_tokens clock runId toks : ∀ i log,
  List.filter is_run_complete (emit_tokens clock runId i toks log)
  = List.filter is_run_complete log.
Proof.
  induction toks as [|t toks IH]; intros i log; simpl; [done|].
  rewrite IH. destruct t; [done|]. unfold emit. rewrite List.filter_app. simpl.
  by rewrite app_nil_r.
Qed.

(** The unary handler logs one [run-start], then the token and the diff if
    any, then one [run-complete]. *)
Lemma unary_events_shape runId res start finishedAt duration :
  let log := unary_events runId res start finishedAt duration in
  length (List.filter is_run_start log) = 1%nat
  ∧ length (List.filter is_run_complete log) = 1%nat
  ∧ (∃ e, last log = Some e ∧ is_run_complete e = true).
Proof.
  unfold unary_events. destruct (finalText res), (diff res); simpl; eauto.
Qed.

(** C2, the part that holds: after a successful unary run whose [putFile]
    goes through, [events.jsonl] is that log. *)
Lemma unary_events_file cfg rq a st w cid res :
  Quota.checkQuota (cfg_max_runs cfg) (ra_quota_now a) (w_db st) (rq_user rq) = true →
  find_warm_workspace (w_db st) (rq_user rq) (rq_id rq) = Some w →
  ws_container_id w = Some cid → cid ≠ EmptyString →
  existsb (λ r, bool_decide (run_id r = ra_run_id a)) (runs (w_db st)) = false →
  ra_addr_error a = None →
  ra_attempt a 0%nat = Responded res →
  ra_put_ok a = true →
  w_sandbox (message cfg rq a st).2 !! (cid, events_path (ra_run_id a))
  = Some (unary_events (ra_run_id a) res (ra_start a) (ra_finished_at a)
            (ra_done a - ra_start a)).
Proof.
  intros Hq Hw Hc Hne Hfresh Haddr Hres Hput. unfold message.
  rewrite Hq, Hw, Hc, Hfresh, Haddr, Hres, Hput. simpl.
  rewrite bool_decide_eq_false_2 by done. simpl.
  rewrite sandbox_trigger. unfold update_workspace, update_run. simpl.
  apply sandbox_putFile.
Qed.

(** C2 fails on the streaming handler. Whenever a streaming run gets as far
    as calling the worker and [putFile] goes through, the [events.jsonl] it
    writes holds the events emitted so far and no [run-complete]: that event
    is emitted after the file is written, and reaches only the client. *)
Theorem stream_events_file_lacks_run_complete cfg rq a st w cid :
  Quota.checkQuota (cfg_max_runs cfg) (ra_quota_now a) (w_db st) (rq_user rq) = true →
  find_warm_workspace (w_db st) (rq_user rq) (rq_id rq) = Some w →
  ws_container_id w = Some cid → cid ≠ EmptyString →
  existsb (λ r, bool_decide (run_id r = ra_run_id a)) (runs (w_db st)) = false →
  ra_addr_error a = None →
  ra_put_ok a = true →
  ∃ file e,
    w_sandbox (stream cfg rq a st).2 !! (cid, events_path (ra_run_id a)) = Some file
    ∧ List.filter is_run_complete file = []
    ∧ (stream cfg rq a st).1 = EventStream (file ++ [e])
    ∧ is_run_complete e = true.
Proof.
  intros Hq Hw Hc Hne Hfresh Haddr Hput. unfold stream.
  rewrite Hq, Hw, Hc, Hfresh, Haddr, Hput. simpl.
  rewrite bool_decide_eq_false_2 by done. simpl.
  destruct (worker_call_stream (ra_attempt a)) as [msg|res]; simpl.
  - eexists _, _. rewrite sandbox_trigger, sandbox_putFile.
    split; [done|]. split; [done|]. split; [reflexivity|done].
  - eexists _, _. rewrite sandbox_trigger, sandbox_putFile.
    split; [done|]. split; [|split; [reflexivity|done]].
    destruct (diff res); [|unfold emit at 1; rewrite List.filter_app, app_nil_r];
      by rewrite run_complete_emit_tokens.
Qed.

(** The streaming run of [hi] in the fresh world: the client sees
    [run-start], the token, [run-complete]; the file stops at the token. *)
Lemma stream_events_file_lacks_run_complete_witness :
  ∃ file e,
    w_sandbox (stream cfg hello (answers (says [104; 105]%N)) fresh_world).2
      !! ("c1", events_path "r3") = Some file
    ∧ List.filter is_run_complete file = []
    ∧ (stream cfg hello (answers (says [104; 105]%N)) fresh_world).1 = EventStream (file ++ [e])
    ∧ is_run_complete e = true.
Proof.
  apply (stream_events_file_lacks_run_complete cfg hello (answers (says [104; 105]%N))
           fresh_world warm_row "c1");
    [reflexivity | reflexivity | reflexivity | discriminate | reflexivity | reflexivity | reflexivity].
Defined.

Example stream_hi_file :
  w_sandbox (stream cfg hello (answers (says [104; 105]%N)) fresh_world).2
    !! ("c1", events_path "r3")
  = Some [Event RunStart (morning + 2) "r3"; Event (Token [104; 105]%N 0) (morning + 3) "r3"].
Proof. vm_compute. reflexivity. Qed.

End EventLogProofs.

(** ** C8: token sequence numbers *)

Module TokenProofs.

Import Scenario.

#[local] Arguments putFile : simpl never.
#[local] Arguments triggerEvidenceBuild : simpl never.
#[local] Arguments update_run : simpl never.
#[local] Arguments update_workspace : simpl never.

Lemma token_sequences_app l1 l2 :
  token_sequences (l1 ++ l2) = token_sequences l1 ++ token_sequences l2.
Proof. unfold token_sequences. apply omap_app. Qed.

Lemma token_sequences_emit_tokens clock runId toks : ∀ i log,
  token_sequences (emit_tokens clock runId i toks log)
  = token_sequences log ++ nonempty_indices i toks.
Proof.
  induction toks as [|t toks IH]; intros i log; simpl.
  - by rewrite app_nil_r.
  - rewrite IH. destruct t as [|c t]; [done|].
    unfold emit. rewrite token_sequences_app. simpl. by rewrite <- app_assoc.
Qed.

Lemma nonempty_indices_lower toks : ∀ i, Forall (λ n, (i ≤ n)%nat) (nonempty_indices i toks).
Proof.
  induction toks as [|t toks IH]; intros i; simpl; [constructor|].
  assert (Forall (λ n, (i ≤ n)%nat) (nonempty_indices (S i) toks)) as Hrest.
  { eapply Forall_impl; [apply IH|]. simpl. lia. }
  destruct t; [done|]. constructor; [lia|done].
Qed.

Lemma nonempty_indices_ascending toks : ∀ i, ascending (nonempty_indices i toks).
Proof.
  induction toks as [|t toks IH]; intros i; simpl; [done|].
  destruct t; [apply IH|]. simpl. split; [|apply IH].
  eapply Forall_impl; [apply nonempty_indices_lower|]. simpl. lia.
Qed.

(** The first piece of a split that starts from a non-empty piece is not
    empty. *)
Lemma split_from_head s : ∀ in_ws cur,
  cur ≠ [] → ∃ p rest, split_from in_ws cur s = p :: rest ∧ p ≠ [].
Proof.
  induction s as [|c s IH]; intros in_ws cur Hcur; simpl.
  - destruct in_ws; eauto.
  - destruct (is_space c), in_ws; eauto; apply IH; by destruct cur.
Qed.

Lemma first_index_of_split c s :
  head (nonempty_indices 0 (split_ws (c :: s))) = Some (if is_space c then 1%nat else 0%nat).
Proof.
  unfold split_ws. simpl. destruct (is_space c); simpl.
  - destruct (split_from_head s true [c]) as (p & rest & -> & Hp); [done|].
    simpl. by destruct p.
  - destruct (split_from_head s false [c]) as (p & rest & -> & Hp); [done|].
    simpl. by destruct p.
Qed.

(** The token events of a streaming reply are numbered by the positions of
    the non-empty pieces of the split text. *)
Lemma stream_token_sequences cfg rq a st frames :
  (stream cfg rq a st).1 = EventStream frames →
  token_sequences frames = []
  ∨ ∃ res, worker_call_stream (ra_attempt a) = inr res
           ∧ token_sequences frames = nonempty_indices 0 (split_ws (finalText res)).
Proof.
  unfold stream.
  destruct (negb _); [discriminate|].
  destruct (find_warm_workspace _ _ _) as [w|]; [|intros [= <-]; by left].
  destruct (ws_container_id w) as [cid|] eqn:Hc; [|intros [= <-]; by left].
  destruct (negb (truthy _)); [intros [= <-]; by left|].
  destruct (existsb _ _); [intros [= <-]; by left|].
  destruct (ra_addr_error a); [intros [= <-]; by left|].
  destruct (worker_call_stream (ra_attempt a)) as [msg|res]; simpl.
  - intros [= <-]. by left.
  - intros [= <-]. right. exists res. split; [done|].
    unfold emit at 1. rewrite token_sequences_app. simpl. rewrite app_nil_r.
    destruct (diff res).
    + by rewrite token_sequences_emit_tokens.
    + unfold emit at 1. rewrite token_sequences_app. simpl. rewrite app_nil_r.
      by rewrite token_sequences_emit_tokens.
Qed.

Lemma unary_token_sequences runId res start finishedAt duration :
  token_sequences (unary_events runId res start finishedAt duration)
  = match finalText res with [] => [] | _ :: _ => [0%nat] end.
Proof. unfold unary_events. by destruct (finalText res), (diff res). Qed.

(** C8, amended. In every run the sequence numbers of the token events are
    strictly increasing. The unary log numbers its one token 0. A streaming
    reply numbers its first token 0, except when the agent's text begins with
    white space: then the first token is numbered 1. *)
Theorem token_sequences_increase cfg rq a st frames n :
  (stream cfg rq a st).1 = EventStream frames →
  head (token_sequences frames) = Some n →
  ascending (token_sequences frames)
  ∧ (∃ res c text,
       worker_call_stream (ra_attempt a) = inr res
       ∧ finalText res = c :: text
       ∧ n = if is_space c then 1%nat else 0%nat)
  ∧ (∀ runId res start finishedAt duration,
       let log := unary_events runId res start finishedAt duration in
       ascending (token_sequences log)
       ∧ (∀ k, head (token_sequences log) = Some k → k = 0%nat)).
Proof.
  intros Hs Hn. destruct (stream_token_sequences _ _ _ _ _ Hs) as [E|(res & Hres & E)];
    rewrite E in Hn |- *; [discriminate|].
  split; [apply nonempty_indices_ascending|]. split.
  - exists res. destruct (finalText res) as [|c text] eqn:Ht; [discriminate|].
    exists c, text. split; [done|]. split; [done|].
    rewrite first_index_of_split in Hn. by injection Hn.
  - intros runId res' start finishedAt duration log. subst log.
    rewrite unary_token_sequences. destruct (finalText res'); simpl.
    + split; [done|]. discriminate.
    + split; [by split|]. by intros k [= <-].
Qed.

Lemma token_sequences_increase_witness :
  ∃ frames,
    (stream cfg hello (answers (says [104; 105; 32; 121; 111; 117]%N)) fresh_world).1
      = EventStream frames
    ∧ token_sequences frames = [0; 1; 2]%nat
    ∧ ascending (token_sequences frames).
Proof.
  eexists. split; [reflexivity|]. split; [reflexivity|].
  apply (token_sequences_increase cfg hello (answers (says [104; 105; 32; 121; 111; 117]%N))
           fresh_world _ 0%nat); reflexivity.
Defined.

(** C8 as stated fails when the text begins with white space: for [" hi"]
    the split gives an empty first piece, which is skipped, and the first
    token event carries sequence 1. *)
Lemma leading_space_starts_at_one :
  ∃ frames,
    (stream cfg hello (answers (says [32; 104; 105]%N)) fresh_world).1 = EventStream frames
    ∧ token_sequences frames = [1; 2]%nat
    ∧ head (token_sequences frames) ≠ Some 0%nat.
Proof. eexists. split; [reflexivity|]. split; [reflexivity|]. discriminate. Qed.

End TokenProofs.

(** ** C5: the timeout of the agent call *)

Module TimeoutProofs.

Import Scenario.

#[local] Arguments putFile : simpl never.
#[local] Arguments triggerEvidenceBuild : simpl never.
#[local] Arguments update_where : simpl never.

(** C5, amended. When the agent call of a streaming run is cut by the
    handler's abort timer (set to 10 s), so that the retry loop ends on an
    [AbortError] with message [m], the Run row inserted for the run is
    updated to status [failed], with [error_message = m] and with
    [finished_at] and [duration_ms] set, and the other Run rows are as they
    were. The status [timeout] is not written. *)
Theorem abort_marks_run_failed cfg rq a st w cid m :
  Quota.checkQuota (cfg_max_runs cfg) (ra_quota_now a) (w_db st) (rq_user rq) = true →
  find_warm_workspace (w_db st) (rq_user rq) (rq_id rq) = Some w →
  ws_container_id w = Some cid → cid ≠ EmptyString →
  existsb (λ r, bool_decide (run_id r = ra_run_id a)) (runs (w_db st)) = false →
  ra_addr_error a = None →
  fetch_retry (ra_attempt a) 15 0 = Some (Rejected "AbortError" m) →
  ∃ r, runs (w_db (stream cfg rq a st).2) = runs (w_db st) ++ [r]
       ∧ run_id r = ra_run_id a
       ∧ run_status_of r = failed
       ∧ run_error_message r = Some m
       ∧ run_finished_at r = Some (ra_finished_at a)
       ∧ run_duration_ms r = Some (ra_done a - ra_start a).
Proof.
  intros Hq Hw Hc Hne Hfresh Haddr Habort. unfold stream, worker_call_stream.
  rewrite Hq, Hw, Hc, Hfresh, Haddr, Habort. simpl.
  rewrite bool_decide_eq_false_2 by done. simpl.
  rewrite runs_trigger, runs_putFile. simpl.
  rewrite update_where_app, update_where_none by done.
  unfold update_where. simpl. rewrite bool_decide_eq_true_2 by done.
  eexists. split; [reflexivity|]. done.
Qed.

Lemma abort_marks_run_failed_witness :
  ∃ r, runs (w_db (stream cfg hello (answers aborted) fresh_world).2) = [] ++ [r]
       ∧ run_id r = "r3"
       ∧ run_status_of r = failed
       ∧ run_error_message r = Some "This operation was aborted"
       ∧ run_finished_at r = Some (morning + 50)
       ∧ run_duration_ms r = Some (morning + 51 - (morning + 1)).
Proof.
  apply (abort_marks_run_failed cfg hello (answers aborted) fresh_world warm_row "c1");
    [reflexivity | reflexivity | reflexivity | discriminate | reflexivity | reflexivity | reflexivity].
Defined.

(** C5 as stated fails: the aborted streaming run of the fresh world ends
    with its Run row [failed], not [timeout]. *)
Lemma abort_is_not_recorded_as_timeout :
  fetch_retry (ra_attempt (answers aborted)) 15 0 = Some aborted
  ∧ run_status_of <$> runs (w_db (stream cfg hello (answers aborted) fresh_world).2) = [failed]
  ∧ ¬ (∃ r, r ∈ runs (w_db (stream cfg hello (answers aborted) fresh_world).2)
            ∧ run_status_of r = timeout).
Proof.
  split; [reflexivity|]. split; [reflexivity|].
  intros (r & Hr & Hs). vm_compute in Hr.
  apply list_elem_of_singleton in Hr. subst r. discriminate Hs.
Qed.

End TimeoutProofs.

(** ** C10: the staging directory of the evidence builder *)

Module BuilderProofs.

Import EvidenceBuilder Scenario.

Lemma ancestors_prefix (p q : path) : p ∈ ancestors (p ++ q).
Proof.
  induction p as [|c p IH]; simpl.
  - destruct q; simpl; apply list_elem_of_here.
  - apply list_elem_of_further, list_elem_of_fmap. eauto.
Qed.

Lemma temp_in_mkdir root runId fs :
  tempDir root runId ∈ mkdir_p (bundleDir root runId) (mkdir_p (extractDir root runId) fs).
Proof.
  unfold mkdir_p, extractDir. apply elem_of_union_r, elem_of_union_l.
  apply elem_of_list_to_set, ancestors_prefix.
Qed.

Lemma rm_rf_gone (p : path) fs : p ∉ rm_rf p fs.
Proof. unfold rm_rf. intros [H _]%elem_of_filter. by apply H. Qed.

Lemma fs_update_bundle runId f st : w_fs (update_bundle runId f st) = w_fs st.
Proof. done. Qed.

Lemma fs_on_error runId a e st : w_fs (on_error runId a e st) = w_fs st.
Proof. done. Qed.

(** A build that fails after the staging directory was made leaves it. *)
Lemma assemble_failure_keeps_temp root runId r a st e st' :
  assemble root runId r a st = (inl e, st') → tempDir root runId ∈ w_fs st'.
Proof.
  unfold assemble.
  pose proof (temp_in_mkdir root runId
    (if existsSync (tempDir root runId) (w_fs st)
     then rm_rf (tempDir root runId) (w_fs st) else w_fs st)) as Htemp.
  destruct (ba_archive a); [intros [= _ <-]; done|].
  destruct (ba_untar a); [intros [= _ <-]; simpl; unfold writeFile; set_solver|].
  destruct (ba_items a) as [|[name [below|]] items].
  - destruct (ba_zip a); [intros [= _ <-]; simpl; unfold writeFile; destruct (truthy_text _); set_solver|].
    discriminate.
  - destruct (ba_zip a); [intros [= _ <-]; simpl; unfold writeFile; destruct (truthy_text _); set_solver|].
    discriminate.
  - destruct (ba_copy a); [intros [= _ <-]; simpl; unfold writeFile; set_solver|].
    destruct (ba_zip a); [intros [= _ <-]; simpl; unfold writeFile; destruct (truthy_text _); set_solver|].
    discriminate.
Qed.

(** A build that goes through removes it. *)
Lemma assemble_success_removes_temp root runId r a st st' :
  assemble root runId r a st = (inr (), st') → tempDir root runId ∉ w_fs st'.
Proof.
  unfold assemble.
  destruct (ba_archive a); [discriminate|].
  destruct (ba_untar a); [discriminate|].
  destruct (ba_items a) as [|[name [below|]] items].
  - destruct (ba_zip a); [discriminate|]. intros [= <-]. apply rm_rf_gone.
  - destruct (ba_zip a); [discriminate|]. intros [= <-]. apply rm_rf_gone.
  - destruct (ba_copy a); [discriminate|].
    destruct (ba_zip a); [discriminate|]. intros [= <-]. apply rm_rf_gone.
Qed.

Lemma marked_error runId m now rows b :
  b ∈ update_where (for_run runId) (mark_error m now) rows →
  eb_run_id b = runId → eb_status b = bundle_error.
Proof.
  unfold update_where. intros (b0 & -> & Hb0)%list_elem_of_fmap.
  unfold for_run. case_bool_decide; simpl; [done|]. intros; congruence.
Qed.

(** C10 fails on the error path. When a step of the build throws after the
    staging directory [<EVIDENCE_ROOT>/temp/<run_id>] has been created, the
    builder returns with the bundle marked [error] and the directory still
    there: the [catch] block updates the row and removes nothing. *)
Theorem failed_build_leaves_temp_dir root runId a st r ws e st' :
  take_first (λ r, bool_decide (run_id r = runId)) (runs (w_db st)) = Some r →
  take_first (has_id (run_workspace_id r)) (workspaces (w_db st)) = Some ws →
  truthy (ws_container_id ws) = true →
  assemble root runId r a st = (inl e, st') →
  tempDir root runId ∈ w_fs (buildBundle root runId a st)
  ∧ (∀ b, b ∈ evidence_bundles (w_db (buildBundle root runId a st)) →
          eb_run_id b = runId → eb_status b = bundle_error).
Proof.
  intros Hr Hws Hc Ha. unfold buildBundle. rewrite Hr, Hws, Hc, Ha. split.
  - rewrite fs_on_error. by eapply assemble_failure_keeps_temp.
  - intros b Hb. eapply marked_error. exact Hb.
Qed.

Lemma failed_build_leaves_temp_dir_witness :
  tempDir ["evidence"] "r3" ∈ w_fs (buildBundle ["evidence"] "r3" no_archive after_run)
  ∧ (∀ b, b ∈ evidence_bundles (w_db (buildBundle ["evidence"] "r3" no_archive after_run)) →
          eb_run_id b = "r3" → eb_status b = bundle_error).
Proof.
  eapply (failed_build_leaves_temp_dir ["evidence"] "r3" no_archive after_run);
    reflexivity.
Defined.

(** The success path does clean up. *)
Lemma successful_build_removes_temp_dir root runId a st r ws st' :
  take_first (λ r, bool_decide (run_id r = runId)) (runs (w_db st)) = Some r →
  take_first (has_id (run_workspace_id r)) (workspaces (w_db st)) = Some ws →
  truthy (ws_container_id ws) = true →
  assemble root runId r a st = (inr (), st') →
  tempDir root runId ∉ w_fs (buildBundle root runId a st).
Proof.
  intros Hr Hws Hc Ha. unfold buildBundle. rewrite Hr, Hws, Hc, Ha.
  by eapply assemble_success_removes_temp.
Qed.

Example failed_build_status :
  eb_status <$> evidence_bundles (w_db (buildBundle ["evidence"] "r3" no_archive after_run))
  = [bundle_error]
  ∧ eb_status <$> evidence_bundles (w_db (buildBundle ["evidence"] "r3" all_fine after_run))
  = [ready].
Proof. split; reflexivity. Qed.

End BuilderProofs.

(** ** C6: Open when the sandbox fails *)

Module OpenFailureProofs.

Import Scenario.

Lemma create_failure image pid url key env a t cid :
  dk_create a = Some cid →
  dk_start a = false ∨ dk_inspect a = None ∨ dk_clone a = false →
  ∃ t', createWarmWorkspace image pid url key env a t
        = (inl (dk_error a), t' ++ [ContainerStop cid; ContainerRemove cid]).
Proof.
  intros Hc Hfail. unfold createWarmWorkspace, cleanup. rewrite Hc.
  destruct (dk_start a); simpl; [|eauto].
  destruct (dk_inspect a) as [[name digest]|]; [|eauto].
  destruct (dk_clone a); simpl; [|eauto].
  destruct Hfail as [?|[?|?]]; discriminate.
Qed.

(** The LRU pass does not touch the row being opened. *)
Lemma evict_keeps_target user id st :
  NoDup (ws_id <$> workspaces (w_db st)) →
  find_workspace (w_db (evict (otherWarmWorkspaces (w_db st) user id) st)) user id
  = find_workspace (w_db st) user id.
Proof.
  intros Hnd. unfold find_workspace, take_first, select_where. f_equal.
  rewrite evict_workspaces, (update_each_spec mark_cold mark_cold_id mark_cold_idem).
  apply filter_fmap_fixed.
  - intros w _. by destruct (hit _ w).
  - intros w Hw Hq. destruct (hit _ w) eqn:Hhit; [|done]. exfalso.
    apply existsb_exists in Hhit as (i & Hi & Hid).
    apply in_map_iff in Hi as ([i' c] & <- & Hi).
    apply in_map_iff in Hi as (w' & [= <- <-] & Hw').
    apply filter_In in Hw' as [Hw' Hother]. apply list_elem_of_In in Hw'.
    unfold has_id in Hid. apply bool_decide_eq_true in Hid.
    assert (w = w') as <- by by eapply ids_determine_rows.
    unfold is_other_warm in Hother.
    apply andb_prop in Hq as [Hp _]. rewrite Hp in Hother. simpl in Hother.
    by rewrite andb_false_r in Hother.
Qed.

Lemma evict_docker_db_projects others st :
  projects (w_db (evict others st)) = projects (w_db st).
Proof.
  unfold evict. revert st. induction others as [|o others IH]; intros st; simpl; [done|].
  rewrite IH. unfold evict_one. by repeat case_match.
Qed.

(** C6, amended. When, during Open, Docker creates the container [cid] and
    then the start, the inspection or the clone fails, [createWarmWorkspace]
    stops and removes [cid] and rethrows; Open answers 500 "Failed to open
    workspace", and the target row is what it was before the request (no
    row if there was none). No row is put in state [error]: a row in that
    state after the request was the same before. *)
Theorem failed_open_leaves_row cfg user id a st p cid :
  NoDup (ws_id <$> workspaces (w_db st)) →
  find_project (w_db st) user id = Some p →
  (∀ w, find_workspace (w_db st) user id = Some w →
        bool_decide (ws_state w = warm) && truthy (ws_container_id w) = false) →
  dk_create (oa_docker a) = Some cid →
  dk_start (oa_docker a) = false ∨ dk_inspect (oa_docker a) = None
    ∨ dk_clone (oa_docker a) = false →
  (open cfg user id a st).1 = HttpError 500 "Failed to open workspace"
  ∧ find_workspace (w_db (open cfg user id a st).2) user id = find_workspace (w_db st) user id
  ∧ (∃ t, w_docker (open cfg user id a st).2 = t ++ [ContainerStop cid; ContainerRemove cid])
  ∧ (∀ w', w' ∈ workspaces (w_db (open cfg user id a st).2) → ws_state w' = error →
           w' ∈ workspaces (w_db st)).
Proof.
  intros Hnd Hp Hcold Hc Hfail. unfold open. rewrite Hp.
  set (st1 := evict _ st).
  assert (∃ t, warm_up cfg user id (pr_repo_url p) (find_workspace (w_db st) user id) a st1
               = (failed_to_open, with_docker st1 (t ++ [ContainerStop cid; ContainerRemove cid])))
    as (t & ->).
  { unfold warm_up. destruct (find_workspace (w_db st) user id) as [w|] eqn:Hw.
    - rewrite (Hcold w eq_refl).
      edestruct create_failure as (t & ->); [exact Hc | exact Hfail |]. eauto.
    - edestruct create_failure as (t & ->); [exact Hc | exact Hfail |]. eauto. }
  simpl. split; [done|]. split; [by apply evict_keeps_target|]. split; [eauto|].
  intros w' Hw' Herr. subst st1. rewrite evict_workspaces in Hw'.
  rewrite (update_each_spec mark_cold mark_cold_id mark_cold_idem) in Hw'.
  apply list_elem_of_fmap in Hw' as (w & -> & Hw).
  destruct (hit _ w); [discriminate Herr | done].
Qed.

Lemma failed_open_leaves_row_witness :
  (open cfg "u1" "p1" (opening (clone_fails "c2") "w9") sleeping_world).1
    = HttpError 500 "Failed to open workspace"
  ∧ find_workspace (w_db (open cfg "u1" "p1" (opening (clone_fails "c2") "w9") sleeping_world).2)
      "u1" "p1" = Some cold_row.
Proof.
  destruct (failed_open_leaves_row cfg "u1" "p1" (opening (clone_fails "c2") "w9") sleeping_world
              (Project "p1" "u1" "demo" "https://github.com/octocat/Hello-World.git") "c2")
    as (Hr & Hw & _).
  - vm_compute. apply NoDup_singleton.
  - reflexivity.
  - intros w [= <-]. reflexivity.
  - reflexivity.
  - right. right. reflexivity.
  - split; [exact Hr|]. rewrite Hw. reflexivity.
Defined.

(** C6 as stated fails: after a start failure, and after a clone failure,
    on the sleeping workspace of [p1] the row is still [cold], not [error];
    and when there was no row, none is created. *)
Lemma failed_open_does_not_mark_error :
  ws_state <$> workspaces (w_db (open cfg "u1" "p1" (opening (start_fails "c2") "w9") sleeping_world).2)
    = [cold]
  ∧ ws_state <$> workspaces (w_db (open cfg "u1" "p1" (opening (clone_fails "c2") "w9") sleeping_world).2)
    = [cold]
  ∧ workspaces (w_db (open cfg "u1" "p1" (opening (start_fails "c2") "w9") unopened_world).2) = []
  ∧ ¬ (∃ w, w ∈ workspaces (w_db (open cfg "u1" "p1" (opening (start_fails "c2") "w9") sleeping_world).2)
            ∧ ws_state w = error).
Proof.
  split; [reflexivity|]. split; [reflexivity|]. split; [reflexivity|].
  intros (w & Hw & Hs). vm_compute in Hw. apply list_elem_of_singleton in Hw.
  subst w. discriminate Hs.
Qed.

End OpenFailureProofs.

(** ** C9: the volume name *)

Module VolumeProofs.

Import Scenario.

#[local] Arguments putFile : simpl never.
#[local] Arguments triggerEvidenceBuild : simpl never.
#[local] Arguments update_where : simpl never.

Lemma create_volume image pid url key env a t r t' :
  createWarmWorkspace image pid url key env a t = (inr r, t') →
  volumeName r = "ws-" +:+ pid.
Proof.
  unfold createWarmWorkspace. repeat case_match; intros; simplify_eq. done.
Qed.

Lemma warm_up_same_volume cfg user id url workspace a st :
  continues same_volume (workspaces (w_db st))
            (workspaces (w_db (warm_up cfg user id url workspace a st).2)).
Proof.
  unfold warm_up. repeat case_match; simpl;
    try apply (continues_refl _ same_volume_refl);
    try apply (continues_app _ same_volume_refl).
  by apply (continues_update _ same_volume_refl).
Qed.

Lemma open_same_volume cfg user id a st :
  continues same_volume (workspaces (w_db st)) (workspaces (w_db (open cfg user id a st).2)).
Proof.
  unfold open. case_match; [|apply (continues_refl _ same_volume_refl)].
  eapply (continues_trans _ same_volume_trans); [|apply warm_up_same_volume].
  rewrite evict_workspaces.
  by apply (continues_update_each _ same_volume_refl same_volume_trans).
Qed.

Lemma message_same_volume cfg rq a st :
  continues same_volume (workspaces (w_db st)) (workspaces (w_db (message cfg rq a st).2)).
Proof.
  unfold message. repeat case_match; simpl;
    rewrite ?workspaces_trigger, ?workspaces_putFile; simpl;
    rewrite ?workspaces_putFile; simpl;
    try apply (continues_refl _ same_volume_refl).
  by apply (continues_update _ same_volume_refl).
Qed.

Lemma stream_same_volume cfg rq a st :
  continues same_volume (workspaces (w_db st)) (workspaces (w_db (stream cfg rq a st).2)).
Proof.
  unfold stream. repeat case_match; simpl;
    rewrite ?workspaces_trigger, ?workspaces_putFile; simpl;
    rewrite ?workspaces_putFile; simpl;
    try apply (continues_refl _ same_volume_refl).
  all: by apply (continues_update _ same_volume_refl).
Qed.

(** No request and no sweep rewrites the volume name of a row, except the
    retention sweep at the moment it marks the row [deleted]. *)
Lemma exec_op_keeps_volume cfg o st :
  continues same_volume_or_deleted (workspaces (w_db st)) (workspaces (w_db (exec_op cfg st o))).
Proof.
  destruct o; simpl.
  - unfold createProject. case_match; apply (continues_refl _ same_volume_or_deleted_refl).
  - apply same_volume_weaken, open_same_volume.
  - apply same_volume_weaken, message_same_volume.
  - apply same_volume_weaken, stream_same_volume.
  - apply same_volume_weaken. unfold IdleReaper.reapIdleWorkspaces.
    rewrite reap_fold_workspaces.
    by apply (continues_update_each _ same_volume_refl same_volume_trans).
  - unfold GC.runWorkspaceGC. rewrite gc_workspaces.
    set (ids := fst <$> _). rewrite (update_each_spec GC.mark_deleted) by done.
    intros k w Hk. rewrite list_lookup_fmap, Hk. simpl. eexists. split; [done|].
    destruct (hit ids w); [|apply same_volume_or_deleted_refl].
    split; [done|]. right. done.
  - unfold GC.runEvidenceGC. rewrite gc_bundle_workspaces.
    apply (continues_refl _ same_volume_or_deleted_refl).
  - rewrite build_workspaces. apply (continues_refl _ same_volume_or_deleted_refl).
Qed.

(** C9, amended. When Open creates the workspace row of project [id], the
    new row is [warm] and its [volume_name] is ["ws-"] followed by the id of
    the project (not of the workspace, whose id Postgres generates at the
    insert). After that, every request and every sweep leaves the
    [volume_name] of a row as it finds it, except the retention sweep when
    it takes the row to [deleted] and sets the name to null. *)
Theorem open_names_volume_after_project cfg user id a st p i s :
  find_project (w_db st) user id = Some p →
  find_workspace (w_db st) user id = None →
  (open cfg user id a st).1 = Opened i s →
  (∃ row before,
     workspaces (w_db (open cfg user id a st).2) = before ++ [row]
     ∧ continues same_volume (workspaces (w_db st)) before
     ∧ ws_id row = i ∧ i = oa_new_id a
     ∧ ws_user_id row = user ∧ ws_project_id row = id
     ∧ ws_state row = warm
     ∧ ws_volume_name row = Some ("ws-" +:+ id))
  ∧ (∀ o st0 k w,
       workspaces (w_db st0) !! k = Some w →
       ∃ w', workspaces (w_db (exec_op cfg st0 o)) !! k = Some w'
             ∧ ws_id w' = ws_id w
             ∧ (ws_volume_name w' = ws_volume_name w
                ∨ ws_state w' = deleted ∧ ws_volume_name w' = None)).
Proof.
  intros Hp Hw Hopen. split.
  - revert Hopen. unfold open. rewrite Hp, Hw. unfold warm_up.
    destruct (createWarmWorkspace _ _ _ _ _ _ _) as [[e|r] t] eqn:Hcreate; [discriminate|].
    destruct (existsb _ _); [discriminate|]. simpl. intros [= <- <-].
    eexists _, _. split; [reflexivity|]. split.
    + rewrite evict_workspaces.
      by apply (continues_update_each _ same_volume_refl same_volume_trans).
    + repeat split. simpl. f_equal. by eapply create_volume.
  - intros o st0 k w Hk. apply (exec_op_keeps_volume cfg o st0 k w Hk).
Qed.

Lemma open_names_volume_after_project_witness :
  ∃ row before,
    workspaces (w_db (open cfg "u1" "p1" (opening (docker_fine "c1") "w9") unopened_world).2)
      = before ++ [row]
    ∧ continues same_volume (workspaces (w_db unopened_world)) before
    ∧ ws_id row = "w9" ∧ "w9" = "w9"
    ∧ ws_user_id row = "u1" ∧ ws_project_id row = "p1"
    ∧ ws_state row = warm
    ∧ ws_volume_name row = Some "ws-p1".
Proof.
  apply (open_names_volume_after_project cfg "u1" "p1" (opening (docker_fine "c1") "w9")
           unopened_world
           (Project "p1" "u1" "demo" "https://github.com/octocat/Hello-World.git") "w9" warm);
    reflexivity.
Defined.

(** C9 as stated fails: Postgres names the new workspace [w9], and its
    volume is [ws-p1], after the project, not [ws-w9]. *)
Lemma volume_is_not_named_after_workspace :
  (open cfg "u1" "p1" (opening (docker_fine "c1") "w9") unopened_world).1 = Opened "w9" warm
  ∧ (λ w, (ws_id w, ws_state w, ws_volume_name w))
      <$> workspaces (w_db (open cfg "u1" "p1" (opening (docker_fine "c1") "w9") unopened_world).2)
    = [("w9", warm, Some "ws-p1")]
  ∧ Some "ws-p1" ≠ Some ("ws-" +:+ "w9").
Proof. split; [reflexivity|]. split; [reflexivity|]. discriminate. Qed.

End VolumeProofs.

(** ** C3: the per-key lock *)

Module LockProofs.

Import LockManager LockInv.

#[local] Open Scope nat_scope.
#[local] Set Warnings "-clear-no-such-hyp".

Lemma fulfilled_mono (c c' : gset nat) p :
  c ⊆ c' → fulfilled c p = true → fulfilled c' p = true.
Proof.
  intros Hsub. induction p as [|m IH k]; simpl; [done|].
  intros [Hm Hk]%andb_prop. rewrite IH by done. simpl.
  apply bool_decide_eq_true. apply bool_decide_eq_true in Hk. set_solver.
Qed.

(** Once the promise a task awaits is fulfilled, every earlier task of the
    same key is through. *)
Lemma fulfilled_prior s : holds s → ∀ j tj,
  tasks s !! j = Some tj → fulfilled (completed s) (t_mutex tj) = true →
  ∀ i ti, i < j → tasks s !! i = Some ti → t_key ti = t_key tj → t_phase ti = Done.
Proof.
  intros Hs j. induction j as [j IH] using lt_wf_ind. intros tj Hj Hful i ti Hij Hi Hkey.
  destruct (inv_chain s Hs j tj Hj) as [[_ Hall]|(i0 & t0 & Hi0 & Ht0 & Hk0 & Hm & Hgap)].
  - by eapply Hall.
  - rewrite Hm, (inv_new s Hs i0 t0 Ht0) in Hful. simpl in Hful.
    apply andb_prop in Hful as [Hful0 Hdone0]. apply bool_decide_eq_true in Hdone0.
    destruct (lt_eq_lt_dec i i0) as [[Hlt| ->]|Hgt].
    + eapply (IH i0 Hi0 t0 Ht0 Hful0 i ti Hlt Hi). congruence.
    + assert (ti = t0) as -> by congruence. by apply (inv_done s Hs i0 t0 Ht0).
    + exfalso. by apply (Hgap i ti ltac:(lia) Hi).
Qed.

(** First in, first out: a task that has entered [fn] has seen every earlier
    task of its key leave. *)
Lemma fifo s : holds s → ∀ i j ti tj,
  tasks s !! i = Some ti → tasks s !! j = Some tj → t_key ti = t_key tj →
  i < j → t_phase tj ≠ Waiting → t_phase ti = Done.
Proof.
  intros Hs i j ti tj Hi Hj Hkey Hij Hph.
  eapply (fulfilled_prior s Hs j tj Hj); eauto. by eapply inv_entered.
Qed.

Lemma holds_init : holds init.
Proof.
  split; simpl; try (intros; simplify_eq; done).
  intros i Hi. set_solver.
Qed.

(** The tasks after a phase change of task [i]. *)
Lemma lookup_set_phase (ts : list task) i t ph j :
  ts !! i = Some t →
  <[i := set_phase ph t]> ts !! j
  = (λ tj, if decide (j = i) then set_phase ph tj else tj) <$> ts !! j.
Proof.
  intros Hi. destruct (decide (j = i)) as [->|Hne].
  - rewrite list_lookup_insert_eq by by eapply lookup_lt_Some. by rewrite Hi.
  - rewrite list_lookup_insert_ne by done. by destruct (ts !! j).
Qed.

Lemma lookup_set_phase_Some (ts : list task) i t ph j tj' :
  ts !! i = Some t →
  <[i := set_phase ph t]> ts !! j = Some tj' →
  ∃ tj, ts !! j = Some tj ∧ t_key tj' = t_key tj ∧ t_mutex tj' = t_mutex tj
        ∧ t_newMutex tj' = t_newMutex tj
        ∧ (j ≠ i → tj' = tj) ∧ (j = i → tj = t ∧ t_phase tj' = ph).
Proof.
  intros Hi. rewrite (lookup_set_phase ts i t ph j Hi).
  destruct (ts !! j) as [tj|] eqn:Hj; [|done]. simpl. intros [= <-]. exists tj.
  destruct (decide (j = i)) as [->|Hne]; simpl; repeat split; try done.
  congruence.
Qed.

Lemma lookup_set_phase_fwd (ts : list task) i t ph j tj :
  ts !! i = Some t → ts !! j = Some tj →
  ∃ tj', <[i := set_phase ph t]> ts !! j = Some tj' ∧ t_key tj' = t_key tj
         ∧ t_mutex tj' = t_mutex tj ∧ t_newMutex tj' = t_newMutex tj
         ∧ (j ≠ i → tj' = tj) ∧ (j = i → tj = t ∧ t_phase tj' = ph).
Proof.
  intros Hi Hj. rewrite (lookup_set_phase ts i t ph j Hi), Hj. simpl. eexists. split; [done|].
  destruct (decide (j = i)) as [->|Hne]; simpl; repeat split; try done. congruence.
Qed.

Lemma holds_call s key s' : holds s → step s (Call key) = Some s' → holds s'.
Proof.
  intros Hs [= <-]. set (n := length (tasks s)).
  split; simpl.
  - intros i t [[Hlt Hi]|[-> <-]]%lookup_snoc_Some; [by eapply inv_new|done].
  - intros i t [[Hlt Hi]|[-> <-]]%lookup_snoc_Some; [by eapply inv_done|].
    simpl. split; [done|]. intros Hc%(inv_completed s Hs). lia.
  - intros i Hi%(inv_completed s Hs). rewrite length_app. simpl. lia.
  - intros key' p. destruct (decide (key = key')) as [<-|Hne].
    + rewrite lookup_insert_eq. intros [= <-]. eexists n, _.
      split; [apply lookup_snoc_Some; right; done|]. split; [done|]. split; [done|].
      intros j tj Hj%lookup_lt_Some _. rewrite length_app in Hj. simpl in Hj. lia.
    + rewrite lookup_insert_ne by done. intros Hp.
      destruct (inv_map s Hs key' p Hp) as (i & t & Hi & Hk & Hpn & Hlast). exists i, t.
      split; [apply lookup_snoc_Some; left; split; [by eapply lookup_lt_Some|done]|].
      repeat split; try done.
      intros j tj [[_ Hj]|[-> <-]]%lookup_snoc_Some Hkj; [by eapply Hlast|]. done.
  - intros key' Hnone i t Hi Hk. destruct (decide (key = key')) as [<-|Hne];
      [by rewrite lookup_insert_eq in Hnone|].
    rewrite lookup_insert_ne in Hnone by done.
    apply lookup_snoc_Some in Hi as [[_ Hi]|[-> <-]]; [by eapply inv_nomap|]. done.
  - intros j tj [[Hlt Hj]|[-> <-]]%lookup_snoc_Some.
    + destruct (inv_chain s Hs j tj Hj) as [[Hm Hall]|(i0 & t0 & Hi0 & Ht0 & Hk0 & Hm & Hgap)].
      * left. split; [done|]. intros i ti Hij Hi Hk.
        apply lookup_snoc_Some in Hi as [[_ Hi]|[-> _]]; [by eapply Hall|lia].
      * right. exists i0, t0. split; [done|].
        split; [apply lookup_snoc_Some; left; split; [lia|done]|]. repeat split; try done.
        intros k tk Hk Htk.
        apply lookup_snoc_Some in Htk as [[_ Htk]|[-> _]]; [by eapply Hgap|lia].
    + simpl. destruct (mutexes s !! key) as [p|] eqn:Hp; simpl.
      * right. destruct (inv_map s Hs key p Hp) as (i & t & Hi & Hk & Hpn & Hlast).
        exists i, t. split; [by eapply lookup_lt_Some|].
        split; [apply lookup_snoc_Some; left; split; [by eapply lookup_lt_Some|done]|].
        split; [done|]. split; [done|]. intros k tk Hk' Htk Hkey.
        apply lookup_snoc_Some in Htk as [[_ Htk]|[-> _]]; [|lia].
        specialize (Hlast k tk Htk Hkey). lia.
      * left. split; [done|]. intros i ti Hi Hti Hk.
        apply lookup_snoc_Some in Hti as [[_ Hti]|[-> _]]; [|lia]. by eapply inv_nomap.
  - intros j tj [[Hlt Hj]|[-> <-]]%lookup_snoc_Some Hph; [by eapply inv_entered|]. done.
  - intros r Hr. destruct (inv_rows s Hs r Hr) as (t & Ht & Hk & Hph). exists t.
    split; [apply lookup_snoc_Some; left; split; [by eapply lookup_lt_Some|done]|done].
  - apply (inv_rows_order s Hs).
Qed.

(** A task moves on. The three steps that do this differ in what else they
    touch: [Finish] resolves the signal and may drop the key, [Insert] adds
    a row. *)
Lemma holds_phase s i t ph c' m' rows' :
  holds s → tasks s !! i = Some t → t_phase t ≠ Done → ph ≠ Waiting →
  (t_phase t = Waiting → fulfilled (completed s) (t_mutex t) = true) →
  (ph ≠ Done ∧ c' = completed s ∨ ph = Done ∧ c' = {[i]} ∪ completed s) →
  (m' = mutexes s
   ∨ ph = Done ∧ t_phase t ≠ Waiting ∧ mutexes s !! t_key t = Some (t_newMutex t)
     ∧ m' = delete (t_key t) (mutexes s)) →
  (rows' = rows s ∧ (t_phase t = Holding true → ph = Done)
   ∨ ∃ now, rows' = rows s ++ [RunRow i (t_key t) now]
            ∧ t_phase t = Holding false ∧ ph = Holding true) →
  holds (State m' c' (<[i := set_phase ph t]> (tasks s)) rows').
Proof.
  intros Hs Hi Hnd Hnw Hful Hc Hm Hrows.
  assert (completed s ⊆ c') as Hsub by (destruct Hc as [[_ ->]|[_ ->]]; set_solver).
  assert (∀ j tj tj', tasks s !! j = Some tj →
            <[i := set_phase ph t]> (tasks s) !! j = Some tj' →
            t_phase tj = Done → t_phase tj' = Done) as Hstay.
  { intros j tj tj' Hj (tj0 & Hj0 & _ & _ & _ & Hne & Heq)%(lookup_set_phase_Some _ _ _ _ _ _ Hi) Hd.
    assert (tj0 = tj) as -> by congruence.
    destruct (decide (j = i)) as [->|Hji]; [|by rewrite Hne].
    destruct (Heq eq_refl) as [-> _]. done. }
  split; simpl.
  - intros j tj' (tj & Hj & Hk & Hmu & Hn & _)%(lookup_set_phase_Some _ _ _ _ _ _ Hi).
    rewrite Hmu, Hn. by eapply inv_new.
  - intros j tj' (tj & Hj & _ & _ & _ & Hne & Heq)%(lookup_set_phase_Some _ _ _ _ _ _ Hi).
    destruct (decide (j = i)) as [->|Hji].
    + destruct (Heq eq_refl) as [-> ->].
      pose proof (inv_done s Hs i t Hi) as Hd.
      destruct Hc as [[Hp ->]|[-> ->]]; [|set_solver]. split; [done|]. intros ?. by apply Hd in H.
    + rewrite (Hne Hji). rewrite (inv_done s Hs j tj Hj).
      destruct Hc as [[_ ->]|[_ ->]]; set_solver.
  - intros j Hj. rewrite length_insert.
    destruct Hc as [[_ ->]|[_ ->]]; [by apply (inv_completed s Hs)|].
    apply elem_of_union in Hj as [->%elem_of_singleton|Hj];
      [by eapply lookup_lt_Some | by apply (inv_completed s Hs)].
  - intros key p Hp.
    assert (mutexes s !! key = Some p) as Hp0.
    { destruct Hm as [->|(_ & _ & _ & ->)]; [done|]. by apply lookup_delete_Some in Hp as [_ ?]. }
    destruct (inv_map s Hs key p Hp0) as (i0 & t0 & Hi0 & Hk0 & Hpn & Hlast).
    destruct (lookup_set_phase_fwd _ i t ph i0 t0 Hi Hi0) as (t0' & Ht0' & Hk' & _ & Hn' & _).
    exists i0, t0'. split; [done|]. split; [congruence|]. split; [congruence|].
    intros j tj' (tj & Hj & Hk & _)%(lookup_set_phase_Some _ _ _ _ _ _ Hi) Hkey.
    eapply Hlast; [done|congruence].
  - intros key Hnone j tj' Hj' Hkey.
    destruct (lookup_set_phase_Some _ _ _ _ _ _ Hi Hj') as (tj & Hj & Hk & _ & _ & Hne & Heq).
    destruct (mutexes s !! key) as [p|] eqn:Hold.
    + destruct Hm as [->|(-> & Hnw' & Hmap & ->)]; [congruence|].
      apply lookup_delete_None in Hnone as [<-|Hnone]; [|congruence].
      destruct (inv_map s Hs _ _ Hmap) as (i0 & t0 & Hi0 & Hk0 & Hpn & Hlast).
      rewrite (inv_new s Hs i t Hi), (inv_new s Hs i0 t0 Hi0) in Hpn.
      injection Hpn as _ <-.
      destruct (decide (j = i)) as [->|Hji]; [by destruct (Heq eq_refl)|].
      rewrite (Hne Hji). eapply (fifo s Hs j i tj t); eauto; [congruence|].
      assert (j ≤ i) by (eapply Hlast; [done|congruence]). lia.
    + eapply Hstay; [done|done|]. eapply (inv_nomap s Hs key Hold); [done|congruence].
  - intros j tj' Hj'.
    destruct (lookup_set_phase_Some _ _ _ _ _ _ Hi Hj') as (tj & Hj & Hk & Hmu & _).
    destruct (inv_chain s Hs j tj Hj) as [[Hr Hall]|(i0 & t0 & Hi0 & Ht0 & Hk0 & Hm0 & Hgap)].
    + left. split; [congruence|]. intros i1 t1' Hlt Ht1' Hk1.
      destruct (lookup_set_phase_Some _ _ _ _ _ _ Hi Ht1') as (t1 & Ht1 & Hk1' & _).
      eapply Hstay; [done|done|]. eapply Hall; [done|done|congruence].
    + right.
      destruct (lookup_set_phase_fwd _ i t ph i0 t0 Hi Ht0) as (t0' & Ht0' & Hk' & _ & Hn' & _).
      exists i0, t0'. split; [done|]. split; [done|]. split; [congruence|]. split; [congruence|].
      intros k tk' Hik Htk' Hkk.
      destruct (lookup_set_phase_Some _ _ _ _ _ _ Hi Htk') as (tk & Htk & Hkk' & _).
      eapply Hgap; [done|done|congruence].
  - intros j tj' Hj' Hph.
    destruct (lookup_set_phase_Some _ _ _ _ _ _ Hi Hj') as (tj & Hj & _ & Hmu & _ & Hne & Heq).
    rewrite Hmu. eapply fulfilled_mono; [done|].
    destruct (decide (j = i)) as [->|Hji].
    + destruct (Heq eq_refl) as [-> _].
      destruct (decide (t_phase t = Waiting)); [by apply Hful | by eapply inv_entered].
    + rewrite (Hne Hji) in Hph. by eapply inv_entered.
  - intros r Hr.
    assert (r ∈ rows s ∨ ∃ now, r = RunRow i (t_key t) now ∧ ph = Holding true) as [Hold|(now & -> & ->)].
    { destruct Hrows as [[-> _]|(now & -> & _ & ->)]; [by left|].
      apply elem_of_app in Hr as [?| ->%list_elem_of_singleton]; eauto. }
    + destruct (inv_rows s Hs r Hold) as (tr & Htr & Hk & Hph).
      destruct (lookup_set_phase_fwd _ i t ph _ tr Hi Htr) as (tr' & Htr' & Hk' & _ & _ & Hne & Heq).
      exists tr'. split; [done|]. split; [congruence|].
      destruct (decide (rr_task r = i)) as [Hri|Hri]; [|by rewrite (Hne Hri)].
      destruct (Heq Hri) as [-> ->]. destruct Hph as [Hph|Hph]; [|done].
      destruct Hrows as [[_ Hd]|(now & _ & Hf & _)]; [right; by apply Hd|congruence].
    + simpl. destruct (lookup_set_phase_fwd _ i t (Holding true) i t Hi Hi)
        as (t' & Ht' & Hk' & _ & _ & _ & Heq).
      exists t'. split; [done|]. split; [done|]. left. by destruct (Heq eq_refl).
  - destruct Hrows as [[-> _]|(now & -> & Hf & ->)]; [apply (inv_rows_order s Hs)|].
    intros p q r1 r2 Hp Hq Hpq Hkey.
    apply lookup_snoc_Some in Hq as [[Hql Hq]|[-> <-]].
    + rewrite lookup_app_l in Hp by lia. by eapply (inv_rows_order s Hs).
    + rewrite lookup_app_l in Hp by lia. simpl in *.
      assert (r1 ∈ rows s) as Hr1 by (apply list_elem_of_lookup; eauto).
      destruct (inv_rows s Hs r1 Hr1) as (t1 & Ht1 & Hk1 & Hph1).
      destruct (lt_eq_lt_dec (rr_task r1) i) as [[Hlt|Heq]|Hgt]; [done| |].
      * exfalso. rewrite Heq in Ht1. assert (t1 = t) as -> by congruence.
        destruct Hph1; congruence.
      * exfalso. assert (t_phase t = Done); [|congruence].
        eapply (fifo s Hs i (rr_task r1) t t1); eauto; [congruence|].
        destruct Hph1 as [-> | ->]; done.
Qed.

(** Every step keeps the invariant. *)
Lemma holds_step s e s' : holds s → step s e = Some s' → holds s'.
Proof.
  intros Hs. destruct e as [key|i|i now|i]; [by apply holds_call| | |]; simpl.
  - destruct (tasks s !! i) as [t|] eqn:Hi; [|done].
    destruct (t_phase t) eqn:Hph; try done.
    destruct (fulfilled _ _) eqn:Hful; [|done]. intros [= <-].
    apply holds_phase; rewrite ?Hph; try done; eauto.
    left. split; done.
  - destruct (tasks s !! i) as [t|] eqn:Hi; [|done].
    destruct (t_phase t) as [|[|]|] eqn:Hph; try done. intros [= <-].
    apply holds_phase; rewrite ?Hph; try done; eauto.
  - destruct (tasks s !! i) as [t|] eqn:Hi; [|done].
    destruct (t_phase t) eqn:Hph; try done. intros [= <-].
    apply holds_phase; rewrite ?Hph; try done; eauto.
    case_decide; eauto.
Qed.

Lemma holds_exec tr : ∀ s s', holds s → exec tr s = Some s' → holds s'.
Proof.
  induction tr as [|e tr IH]; intros s s' Hs; simpl; [by intros [= <-]|].
  destruct (step s e) as [s1|] eqn:He; [|done]. intros Hx.
  eapply IH; [|done]. by eapply holds_step.
Qed.


Lemma increasing_app_inv l1 l2 : increasing (l1 ++ l2) → increasing l2.
Proof. induction l1 as [|x l1 IH]; simpl; [done|]. intros [_ H]. by apply IH. Qed.




(** The second caller cannot enter [fn] while the first is inside. *)
Example second_caller_waits :
  exec [Call "p1"; Call "p1"; Resume 0; Resume 1] init = None
  ∧ exec [Call "p1"; Call "p1"; Resume 1] init = None
  ∧ is_Some (exec [Call "p1"; Call "p2"; Resume 1; Resume 0] init).
Proof. split; [reflexivity|]. split; [reflexivity|]. vm_compute. eauto. Qed.

End LockProofs.

(** ** C1: one warm workspace per user *)

(** *** One request at a time *)

Module SequentialWarmProofs.

Import Scenario.

#[local] Open Scope nat_scope.
#[local] Arguments putFile : simpl never.
#[local] Arguments triggerEvidenceBuild : simpl never.
#[local] Arguments update_where : simpl never.

Lemma not_warmed_refl w : not_warmed w w.
Proof. done. Qed.

Lemma not_warmed_trans w1 w2 w3 : not_warmed w1 w2 → not_warmed w2 w3 → not_warmed w1 w3.
Proof. unfold not_warmed. intros (-> & -> & H1) (-> & -> & H2). auto. Qed.

Lemma Forall2_refl_on {A} (R : A → A → Prop) l : (∀ x, R x x) → Forall2 R l l.
Proof. intros H. induction l; constructor; auto. Qed.

Lemma Forall2_trans_on {A} (R : A → A → Prop) l1 l2 l3 :
  (∀ x y z, R x y → R y z → R x z) → Forall2 R l1 l2 → Forall2 R l2 l3 → Forall2 R l1 l3.
Proof.
  intros HR H12. revert l3. induction H12 as [|x y l1 l2 Hxy _ IH]; intros l3 H23.
  - by inversion H23.
  - inversion H23; subst. constructor; eauto.
Qed.

Lemma Forall2_update (R : workspace → workspace → Prop) p f rows :
  (∀ w, R w w) → (∀ w, R w (f w)) → Forall2 R rows (update_where p f rows).
Proof.
  intros Hr Hf. unfold update_where. induction rows as [|w rows IH]; simpl; constructor; [|done].
  destruct (p w); auto.
Qed.

Lemma Forall2_update_each (R : workspace → workspace → Prop) f ids rows :
  (∀ w, R w w) → (∀ x y z, R x y → R y z → R x z) → (∀ w, R w (f w)) →
  Forall2 R rows (update_each f ids rows).
Proof.
  intros Hr Ht Hf. revert rows. induction ids as [|i ids IH]; intros rows.
  - by apply Forall2_refl_on.
  - unfold update_each in *. simpl. eapply Forall2_trans_on; [done| |apply IH].
    by apply Forall2_update.
Qed.

Lemma not_warmed_ids rows rows' :
  Forall2 not_warmed rows rows' → ws_id <$> rows' = ws_id <$> rows.
Proof.
  induction 1 as [|w w' rows rows' (Hi & _) _ IH]; [done|].
  rewrite !fmap_cons. by rewrite Hi, IH.
Qed.

Lemma not_warmed_keys rows rows' :
  Forall2 not_warmed rows rows' → ws_key <$> rows' = ws_key <$> rows.
Proof.
  induction 1 as [|w w' rows rows' (_ & Hk & _) _ IH]; [done|].
  rewrite !fmap_cons. by rewrite Hk, IH.
Qed.

Lemma not_warmed_count u rows rows' :
  Forall2 not_warmed rows rows' →
  length (select_where (warm_of u) rows') ≤ length (select_where (warm_of u) rows).
Proof.
  unfold select_where.
  induction 1 as [|w w' rows rows' (_ & Hk & Hs) _ IH]; simpl; [done|].
  assert (warm_of u w' = true → warm_of u w = true) as Hw.
  { unfold warm_of. injection Hk as -> _.
    intros [Hu Hw']%andb_prop. rewrite Hu. simpl.
    apply bool_decide_eq_true. apply bool_decide_eq_true in Hw'. auto. }
  destruct (warm_of u w'); [rewrite Hw by done|destruct (warm_of u w)]; simpl; lia.
Qed.

Lemma not_warmed_keeps rows rows' :
  Forall2 not_warmed rows rows' →
  well_keyed rows ∧ single_warm rows → well_keyed rows' ∧ single_warm rows'.
Proof.
  intros H [[Hid Hkey] Hone]. split; [split|].
  - by rewrite (not_warmed_ids _ _ H).
  - by rewrite (not_warmed_keys _ _ H).
  - intros u. pose proof (not_warmed_count u _ _ H). specialize (Hone u). lia.
Qed.

Lemma message_not_warmed cfg rq a st :
  Forall2 not_warmed (workspaces (w_db st)) (workspaces (w_db (message cfg rq a st).2)).
Proof.
  unfold message. repeat case_match; simpl;
    rewrite ?workspaces_trigger, ?workspaces_putFile; simpl;
    rewrite ?workspaces_putFile; simpl;
    try apply (Forall2_refl_on _ _ not_warmed_refl).
  all: by apply Forall2_update.
Qed.

Lemma stream_not_warmed cfg rq a st :
  Forall2 not_warmed (workspaces (w_db st)) (workspaces (w_db (stream cfg rq a st).2)).
Proof.
  unfold stream. repeat case_match; simpl;
    rewrite ?workspaces_trigger, ?workspaces_putFile; simpl;
    rewrite ?workspaces_putFile; simpl;
    try apply (Forall2_refl_on _ _ not_warmed_refl).
  all: by apply Forall2_update.
Qed.

Lemma fmap_update_where {B} (proj : workspace → B) p f rows :
  (∀ w, proj (f w) = proj w) → proj <$> update_where p f rows = proj <$> rows.
Proof.
  intros H. unfold update_where. rewrite <- list_fmap_compose. apply list_fmap_ext.
  intros k w _. simpl. destruct (p w); auto.
Qed.

Lemma filter_none {A} (q : A → bool) rows :
  (∀ x, x ∈ rows → q x = false) → List.filter q rows = [].
Proof.
  induction rows as [|x rows IH]; intros H; simpl; [done|].
  rewrite (H x) by apply list_elem_of_here. apply IH. intros y Hy. apply H.
  by apply list_elem_of_further.
Qed.

Lemma count_by_key rows (q : workspace → bool) k :
  NoDup (ws_key <$> rows) →
  (∀ x, x ∈ rows → q x = true → ws_key x = k) →
  length (List.filter q rows) ≤ 1.
Proof.
  induction rows as [|x rows IH]; [simpl; lia|].
  rewrite fmap_cons. cbn [List.filter]. intros [Hx Hnd]%NoDup_cons Hk.
  destruct (q x) eqn:Hqx.
  - rewrite filter_none; [simpl; lia|]. intros y Hy. apply not_true_is_false. intros Hqy.
    apply Hx. apply list_elem_of_fmap. exists y. split; [|done].
    rewrite (Hk x) by (done || apply list_elem_of_here).
    rewrite (Hk y); [done| by apply list_elem_of_further | done].
  - apply IH; [done|]. intros y Hy. apply Hk. by apply list_elem_of_further.
Qed.

Lemma filter_fmap_same_length {A} (q : A → bool) h rows :
  (∀ y, y ∈ rows → q (h y) = q y) →
  length (List.filter q (h <$> rows)) = length (List.filter q rows).
Proof.
  induction rows as [|x rows IH]; intros H; [done|].
  rewrite fmap_cons. cbn [List.filter]. rewrite H by apply list_elem_of_here.
  assert (length (List.filter q (h <$> rows)) = length (List.filter q rows)) as IH'.
  { apply IH. intros y Hy. apply H. by apply list_elem_of_further. }
  destruct (q x); simpl; lia.
Qed.

Lemma Forall2_image (R : workspace → workspace → Prop) rows rows' w :
  Forall2 R rows rows' → w ∈ rows → ∃ w', w' ∈ rows' ∧ R w w'.
Proof.
  induction 1 as [|x y rows rows' Hxy _ IH]; [by intros ?%elem_of_nil|].
  intros [->|Hw]%elem_of_cons.
  - exists y. split; [apply list_elem_of_here|done].
  - destruct (IH Hw) as (w' & Hw' & HR). exists w'. split; [by apply list_elem_of_further|done].
Qed.

Lemma Forall2_preimage (R : workspace → workspace → Prop) rows rows' w' :
  Forall2 R rows rows' → w' ∈ rows' → ∃ w, w ∈ rows ∧ R w w'.
Proof.
  induction 1 as [|x y rows rows' Hxy _ IH]; [by intros ?%elem_of_nil|].
  intros [->|Hw]%elem_of_cons.
  - exists x. split; [apply list_elem_of_here|done].
  - destruct (IH Hw) as (w & Hw0 & HR). exists w. split; [by apply list_elem_of_further|done].
Qed.

Lemma find_workspace_Some d u id w :
  find_workspace d u id = Some w → w ∈ workspaces d ∧ ws_key w = (u, id).
Proof.
  unfold find_workspace, take_first, select_where. intros H.
  assert (w ∈ List.filter (λ w, bool_decide (ws_project_id w = id) && bool_decide (ws_user_id w = u))
                (workspaces d)) as Hin.
  { destruct (List.filter _ _) as [|x l]; [done|]. injection H as ->. apply list_elem_of_here. }
  apply list_elem_of_In, filter_In in Hin as [Hin [Hp Hu]%andb_prop].
  apply bool_decide_eq_true in Hp, Hu. split; [by apply list_elem_of_In|].
  unfold ws_key. by rewrite Hp, Hu.
Qed.

Lemma find_workspace_None d u id :
  find_workspace d u id = None → (u, id) ∉ ws_key <$> workspaces d.
Proof.
  unfold find_workspace, take_first, select_where. intros H (w & Hk & Hw)%list_elem_of_fmap.
  assert (In w (List.filter (λ w, bool_decide (ws_project_id w = id) && bool_decide (ws_user_id w = u))
                  (workspaces d))) as Hin.
  { apply filter_In. split; [by apply list_elem_of_In|]. unfold ws_key in Hk.
    injection Hk as -> ->. by rewrite !bool_decide_eq_true_2. }
  destruct (List.filter _ _); [done | discriminate].
Qed.

(** After the LRU pass, the warm rows of the user are rows of the project
    being opened. *)
Lemma evict_rows user id st :
  Forall2 not_warmed (workspaces (w_db st))
          (workspaces (w_db (evict (otherWarmWorkspaces (w_db st) user id) st)))
  ∧ ∀ x, x ∈ workspaces (w_db (evict (otherWarmWorkspaces (w_db st) user id) st)) →
         ws_user_id x = user → ws_state x = warm → ws_project_id x = id.
Proof.
  rewrite evict_workspaces. split.
  - apply Forall2_update_each; [apply not_warmed_refl | apply not_warmed_trans | done].
  - rewrite (update_each_spec mark_cold mark_cold_id mark_cold_idem).
    intros x (w & -> & Hw)%list_elem_of_fmap.
    destruct (hit _ w) eqn:Hhit; [discriminate|]. intros Hu Hs.
    destruct (decide (ws_project_id w = id)) as [|Hne]; [done|]. exfalso.
    apply not_true_iff_false in Hhit. apply Hhit. apply existsb_exists.
    exists (ws_id w). split; [|by apply bool_decide_eq_true].
    apply in_map_iff. exists (ws_id w, ws_container_id w). split; [done|].
    apply in_map_iff. exists w. split; [done|]. apply filter_In.
    split; [by apply list_elem_of_In|]. unfold is_other_warm.
    rewrite (bool_decide_eq_true_2 _ Hs), (bool_decide_eq_false_2 _ Hne),
      (bool_decide_eq_true_2 _ Hu). done.
Qed.

Lemma warm_of_key u x : warm_of u x = true → ws_user_id x = u ∧ ws_state x = warm.
Proof. unfold warm_of. intros [H1 H2]%andb_prop. by apply bool_decide_eq_true in H1, H2. Qed.

(** The rest of Open, after the LRU pass. *)
Lemma warm_up_keeps cfg u id url a st0 st1 :
  Forall2 not_warmed (workspaces (w_db st0)) (workspaces (w_db st1)) →
  (∀ x, x ∈ workspaces (w_db st1) → ws_user_id x = u → ws_state x = warm →
        ws_project_id x = id) →
  well_keyed (workspaces (w_db st0)) ∧ single_warm (workspaces (w_db st0)) →
  well_keyed (workspaces (w_db (warm_up cfg u id url (find_workspace (w_db st0) u id) a st1).2))
  ∧ single_warm (workspaces (w_db (warm_up cfg u id url (find_workspace (w_db st0) u id) a st1).2)).
Proof.
  intros HF Hb Hinv. pose proof (not_warmed_keeps _ _ HF Hinv) as [[Hid1 Hkey1] Hone1].
  assert (∀ x, x ∈ workspaces (w_db st1) → warm_of u x = true → ws_key x = (u, id)) as Hb'.
  { intros x Hx [Hu Hs]%warm_of_key. unfold ws_key. by rewrite Hu, (Hb x Hx Hu Hs). }
  unfold warm_up. destruct (find_workspace (w_db st0) u id) as [w|] eqn:Hfind.
  - destruct (_ && _); [done|].
    destruct (createWarmWorkspace _ _ _ _ _ _ _) as [[e|r] t]; [done|].
    destruct (existsb _ _); [|done]. simpl.
    destruct (find_workspace_Some _ _ _ _ Hfind) as [Hw Hkw].
    destruct (Forall2_image _ _ _ w HF Hw) as (w1 & Hw1 & Hi1 & Hk1 & _).
    assert (∀ y, y ∈ workspaces (w_db st1) → has_id (ws_id w) y = true → y = w1) as Hsame.
    { intros y Hy Hid. apply bool_decide_eq_true in Hid.
      eapply ids_determine_rows; [exact Hid1|done|done|congruence]. }
    split; [split|].
    + by rewrite fmap_update_where.
    + by rewrite fmap_update_where.
    + intros v. unfold select_where. destruct (decide (v = u)) as [->|Hv].
      * apply (count_by_key _ _ (u, id)); [by rewrite fmap_update_where|].
        unfold update_where. intros x (y & -> & Hy)%list_elem_of_fmap.
        destruct (has_id (ws_id w) y) eqn:Hid.
        -- intros _. rewrite (Hsame y Hy Hid). unfold ws_key in *. simpl. congruence.
        -- by apply Hb'.
      * unfold update_where. rewrite filter_fmap_same_length; [apply Hone1|].
        intros y Hy. destruct (has_id (ws_id w) y) eqn:Hid; [|done].
        rewrite (Hsame y Hy Hid). unfold warm_of. simpl.
        assert (ws_user_id w1 = u) as -> by (unfold ws_key in *; congruence).
        by rewrite !(bool_decide_eq_false_2 (u = v)) by done.
  - destruct (createWarmWorkspace _ _ _ _ _ _ _) as [[e|r] t]; [done|].
    destruct (existsb _ _) eqn:Hfresh; [done|]. simpl.
    pose proof (find_workspace_None _ _ _ Hfind) as Hnokey.
    rewrite <- (not_warmed_keys _ _ HF) in Hnokey.
    split; [split|].
    + rewrite fmap_app. apply NoDup_app. split; [done|]. split; [|apply NoDup_singleton].
      intros i (y & -> & Hy)%list_elem_of_fmap Hnew%list_elem_of_singleton.
      apply not_true_iff_false in Hfresh. apply Hfresh, existsb_exists.
      exists y. split; [by apply list_elem_of_In|by apply bool_decide_eq_true].
    + rewrite fmap_app. apply NoDup_app. split; [done|]. split; [|apply NoDup_singleton].
      intros k Hk ->%list_elem_of_singleton. done.
    + intros v. unfold select_where. rewrite List.filter_app, length_app.
      destruct (decide (v = u)) as [->|Hv].
      * rewrite filter_none; [cbn [List.filter]; destruct (warm_of _ _); simpl; lia|].
        intros x Hx. apply not_true_is_false. intros Hq. apply Hnokey.
        apply list_elem_of_fmap. exists x. split; [|done]. symmetry. by apply Hb'.
      * specialize (Hone1 v). unfold select_where in Hone1. simpl. unfold warm_of at 2. simpl.
        rewrite (bool_decide_eq_false_2 (u = v)) by done. simpl. lia.
Qed.

Lemma open_keeps cfg u id a st :
  well_keyed (workspaces (w_db st)) ∧ single_warm (workspaces (w_db st)) →
  well_keyed (workspaces (w_db (open cfg u id a st).2))
  ∧ single_warm (workspaces (w_db (open cfg u id a st).2)).
Proof.
  intros Hinv. unfold open. destruct (find_project _ _ _); [|done].
  destruct (evict_rows u id st) as [HF Hb]. by apply warm_up_keeps.
Qed.

Lemma exec_op_keeps cfg o st :
  well_keyed (workspaces (w_db st)) ∧ single_warm (workspaces (w_db st)) →
  well_keyed (workspaces (w_db (exec_op cfg st o)))
  ∧ single_warm (workspaces (w_db (exec_op cfg st o))).
Proof.
  destruct o; simpl.
  - unfold createProject. by case_match.
  - apply open_keeps.
  - apply not_warmed_keeps, message_not_warmed.
  - apply not_warmed_keeps, stream_not_warmed.
  - apply not_warmed_keeps. unfold IdleReaper.reapIdleWorkspaces.
    rewrite reap_fold_workspaces.
    apply Forall2_update_each; [apply not_warmed_refl | apply not_warmed_trans | done].
  - apply not_warmed_keeps. unfold GC.runWorkspaceGC. rewrite gc_workspaces.
    apply Forall2_update_each; [apply not_warmed_refl | apply not_warmed_trans | done].
  - unfold GC.runEvidenceGC. by rewrite gc_bundle_workspaces.
  - by rewrite build_workspaces.
Qed.

(** C1 for requests and sweeps that run one at a time. From a table with
    one row per id and per (user, project) in which every user has at most
    one warm row (the empty table, to begin with), every sequence of
    requests and sweeps, each run to its end before the next starts, leads
    to such a table. *)
Theorem one_warm_when_sequential cfg ops st :
  well_keyed (workspaces (w_db st)) → single_warm (workspaces (w_db st)) →
  well_keyed (workspaces (w_db (exec_ops cfg ops st)))
  ∧ ∀ u, warm_count u (w_db (exec_ops cfg ops st)) ≤ 1.
Proof.
  intros Hk Hone. assert (well_keyed (workspaces (w_db st)) ∧ single_warm (workspaces (w_db st)))
    as Hinv by done. clear Hk Hone.
  unfold exec_ops. revert st Hinv. induction ops as [|o ops IH]; intros st Hinv; simpl.
  - destruct Hinv as [Hk Hone]. split; [done|]. intros u. apply Hone.
  - apply IH. by apply exec_op_keeps.
Qed.

Lemma one_warm_when_sequential_witness :
  ∀ u, warm_count u
         (w_db (exec_ops cfg [OpOpen "u1" "p1" (opening (docker_fine "c1") "w1");
                              OpOpen "u1" "p2" (opening (docker_fine "c2") "w2")]
                  unopened_world)) ≤ 1.
Proof.
  apply (one_warm_when_sequential cfg _ unopened_world).
  - split; apply NoDup_nil_2.
  - intros u. simpl. lia.
Defined.

End SequentialWarmProofs.

(** *** Two requests at once *)

Module SingleWarmProofs.

Import Scenario.

(** C1 fails when two Opens of one user overlap. [u1] asks to open [p1] and
    [p2] at about the same time: each handler reads the tables before the
    other has written, finds no warm workspace to stop and no row of its
    own, starts its container and inserts a warm row. Both requests succeed
    and [u1] has two warm workspaces. *)
Theorem interleaved_opens_leave_two_warm :
  match open_interleaved cfg "u1" "p1" (opening (docker_fine "c1") "w1")
                             "u1" "p2" (opening (docker_fine "c2") "w2") unopened_world with
  | Some (r1, r2, st') =>
      r1 = Opened "w1" warm ∧ r2 = Opened "w2" warm
      ∧ (λ w, (ws_id w, ws_user_id w, ws_project_id w, ws_state w)) <$> workspaces (w_db st')
        = [("w1", "u1", "p1", warm); ("w2", "u1", "p2", warm)]
      ∧ warm_count "u1" (w_db st') = 2%nat
  | None => False
  end.
Proof. vm_compute. repeat split. Qed.

(** The same two Opens one after the other: the second stops the first. *)
Example consecutive_opens_leave_one_warm :
  (λ w, (ws_id w, ws_state w))
    <$> workspaces (w_db (exec_ops cfg [OpOpen "u1" "p1" (opening (docker_fine "c1") "w1");
                                       OpOpen "u1" "p2" (opening (docker_fine "c2") "w2")]
                           unopened_world))
  = [("w1", cold); ("w2", warm)].
Proof. vm_compute. reflexivity. Qed.

End SingleWarmProofs.

(** * Further properties of the control plane *)

(** ** Run rows *)

Module RunRowProofs.

Import Scenario.

#[local] Arguments putFile : simpl never.
#[local] Arguments triggerEvidenceBuild : simpl never.
#[local] Arguments update_where : simpl never.

Lemma update_new_run runId f rows r :
  existsb (λ r, bool_decide (run_id r = runId)) rows = false →
  run_id r = runId →
  update_where (λ r, bool_decide (run_id r = runId)) f (rows ++ [r]) = rows ++ [f r].
Proof.
  intros Hfresh Hid. rewrite update_where_app, update_where_none by done.
  unfold update_where. simpl. by rewrite bool_decide_eq_true_2.
Qed.

(** What a run handler does to the runs table: nothing, or one row added
    at the end for the warm workspace it found, finished or not. *)
Lemma message_runs cfg rq a st :
  runs (w_db (message cfg rq a st).2) = runs (w_db st)
  ∨ ∃ w f, find_warm_workspace (w_db st) (rq_user rq) (rq_id rq) = Some w
        ∧ existsb (λ r, bool_decide (run_id r = ra_run_id a)) (runs (w_db st)) = false
        ∧ finishing w f
        ∧ runs (w_db (message cfg rq a st).2)
          = runs (w_db st) ++ [f (new_run (ra_run_id a) (rq_user rq) (rq_id rq) w
                                    (rq_text rq) (ra_start a))].
Proof.
  unfold message.
  destruct (negb _); [by left|].
  destruct (find_warm_workspace _ _ _) as [w|] eqn:Hw; [|by left].
  destruct (ws_container_id w) as [cid|] eqn:Hc; [|by left].
  destruct (negb (truthy _)); [by left|].
  destruct (existsb _ _) eqn:Hfresh; [by left|].
  right. exists w.
  destruct (ra_addr_error a).
  { exists (λ r, r). split; [done|]. split; [done|]. split; [constructor|done]. }
  destruct (worker_call _) as [msg|res]; cbn [snd].
  - eexists. split; [done|]. split; [done|]. split; [apply finished_ko|].
    rewrite runs_trigger, runs_putFile. unfold update_run. cbn.
    by apply update_new_run.
  - eexists. split; [done|]. split; [done|]. split; [apply finished_ok|].
    rewrite runs_trigger. unfold update_workspace, update_run. cbn.
    rewrite runs_putFile. cbn. by apply update_new_run.
Qed.

Lemma stream_runs cfg rq a st :
  runs (w_db (stream cfg rq a st).2) = runs (w_db st)
  ∨ ∃ w f, find_warm_workspace (w_db st) (rq_user rq) (rq_id rq) = Some w
        ∧ existsb (λ r, bool_decide (run_id r = ra_run_id a)) (runs (w_db st)) = false
        ∧ finishing w f
        ∧ runs (w_db (stream cfg rq a st).2)
          = runs (w_db st) ++ [f (new_run (ra_run_id a) (rq_user rq) (rq_id rq) w
                                    (rq_text rq) (ra_start a))].
Proof.
  unfold stream.
  destruct (negb _); [by left|].
  destruct (find_warm_workspace _ _ _) as [w|] eqn:Hw; [|by left].
  destruct (ws_container_id w) as [cid|] eqn:Hc; [|by left].
  destruct (negb (truthy _)); [by left|].
  destruct (existsb _ _) eqn:Hfresh; [by left|].
  right. exists w.
  destruct (ra_addr_error a).
  { exists (λ r, r). split; [done|]. split; [done|]. split; [constructor|done]. }
  destruct (worker_call_stream _) as [msg|res]; cbn [snd].
  - eexists. split; [done|]. split; [done|]. split; [apply finished_ko|].
    rewrite runs_trigger, runs_putFile. unfold update_run. cbn.
    by apply update_new_run.
  - eexists. split; [done|]. split; [done|]. split; [apply finished_ok|].
    rewrite runs_trigger, runs_putFile. unfold update_workspace, update_run. cbn.
    by apply update_new_run.
Qed.

Lemma evict_runs others st : runs (w_db (evict others st)) = runs (w_db st).
Proof.
  unfold evict. revert st. induction others as [|[i c] others IH]; intros st; simpl; [done|].
  rewrite IH. unfold evict_one. simpl. by repeat case_match.
Qed.

Lemma open_runs cfg user id a st : runs (w_db (open cfg user id a st).2) = runs (w_db st).
Proof.
  unfold open. destruct (find_project _ _ _); [|done].
  unfold warm_up. repeat case_match; simplify_eq; cbn; by rewrite ?evict_runs.
Qed.

Lemma reap_runs now st : runs (w_db (IdleReaper.reapIdleWorkspaces now st)) = runs (w_db st).
Proof.
  unfold IdleReaper.reapIdleWorkspaces. generalize (workspaces (w_db st)) at 1. intros l.
  generalize ((λ w, (ws_id w, ws_container_id w)) <$> select_where (IdleReaper.is_idle now) l).
  clear l. intros l. revert st. induction l as [|[i c] l IH]; intros st; simpl; [done|].
  rewrite IH. unfold IdleReaper.reap_one. simpl. by repeat case_match.
Qed.

Lemma gc_runs ttl now st : runs (w_db (GC.runWorkspaceGC ttl now st)) = runs (w_db st).
Proof.
  unfold GC.runWorkspaceGC. cbv zeta.
  generalize ((λ w, (ws_id w, ws_volume_name w)) <$>
                select_where (GC.is_expired_cold (now - ttl * GC.day_ms)) (workspaces (w_db st))).
  intros l. revert st. induction l as [|[i c] l IH]; intros st; simpl; [done|].
  rewrite IH. unfold GC.gc_one. simpl. by repeat case_match.
Qed.

Lemma evidence_gc_runs ttl now st : runs (w_db (GC.runEvidenceGC ttl now st)) = runs (w_db st).
Proof.
  unfold GC.runEvidenceGC. cbv zeta.
  generalize ((λ b, (eb_id b, eb_bundle_path b)) <$>
                select_where (GC.is_expired_bundle (now - ttl * GC.day_ms))
                  (evidence_bundles (w_db st))).
  intros l. revert st. induction l as [|b l IH]; intros st; simpl; [done|]. by rewrite IH.
Qed.

Lemma build_runs root runId a st :
  runs (w_db (EvidenceBuilder.buildBundle root runId a st)) = runs (w_db st).
Proof.
  unfold EvidenceBuilder.buildBundle, EvidenceBuilder.assemble.
  repeat case_match; simplify_eq; done.
Qed.

(** One operation leaves the runs table as it is or adds one row. *)
Lemma exec_op_runs cfg o st :
  runs (w_db (exec_op cfg st o)) = runs (w_db st)
  ∨ ∃ rq a w f, (o = OpMessage rq a ∨ o = OpStream rq a)
        ∧ find_warm_workspace (w_db st) (rq_user rq) (rq_id rq) = Some w
        ∧ existsb (λ r, bool_decide (run_id r = ra_run_id a)) (runs (w_db st)) = false
        ∧ finishing w f
        ∧ runs (w_db (exec_op cfg st o))
          = runs (w_db st) ++ [f (new_run (ra_run_id a) (rq_user rq) (rq_id rq) w
                                    (rq_text rq) (ra_start a))].
Proof.
  destruct o as [user name url newId|user id a|rq a|rq a|now|now|now|runId a]; cbn [exec_op].
  - left. unfold createProject. by case_match.
  - left. apply open_runs.
  - destruct (message_runs cfg rq a st) as [?|(w & f & H)]; [by left|].
    right. exists rq, a, w, f. split; [by left|exact H].
  - destruct (stream_runs cfg rq a st) as [?|(w & f & H)]; [by left|].
    right. exists rq, a, w, f. split; [by right|exact H].
  - left. apply reap_runs.
  - left. apply gc_runs.
  - left. apply evidence_gc_runs.
  - left. apply build_runs.
Qed.

Lemma exec_ops_runs_prefix cfg ops st :
  runs (w_db st) `prefix_of` runs (w_db (exec_ops cfg ops st)).
Proof.
  unfold exec_ops. revert st. induction ops as [|o ops IH]; intros st; simpl; [done|].
  etrans; [|apply IH].
  destruct (exec_op_runs cfg o st) as [->|(rq & a & w & f & _ & _ & _ & _ & ->)]; [done|].
  by apply prefix_app_r.
Qed.

(** X1. The runs table is append-only: whatever requests and sweeps follow,
    a row that is there stays where it is and as it is. *)
Theorem runs_are_append_only cfg ops st k r :
  runs (w_db st) !! k = Some r →
  runs (w_db (exec_ops cfg ops st)) !! k = Some r.
Proof. intros Hk. eapply prefix_lookup_Some; [done|apply exec_ops_runs_prefix]. Qed.

Lemma runs_are_append_only_witness :
  runs (w_db (exec_ops cfg [OpMessage hello (answers (says [111; 107]%N));
                            OpReap (morning + 2000000)] busy_world)) !! 1%nat
  = Some (past_run "r2" (morning - 3000)).
Proof. apply (runs_are_append_only cfg _ busy_world). reflexivity. Defined.

Lemma finishing_settled w f r :
  finishing w f → run_settled r → run_settled (f r).
Proof.
  intros [] Hr; [done| |]; right; cbn; eauto.
Qed.

(** X2. Every Run row is either [running] with no end recorded, or
    [succeeded] or [failed] with [finished_at] and [duration_ms] set; if the
    table starts that way it stays that way. The statuses [queued] and
    [timeout] are never written. *)
Theorem runs_stay_settled cfg ops st :
  Forall run_settled (runs (w_db st)) →
  Forall run_settled (runs (w_db (exec_ops cfg ops st))).
Proof.
  unfold exec_ops. revert st. induction ops as [|o ops IH]; intros st Hst; simpl; [done|].
  apply IH.
  destruct (exec_op_runs cfg o st) as [->|(rq & a & w & f & _ & _ & _ & Hf & ->)]; [done|].
  apply Forall_app. split; [done|]. constructor; [|done].
  apply (finishing_settled w); [done|]. left. done.
Qed.

Lemma runs_stay_settled_witness :
  Forall run_settled
    (runs (w_db (exec_ops cfg [OpMessage hello (answers (says [111; 107]%N));
                               OpStream hello (answers aborted)] busy_world))).
Proof.
  apply (runs_stay_settled cfg _ busy_world).
  constructor; [|constructor; [|constructor]]; right; cbn; eauto.
Defined.

(** X3. A run is recorded only for the caller's own warm workspace of the
    project: the row a handler adds carries the caller as user, the
    requested project, and the id of a warm row of that user and project. *)
Theorem run_belongs_to_caller cfg rq a st r :
  r ∈ runs (w_db (message cfg rq a st).2) ∨ r ∈ runs (w_db (stream cfg rq a st).2) →
  r ∉ runs (w_db st) →
  run_user_id r = rq_user rq ∧ run_project_id r = rq_id rq ∧ run_prompt r = rq_text rq
  ∧ ∃ w, w ∈ workspaces (w_db st) ∧ ws_id w = run_workspace_id r
         ∧ ws_user_id w = rq_user rq ∧ ws_project_id w = rq_id rq ∧ ws_state w = warm.
Proof.
  intros Hr Hnew.
  assert (∃ w f, find_warm_workspace (w_db st) (rq_user rq) (rq_id rq) = Some w
                 ∧ finishing w f
                 ∧ r = f (new_run (ra_run_id a) (rq_user rq) (rq_id rq) w (rq_text rq) (ra_start a)))
    as (w & f & Hw & Hf & ->).
  { destruct Hr as [Hr|Hr].
    - destruct (message_runs cfg rq a st) as [E|(w & f & ? & _ & ? & E)]; rewrite E in Hr; [done|].
      apply elem_of_app in Hr as [?| ->%list_elem_of_singleton]; [done|eauto].
    - destruct (stream_runs cfg rq a st) as [E|(w & f & ? & _ & ? & E)]; rewrite E in Hr; [done|].
      apply elem_of_app in Hr as [?| ->%list_elem_of_singleton]; [done|eauto]. }
  unfold find_warm_workspace, take_first, select_where in Hw. simpl in Hw.
  apply head_Some in Hw as [l Hl].
  assert (w ∈ List.filter (λ w, bool_decide (ws_project_id w = rq_id rq)
                               && bool_decide (ws_user_id w = rq_user rq)
                               && bool_decide (ws_state w = warm)) (workspaces (w_db st))) as Hin.
  { rewrite Hl. apply list_elem_of_here. }
  apply list_elem_of_In, List.filter_In in Hin as [Hin Hp].
  apply list_elem_of_In in Hin.
  apply andb_true_iff in Hp as [[Hp1 Hp2]%andb_true_iff Hp3].
  apply bool_decide_eq_true in Hp1, Hp2, Hp3.
  destruct Hf; cbn; (repeat split; [done..|]); exists w; done.
Qed.

Lemma run_belongs_to_caller_witness :
  ∃ r, run_id r = "r3" ∧ run_user_id r = "u1" ∧ run_project_id r = "p1"
       ∧ run_workspace_id r = "w1".
Proof.
  set (r := mark_succeeded (WorkerResult [111; 107]%N [] "thread-1" None) warm_row
              (morning + 50) 50 (new_run "r3" "u1" "p1" warm_row [104; 105]%N (morning + 1))).
  exists r.
  destruct (run_belongs_to_caller cfg hello (answers (says [111; 107]%N)) fresh_world r)
    as (Hu & Hp & _ & w & Hw & Hid & _).
  - left. vm_compute. apply list_elem_of_here.
  - vm_compute. apply not_elem_of_nil.
  - done.
Defined.

(** X4. When the worker's address cannot be looked up the unary handler
    answers 500 and the Run row it inserted is left [running], with no end
    and no error message; no later request or sweep finishes it. *)
Theorem address_failure_leaves_run_running cfg rq a st w cid msg ops :
  Quota.checkQuota (cfg_max_runs cfg) (ra_quota_now a) (w_db st) (rq_user rq) = true →
  find_warm_workspace (w_db st) (rq_user rq) (rq_id rq) = Some w →
  ws_container_id w = Some cid → cid ≠ EmptyString →
  existsb (λ r, bool_decide (run_id r = ra_run_id a)) (runs (w_db st)) = false →
  ra_addr_error a = Some msg →
  (message cfg rq a st).1 = failed_to_process
  ∧ ∃ r, runs (w_db (exec_ops cfg ops (message cfg rq a st).2))
           !! length (runs (w_db st)) = Some r
         ∧ run_id r = ra_run_id a ∧ run_status_of r = running
         ∧ run_finished_at r = None ∧ run_error_message r = None.
Proof.
  intros Hq Hw Hc Hne Hfresh Haddr.
  assert (message cfg rq a st
          = (failed_to_process,
             with_db st (set_runs (w_db st)
               (runs (w_db st) ++ [new_run (ra_run_id a) (rq_user rq) (rq_id rq) w
                                     (rq_text rq) (ra_start a)])))) as ->.
  { unfold message. rewrite Hq, Hw, Hc, Hfresh, Haddr. simpl.
    by rewrite bool_decide_eq_false_2. }
  split; [done|]. eexists. split.
  { eapply prefix_lookup_Some; [|apply exec_ops_runs_prefix].
    cbn. by rewrite lookup_app_r, Nat.sub_diag. }
  done.
Qed.

Lemma address_failure_leaves_run_running_witness :
  ∃ r, runs (w_db (exec_ops cfg [OpReap (morning + 2000000); OpBuild "r3" all_fine]
                     (message cfg hello
                        (RunAnswers morning (morning + 1) "r3" (Some "no such container")
                           (λ _, says []) (λ _, morning) morning morning true morning morning
                           "b3" morning) fresh_world).2)) !! 0%nat = Some r
       ∧ run_status_of r = running.
Proof.
  destruct (address_failure_leaves_run_running cfg hello
              (RunAnswers morning (morning + 1) "r3" (Some "no such container")
                 (λ _, says []) (λ _, morning) morning morning true morning morning
                 "b3" morning) fresh_world warm_row "c1" "no such container"
              [OpReap (morning + 2000000); OpBuild "r3" all_fine])
    as (_ & r & Hr & _ & Hs & _);
    [reflexivity | reflexivity | reflexivity | discriminate | reflexivity | reflexivity |].
  exists r. split; [exact Hr | exact Hs].
Defined.

End RunRowProofs.

(** ** The frames of a streaming reply *)

Module StreamProofs.

Import Scenario.

#[local] Arguments putFile : simpl never.
#[local] Arguments triggerEvidenceBuild : simpl never.
#[local] Arguments update_run : simpl never.
#[local] Arguments update_workspace : simpl never.

(** Splitting loses nothing: the pieces, put back together, are the text. *)
Lemma split_from_concat s : ∀ in_ws cur, concat (split_from in_ws cur s) = cur ++ s.
Proof.
  induction s as [|c s IH]; intros in_ws cur; simpl.
  - destruct in_ws; simpl; by rewrite ?app_nil_r.
  - destruct (is_space c), in_ws; simpl; rewrite IH; by rewrite <- ?app_assoc.
Qed.

Lemma token_deltas_app l1 l2 : token_deltas (l1 ++ l2) = token_deltas l1 ++ token_deltas l2.
Proof. apply omap_app. Qed.

Lemma token_deltas_emit_tokens clock runId toks : ∀ i log,
  concat (token_deltas (emit_tokens clock runId i toks log))
  = concat (token_deltas log) ++ concat toks.
Proof.
  induction toks as [|t toks IH]; intros i log; simpl.
  - by rewrite app_nil_r.
  - rewrite IH. destruct t as [|c t]; [done|].
    unfold emit. rewrite token_deltas_app, concat_app. simpl.
    by rewrite app_nil_r, <- app_assoc.
Qed.

(** The three shapes of a streaming reply. *)
Lemma stream_reply cfg rq a st :
  (stream cfg rq a st).1 = quota_exceeded
  ∨ (stream cfg rq a st).1 = EventStream []
  ∨ ∃ body status error runId t1 t2,
      (stream cfg rq a st).1
      = EventStream (Event RunStart t1 (ra_run_id a) :: body
                     ++ [Event (RunComplete status error) t2 runId])
      ∧ List.filter is_run_start body = []
      ∧ List.filter is_run_complete body = []
      ∧ (status = succeeded ∧ (∃ res, worker_call_stream (ra_attempt a) = inr res
                                      ∧ ra_addr_error a = None
                                      ∧ concat (token_deltas body) = finalText res)
         ∨ status = failed ∧ body = [] ∧ is_Some error).
Proof.
  unfold stream.
  destruct (negb _); [by left|]. right.
  destruct (find_warm_workspace _ _ _) as [w|]; [|by left].
  destruct (ws_container_id w) as [cid|]; [|by left].
  destruct (negb (truthy _)); [by left|].
  destruct (existsb _ _); [by left|].
  right.
  destruct (ra_addr_error a) as [msg|].
  { exists [], failed, (Some msg), "unknown". eexists _, _. cbn. split; [done|]. eauto 10. }
  destruct (worker_call_stream (ra_attempt a)) as [msg|res]; cbn [fst].
  { exists [], failed, (Some msg), (ra_run_id a). eexists _, _. cbn. split; [done|]. eauto 10. }
  set (log1 := emit (ra_clock a) (ra_run_id a) [] RunStart).
  set (log2 := emit_tokens (ra_clock a) (ra_run_id a) 0 (split_ws (finalText res)) log1).
  assert (∃ body2, log2 = Event RunStart (ra_clock a 0%nat) (ra_run_id a) :: body2
                   ∧ List.filter is_run_start body2 = []
                   ∧ List.filter is_run_complete body2 = []
                   ∧ concat (token_deltas body2) = finalText res) as (body2 & E2 & Hs2 & Hc2 & Ht2).
  { subst log2.
    assert (∀ toks i log,
              ∃ more, emit_tokens (ra_clock a) (ra_run_id a) i toks log = log ++ more
                      ∧ List.filter is_run_start more = []
                      ∧ List.filter is_run_complete more = []
                      ∧ concat (token_deltas more) = concat toks) as Hemit.
    { induction toks as [|t toks IH]; intros i log; simpl.
      - exists []. by rewrite app_nil_r.
      - destruct t as [|c t].
        + destruct (IH (S i) log) as (more & -> & ? & ? & ?). by exists more.
        + destruct (IH (S i) (emit (ra_clock a) (ra_run_id a) log (Token (c :: t) i)))
            as (more & -> & Hs & Hc & Ht).
          unfold emit. rewrite <- app_assoc. eexists. split; [done|].
          rewrite !List.filter_app, token_deltas_app, concat_app, Hs, Hc, Ht. cbn.
          by rewrite ?app_nil_r. }
    destruct (Hemit (split_ws (finalText res)) 0%nat log1) as (more & -> & Hs & Hc & Ht).
    exists more. split; [done|]. rewrite Ht. unfold split_ws.
    by rewrite split_from_concat. }
  fold log1. fold log2. rewrite E2.
  destruct (diff res) as [|c d].
  - exists body2, succeeded, None, (ra_run_id a). eexists _, _. split; [done|].
    split; [done|]. split; [done|]. left. eauto.
  - exists (body2 ++ [Event (DiffEvent (c :: d)) (ra_clock a (S (length body2))) (ra_run_id a)]),
      succeeded, None, (ra_run_id a). eexists _, _. split.
    { unfold emit. cbn. reflexivity. }
    rewrite !List.filter_app, token_deltas_app, concat_app, Hs2, Hc2, Ht2. cbn.
    rewrite app_nil_r. split; [done|]. split; [done|]. left. eauto.
Qed.

(** X5. Whatever a streaming run sends starts with the one [run-start]
    frame and ends with the one [run-complete] frame. *)
Theorem stream_frames_are_bracketed cfg rq a st frames :
  (stream cfg rq a st).1 = EventStream frames → frames ≠ [] →
  (∃ e, head frames = Some e ∧ is_run_start e = true)
  ∧ (∃ e, last frames = Some e ∧ is_run_complete e = true)
  ∧ length (List.filter is_run_start frames) = 1%nat
  ∧ length (List.filter is_run_complete frames) = 1%nat.
Proof.
  intros Hs Hne.
  destruct (stream_reply cfg rq a st)
    as [E|[E|(body & status & error & runId & t1 & t2 & E & Hbs & Hbc & _)]];
    rewrite E in Hs; [discriminate|by injection Hs as <-|].
  injection Hs as <-. split; [eauto|]. split.
  { eexists. split; [by rewrite app_comm_cons, last_snoc|]. done. }
  cbn. rewrite !List.filter_app, Hbs, Hbc. done.
Qed.

Lemma stream_frames_are_bracketed_witness :
  ∃ frames,
    (stream cfg hello (answers (says [104; 105; 32; 121; 111; 117]%N)) fresh_world).1
      = EventStream frames
    ∧ length frames = 5%nat
    ∧ length (List.filter is_run_complete frames) = 1%nat.
Proof.
  eexists. split; [reflexivity|]. split; [reflexivity|].
  apply (stream_frames_are_bracketed cfg hello
           (answers (says [104; 105; 32; 121; 111; 117]%N)) fresh_world); [reflexivity|discriminate].
Defined.

(** X6. The [delta]s of the token frames of a successful streaming run,
    put together in the order sent, are the text the agent returned: words
    and white space alike, nothing lost and nothing added. *)
Theorem stream_tokens_spell_the_text cfg rq a st frames e :
  (stream cfg rq a st).1 = EventStream frames →
  last frames = Some e → (∃ ts runId, e = Event (RunComplete succeeded None) ts runId) →
  ∃ res, worker_call_stream (ra_attempt a) = inr res
         ∧ concat (token_deltas frames) = finalText res.
Proof.
  intros Hs Hlast (ts & rid & ->).
  destruct (stream_reply cfg rq a st)
    as [E|[E|(body & status & error & runId & t1 & t2 & E & _ & _ & Hcase)]];
    rewrite E in Hs; [discriminate|by injection Hs as <-|].
  injection Hs as <-. rewrite app_comm_cons, last_snoc in Hlast.
  injection Hlast as -> -> -> ->.
  destruct Hcase as [(_ & res & Hres & _ & Ht)|(? & _)]; [|done].
  exists res. split; [done|].
  rewrite app_comm_cons, token_deltas_app. cbn. by rewrite app_nil_r.
Qed.

Lemma stream_tokens_spell_the_text_witness :
  ∃ frames,
    (stream cfg hello (answers (says [32; 104; 105; 10; 10; 121; 111; 117]%N)) fresh_world).1
      = EventStream frames
    ∧ token_deltas frames = [[32]; [104; 105]; [10; 10]; [121; 111; 117]]%N.
Proof.
  eexists. split; [reflexivity|].
  destruct (stream_tokens_spell_the_text cfg hello
              (answers (says [32; 104; 105; 10; 10; 121; 111; 117]%N)) fresh_world
              _ _ eq_refl eq_refl) as (res & _ & _); [by eexists _, _|].
  reflexivity.
Defined.

End StreamProofs.

(** ** Workspace rows *)

Module WorkspaceRowProofs.

Import Scenario.

#[local] Arguments putFile : simpl never.
#[local] Arguments triggerEvidenceBuild : simpl never.
#[local] Arguments update_where : simpl never.

Lemma Forall_update_where {A} (P : A → Prop) p f (rows : list A) :
  (∀ r, P r → P (f r)) → Forall P rows → Forall P (update_where p f rows).
Proof.
  intros Hf H. unfold update_where. apply Forall_fmap. eapply Forall_impl; [done|].
  intros r Hr. simpl. destruct (p r); auto.
Qed.

Lemma Forall_update_each (P : workspace → Prop) f ids rows :
  (∀ r, P r → P (f r)) → Forall P rows → Forall P (update_each f ids rows).
Proof.
  intros Hf. revert rows. induction ids as [|i ids IH]; intros rows H; [done|].
  unfold update_each in *. simpl. apply IH. by apply Forall_update_where.
Qed.

Lemma mark_cold_consistent w : ws_consistent w → ws_consistent (mark_cold w).
Proof. intros (_ & _ & H). split; [done|]. split; [done|]. intros [=]. Qed.

Lemma mark_deleted_consistent w : ws_consistent w → ws_consistent (GC.mark_deleted w).
Proof. intros _. split; [done|]. split; [done|]. done. Qed.

Lemma mark_warm_consistent r idle active w :
  ws_consistent w → ws_consistent (mark_warm r idle active w).
Proof. intros _. split; [by eexists|]. split; done. Qed.

Lemma mark_active_consistent t active idle w :
  ws_consistent w → ws_consistent (mark_active t active idle w).
Proof. done. Qed.

Lemma exec_op_consistent cfg o st :
  Forall ws_consistent (workspaces (w_db st)) →
  Forall ws_consistent (workspaces (w_db (exec_op cfg st o))).
Proof.
  intros H.
  destruct o as [user name url newId|user id a|rq a|rq a|now|now|now|runId a]; cbn [exec_op].
  - unfold createProject. by case_match.
  - unfold open. case_match; [|done].
    assert (Forall ws_consistent
              (workspaces (w_db (evict (otherWarmWorkspaces (w_db st) user id) st)))) as H1.
    { rewrite evict_workspaces. apply Forall_update_each; [apply mark_cold_consistent|done]. }
    unfold warm_up. repeat case_match; simplify_eq; cbn; try done.
    + apply Forall_update_where; [apply mark_warm_consistent|done].
    + apply Forall_app. split; [done|]. constructor; [|done].
      split; [by eexists|]. split; done.
  - unfold message. repeat case_match; cbn;
      rewrite ?workspaces_trigger, ?workspaces_putFile; cbn;
      rewrite ?workspaces_putFile; cbn; try done.
    all: apply Forall_update_where; [apply mark_active_consistent|done].
  - unfold stream. repeat case_match; cbn;
      rewrite ?workspaces_trigger, ?workspaces_putFile; cbn;
      rewrite ?workspaces_putFile; cbn; try done.
    all: apply Forall_update_where; [apply mark_active_consistent|done].
  - unfold IdleReaper.reapIdleWorkspaces. rewrite reap_fold_workspaces.
    apply Forall_update_each; [apply mark_cold_consistent|done].
  - unfold GC.runWorkspaceGC. rewrite gc_workspaces.
    apply Forall_update_each; [apply mark_deleted_consistent|done].
  - unfold GC.runEvidenceGC. by rewrite gc_bundle_workspaces.
  - by rewrite build_workspaces.
Qed.

(** X7. A warm row has a container, a cold row has none, and a deleted row has
    no volume name: if the table starts that way, no sequence of requests
    and sweeps breaks it. *)
Theorem workspace_rows_stay_consistent cfg ops st :
  Forall ws_consistent (workspaces (w_db st)) →
  Forall ws_consistent (workspaces (w_db (exec_ops cfg ops st))).
Proof.
  unfold exec_ops. revert st. induction ops as [|o ops IH]; intros st H; simpl; [done|].
  by apply IH, exec_op_consistent.
Qed.

Lemma workspace_rows_stay_consistent_witness :
  Forall ws_consistent
    (workspaces (w_db (exec_ops cfg [OpOpen "u1" "p1" (opening (docker_fine "c1") "w1");
                                     OpOpen "u1" "p2" (opening (docker_fine "c2") "w2");
                                     OpWorkspaceGC (morning + 40 * 86400000)]
                         unopened_world))).
Proof. apply (workspace_rows_stay_consistent cfg _ unopened_world). constructor. Defined.

(** An update by the id of a row of [u] leaves the rows of the others. *)
Lemma update_other_user rows w0 f k w :
  NoDup (ws_id <$> rows) → w0 ∈ rows → rows !! k = Some w →
  ws_user_id w ≠ ws_user_id w0 →
  update_where (has_id (ws_id w0)) f rows !! k = Some w.
Proof.
  intros Hnd H0 Hk Hu. unfold update_where. rewrite list_lookup_fmap, Hk. simpl.
  destruct (has_id (ws_id w0) w) eqn:Hid; [|done]. exfalso.
  apply bool_decide_eq_true in Hid. apply Hu. f_equal.
  eapply ids_determine_rows; [done| |done|done]. by eapply list_elem_of_lookup_2.
Qed.

Lemma evict_other_user user id st k w :
  NoDup (ws_id <$> workspaces (w_db st)) →
  workspaces (w_db st) !! k = Some w → ws_user_id w ≠ user →
  workspaces (w_db (evict (otherWarmWorkspaces (w_db st) user id) st)) !! k = Some w.
Proof.
  intros Hnd Hk Hu. rewrite evict_workspaces.
  rewrite (update_each_lookup mark_cold mark_cold_id mark_cold_idem _ _ _ _ Hk).
  destruct (hit _ w) eqn:Hhit; [|done]. exfalso.
  apply existsb_exists in Hhit as (i & Hi & Hid).
  apply in_map_iff in Hi as ([i' c] & <- & Hi).
  apply in_map_iff in Hi as (w' & [= <- <-] & Hw').
  apply filter_In in Hw' as [Hw' Hother]. apply list_elem_of_In in Hw'.
  apply bool_decide_eq_true in Hid.
  assert (w = w') as <-.
  { eapply ids_determine_rows; [done| |done|done]. by eapply list_elem_of_lookup_2. }
  unfold is_other_warm in Hother. apply andb_prop in Hother as [_ Hother].
  by apply bool_decide_eq_true in Hother.
Qed.

Lemma find_warm_workspace_Some d u id w :
  find_warm_workspace d u id = Some w →
  w ∈ workspaces d ∧ ws_user_id w = u ∧ ws_project_id w = id ∧ ws_state w = warm.
Proof.
  unfold find_warm_workspace, take_first, select_where. intros H.
  assert (w ∈ List.filter (λ w, bool_decide (ws_project_id w = id) && bool_decide (ws_user_id w = u)
                               && bool_decide (ws_state w = warm)) (workspaces d)) as Hin.
  { destruct (List.filter _ _) as [|x l]; [done|]. injection H as ->. apply list_elem_of_here. }
  apply list_elem_of_In, filter_In in Hin as [Hin [[Hp Hu]%andb_prop Hs]%andb_prop].
  apply bool_decide_eq_true in Hp, Hu, Hs. split; [by apply list_elem_of_In|done].
Qed.

(** X8. A request made by one user leaves the workspace rows of every other
    user exactly as they are: an Open stops and cools only the caller's
    workspaces, and a run touches only the caller's. *)
Theorem requests_leave_other_users_rows cfg o u st k w :
  NoDup (ws_id <$> workspaces (w_db st)) →
  requested_by o = Some u →
  workspaces (w_db st) !! k = Some w → ws_user_id w ≠ u →
  workspaces (w_db (exec_op cfg st o)) !! k = Some w.
Proof.
  intros Hnd Ho Hk Hu.
  destruct o as [user name url newId|user id a|rq a|rq a|now|now|now|runId a];
    cbn [exec_op]; cbn in Ho; simplify_eq.
  - unfold createProject. by case_match.
  - unfold open. case_match; [|done].
    pose proof (evict_other_user u id st k w Hnd Hk Hu) as Hk1.
    destruct (SequentialWarmProofs.evict_rows u id st) as [HF _].
    set (st1 := evict _ st) in *.
    assert (NoDup (ws_id <$> workspaces (w_db st1))) as Hnd1.
    { by rewrite (SequentialWarmProofs.not_warmed_ids _ _ HF). }
    unfold warm_up. destruct (find_workspace (w_db st) u id) as [w0|] eqn:Hfind.
    + repeat case_match; simplify_eq; cbn; try done.
      destruct (SequentialWarmProofs.find_workspace_Some _ _ _ _ Hfind) as [Hw0 Hkey].
      destruct (SequentialWarmProofs.Forall2_image _ _ _ w0 HF Hw0) as (wt & Hwt & Hi1 & Hkt & _).
      rewrite <- Hi1. apply update_other_user; [done..|].
      unfold ws_key in *. congruence.
    + repeat case_match; simplify_eq; cbn; try done.
      by apply lookup_app_l_Some.
  - unfold message. repeat case_match; cbn;
      rewrite ?workspaces_trigger, ?workspaces_putFile; cbn;
      rewrite ?workspaces_putFile; cbn; try done.
    all: match goal with H : find_warm_workspace _ _ _ = Some _ |- _ =>
           apply find_warm_workspace_Some in H as (? & ? & _) end.
    all: apply update_other_user; [done..|congruence].
  - unfold stream. repeat case_match; cbn;
      rewrite ?workspaces_trigger, ?workspaces_putFile; cbn;
      rewrite ?workspaces_putFile; cbn; try done.
    all: match goal with H : find_warm_workspace _ _ _ = Some _ |- _ =>
           apply find_warm_workspace_Some in H as (? & ? & _) end.
    all: apply update_other_user; [done..|congruence].
Qed.

Lemma requests_leave_other_users_rows_witness :
  workspaces (w_db (exec_op cfg Tenants.shared_world
                      (OpOpen "u1" "p2" (opening (docker_fine "c2") "w2")))) !! 1%nat
  = Some Tenants.other_row.
Proof.
  apply (requests_leave_other_users_rows cfg _ "u1" Tenants.shared_world).
  - apply (bool_decide_unpack _). vm_compute. exact I.
  - reflexivity.
  - reflexivity.
  - discriminate.
Defined.

End WorkspaceRowProofs.

(** ** Open, again *)

Module OpenProofs.

Import Scenario.

#[local] Arguments update_where : simpl never.

Lemma create_success image pid url key env a t r t' :
  createWarmWorkspace image pid url key env a t = (inr r, t') →
  dk_create a = Some (containerId r)
  ∧ t' = t ++ [EnsureVolume ("ws-" +:+ pid);
               CreateContainer image (("OPENAI_API_KEY=" +:+ key)
                                        :: ((λ kv, kv.1 +:+ "=" +:+ kv.2) <$> env))
                 ("ws-" +:+ pid +:+ ":/workspace/repo");
               ContainerStart (containerId r); ContainerInspect (containerId r);
               CloneRepo (containerId r) url].
Proof.
  unfold createWarmWorkspace. repeat case_match; intros; simplify_eq. cbn.
  split; [done|]. by rewrite <- !app_assoc.
Qed.

Lemma filter_update_where (q : workspace → bool) p f rows :
  (∀ w, q (f w) = q w) →
  List.filter q (update_where p f rows) = update_where p f (List.filter q rows).
Proof.
  intros Hq. unfold update_where. induction rows as [|x rows IH]; [done|].
  rewrite fmap_cons. cbn [List.filter].
  assert (q (if p x then f x else x) = q x) as -> by (destruct (p x); auto).
  destruct (q x); [rewrite fmap_cons|]; by rewrite IH.
Qed.

Lemma find_workspace_update d u id i f w :
  (∀ x, ws_key (f x) = ws_key x) →
  find_workspace d u id = Some w →
  find_workspace (set_workspaces d (update_where (has_id i) f (workspaces d))) u id
  = Some (if has_id i w then f w else w).
Proof.
  intros Hf. unfold find_workspace, take_first, select_where. cbn.
  rewrite filter_update_where.
  - destruct (List.filter _ _); [done|]. by intros [= ->].
  - intros x. specialize (Hf x). unfold ws_key in Hf. by injection Hf as -> ->.
Qed.

Lemma find_workspace_app d u id w :
  find_workspace d u id = None → ws_key w = (u, id) →
  find_workspace (set_workspaces d (workspaces d ++ [w])) u id = Some w.
Proof.
  unfold find_workspace, take_first, select_where. cbn. intros Hnone [= Hu Hp].
  rewrite List.filter_app. destruct (List.filter _ (workspaces d)); [|done].
  cbn. by rewrite Hu, Hp, !bool_decide_eq_true_2.
Qed.

(** What a successful Open leaves: the row of the project, warm, with the
    id answered; and no other warm row of the user. *)
Lemma open_leaves cfg u id a st wid s st1 :
  NoDup (ws_id <$> workspaces (w_db st)) →
  open cfg u id a st = (Opened wid s, st1) →
  projects (w_db st1) = projects (w_db st)
  ∧ (∀ x, x ∈ workspaces (w_db st1) → is_other_warm u id x = false)
  ∧ ∃ w', find_workspace (w_db st1) u id = Some w' ∧ ws_id w' = wid ∧ ws_state w' = warm
       ∧ (truthy (ws_container_id w') = true
          ∨ ws_container_id w' = dk_create (oa_docker a)).
Proof.
  intros Hnd. unfold open.
  destruct (find_project (w_db st) u id) as [p|]; [|done].
  destruct (SequentialWarmProofs.evict_rows u id st) as [HF Hb].
  pose proof (OpenFailureProofs.evict_keeps_target u id st Hnd) as Hfind0.
  pose proof (OpenFailureProofs.evict_docker_db_projects (otherWarmWorkspaces (w_db st) u id) st)
    as Hproj.
  set (st0 := evict _ st) in *.
  assert (∀ x, x ∈ workspaces (w_db st0) → is_other_warm u id x = false) as Hb0.
  { intros x Hx. unfold is_other_warm. apply not_true_is_false.
    intros [[Hs Hp%negb_true_iff]%andb_prop Hu]%andb_prop.
    apply bool_decide_eq_true in Hs, Hu. apply bool_decide_eq_false in Hp.
    apply Hp. by apply Hb. }
  unfold warm_up. destruct (find_workspace (w_db st) u id) as [w|] eqn:Hfind.
  - destruct (bool_decide (ws_state w = warm) && truthy (ws_container_id w)) eqn:Hwarm.
    { intros [= <- <- <-]. split; [done|]. split; [done|]. exists w.
      apply andb_prop in Hwarm as [Hs%bool_decide_eq_true Ht]. eauto 10. }
    destruct (createWarmWorkspace _ _ _ _ _ _ _) as [[e|r] t] eqn:Hcreate; [done|].
    destruct (existsb _ _); [|done]. intros [= <- <- <-]. cbn.
    split; [done|]. split.
    + unfold update_where. intros x (y & -> & Hy)%list_elem_of_fmap.
      destruct (has_id (ws_id w) y) eqn:Hid; [|by apply Hb0].
      apply bool_decide_eq_true in Hid.
      destruct (SequentialWarmProofs.find_workspace_Some _ _ _ _ Hfind0) as [Hw0 Hkey].
      assert (y = w) as -> by by eapply ids_determine_rows;
        [by rewrite (SequentialWarmProofs.not_warmed_ids _ _ HF)|..].
      unfold is_other_warm, ws_key in *. cbn. injection Hkey as _ ->.
      by rewrite (bool_decide_eq_true_2 (id = id)), andb_false_r.
    + eexists. split.
      { apply (find_workspace_update (w_db st0)); [done|exact Hfind0]. }
      unfold has_id. rewrite bool_decide_eq_true_2 by done. cbn.
      split; [done|]. split; [done|]. right.
      by destruct (create_success _ _ _ _ _ _ _ _ _ Hcreate) as [-> _].
  - destruct (createWarmWorkspace _ _ _ _ _ _ _) as [[e|r] t] eqn:Hcreate; [done|].
    destruct (existsb _ _); [done|]. intros [= <- <- <-]. cbn.
    split; [done|]. split.
    + intros x [Hx| ->%list_elem_of_singleton]%elem_of_app; [by apply Hb0|].
      unfold is_other_warm. cbn.
      by rewrite (bool_decide_eq_true_2 (id = id)), andb_false_r.
    + eexists. split.
      { apply (find_workspace_app (w_db st0)); [exact Hfind0|done]. }
      cbn. split; [done|]. split; [done|]. right.
      by destruct (create_success _ _ _ _ _ _ _ _ _ Hcreate) as [-> _].
Qed.

(** X9. Open is idempotent. After an Open that succeeded, a second Open of
    the same project by the same user answers the same workspace id, warm,
    and changes nothing: no row is touched and Docker is not called. (The
    container id Docker gave is taken to be a non-empty string.) *)
Theorem open_twice_is_open_once cfg u id a a' st wid s st1 :
  NoDup (ws_id <$> workspaces (w_db st)) →
  (∀ c, dk_create (oa_docker a) = Some c → c ≠ EmptyString) →
  open cfg u id a st = (Opened wid s, st1) →
  open cfg u id a' st1 = (Opened wid warm, st1).
Proof.
  intros Hnd Hcid Hopen.
  destruct (open_leaves cfg u id a st wid s st1 Hnd Hopen)
    as (Hproj & Hothers & w' & Hfind & Hid & Hs & Hc).
  assert (find_project (w_db st1) u id = find_project (w_db st) u id) as Hp.
  { unfold find_project. by rewrite Hproj. }
  assert (is_Some (find_project (w_db st) u id)) as [p Hp'].
  { revert Hopen. unfold open. destruct (find_project (w_db st) u id); [eauto|done]. }
  unfold open. rewrite Hp, Hp', Hfind.
  assert (otherWarmWorkspaces (w_db st1) u id = []) as ->.
  { unfold otherWarmWorkspaces, select_where.
    by rewrite SequentialWarmProofs.filter_none. }
  cbn. unfold warm_up. rewrite Hs, bool_decide_eq_true_2 by done. cbn.
  assert (truthy (ws_container_id w') = true) as ->.
  { destruct Hc as [?|Hc]; [done|]. rewrite Hc.
    destruct (dk_create (oa_docker a)) as [c|] eqn:Hd.
    - cbn. apply negb_true_iff, bool_decide_eq_false. by apply Hcid.
    - revert Hopen. unfold open, warm_up, createWarmWorkspace. rewrite Hp', Hd.
      pose proof (OpenFailureProofs.evict_keeps_target u id st Hnd) as Hk.
      destruct (find_workspace (w_db st) u id) as [w|] eqn:Hw; [|done].
      destruct (_ && _) eqn:Hwarm; [|done]. intros [= <- <- <-].
      rewrite Hk in Hfind. injection Hfind as ->.
      rewrite Hc in Hwarm. by apply andb_prop in Hwarm as [_ ?]. }
  by rewrite Hid.
Qed.

Lemma open_twice_is_open_once_witness :
  open cfg "u1" "p1" (opening (docker_fine "c9") "w9")
       (open cfg "u1" "p1" (opening (docker_fine "c2") "w2") sleeping_world).2
  = (Opened "w1" warm, (open cfg "u1" "p1" (opening (docker_fine "c2") "w2") sleeping_world).2).
Proof.
  apply (open_twice_is_open_once cfg "u1" "p1" (opening (docker_fine "c2") "w2") _
           sleeping_world "w1" warm).
  - apply (bool_decide_unpack _). vm_compute. exact I.
  - intros c [= <-]. discriminate.
  - reflexivity.
Defined.

(** X10. Open resumes a workspace that is not warm. When it succeeds on an
    existing row, Docker is asked for the volume [ws-<project>] and a
    container with that volume bound at [/workspace/repo], the thread id of
    the row is handed to the container as [CODEX_THREAD_ID], and the row
    comes back warm with the new container, under the same id and with its
    volume name and thread id as they were. (A row that the retention sweep
    had marked deleted thus comes back warm with no volume name.) *)
Theorem open_resumes_workspace cfg u id a st p w wid s :
  NoDup (ws_id <$> workspaces (w_db st)) →
  find_project (w_db st) u id = Some p →
  find_workspace (w_db st) u id = Some w →
  bool_decide (ws_state w = warm) && truthy (ws_container_id w) = false →
  (open cfg u id a st).1 = Opened wid s →
  wid = ws_id w ∧ s = warm
  ∧ ∃ cid env t,
      dk_create (oa_docker a) = Some cid
      ∧ w_docker (open cfg u id a st).2
        = t ++ [EnsureVolume ("ws-" +:+ id);
                CreateContainer (cfg_image cfg) env ("ws-" +:+ id +:+ ":/workspace/repo");
                ContainerStart cid; ContainerInspect cid; CloneRepo cid (pr_repo_url p)]
      ∧ (∀ th, ws_thread_id w = Some th → th ≠ EmptyString → "CODEX_THREAD_ID=" +:+ th ∈ env)
      ∧ ∃ w', find_workspace (w_db (open cfg u id a st).2) u id = Some w'
          ∧ ws_id w' = ws_id w ∧ ws_state w' = warm ∧ ws_container_id w' = Some cid
          ∧ ws_volume_name w' = ws_volume_name w ∧ ws_thread_id w' = ws_thread_id w.
Proof.
  intros Hnd Hp Hw Hcold. unfold open. rewrite Hp, Hw.
  pose proof (OpenFailureProofs.evict_keeps_target u id st Hnd) as Hfind0.
  rewrite Hw in Hfind0.
  set (st0 := evict _ st) in *.
  unfold warm_up. rewrite Hcold.
  destruct (createWarmWorkspace _ _ _ _ _ _ _) as [[e|r] t] eqn:Hcreate; [done|].
  destruct (existsb _ _); [|done]. cbn. intros [= <- <-]. split; [done|]. split; [done|].
  destruct (create_success _ _ _ _ _ _ _ _ _ Hcreate) as [Hc ->].
  eexists _, _, _. split; [exact Hc|]. split; [reflexivity|]. split.
  - intros th Hth Hne. apply list_elem_of_further, list_elem_of_fmap.
    exists ("CODEX_THREAD_ID", th). split; [done|].
    unfold envVars_of. apply elem_of_app. right. rewrite Hth. cbn.
    rewrite bool_decide_eq_false_2 by done. cbn. apply list_elem_of_here.
  - eexists. split.
    { apply (find_workspace_update (w_db st0)); [done|exact Hfind0]. }
    unfold has_id. rewrite bool_decide_eq_true_2 by done. done.
Qed.

Lemma open_resumes_workspace_witness :
  ∃ w', find_workspace (w_db (open cfg "u1" "p1" (opening (docker_fine "c2") "w9")
                                sleeping_world).2) "u1" "p1" = Some w'
        ∧ ws_id w' = "w1" ∧ ws_state w' = warm ∧ ws_container_id w' = Some "c2"
        ∧ ws_volume_name w' = Some "ws-p1" ∧ ws_thread_id w' = Some "thread-1".
Proof.
  destruct (open_resumes_workspace cfg "u1" "p1" (opening (docker_fine "c2") "w9") sleeping_world
              (Project "p1" "u1" "demo" "https://github.com/octocat/Hello-World.git")
              cold_row "w1" warm)
    as (_ & _ & cid & env & t & Hc & _ & _ & w' & Hw' & H);
    [apply (bool_decide_unpack _); vm_compute; exact I
    | reflexivity | reflexivity | reflexivity | reflexivity |].
  injection Hc as <-. exists w'. split; [exact Hw'|exact H].
Defined.

End OpenProofs.

(** ** The sweeps *)

Module SweepProofs.

Import IdleReaper GC Scenario.

#[local] Arguments update_where : simpl never.

(** *** What a sweep selects and what it leaves *)

Lemma hit_selected {B} (sel : workspace → bool) (col : workspace → B) rows w :
  NoDup (ws_id <$> rows) → w ∈ rows →
  hit (fst <$> ((λ w, (ws_id w, col w)) <$> select_where sel rows)) w = true →
  sel w = true.
Proof.
  intros Hnd Hw Hhit. apply existsb_exists in Hhit as (i & Hi & Hid).
  apply in_map_iff in Hi as ([i' c] & <- & Hi).
  apply in_map_iff in Hi as (w' & [= <- <-] & Hw').
  apply filter_In in Hw' as [Hw' Hsel]. apply list_elem_of_In in Hw'.
  apply bool_decide_eq_true in Hid.
  by assert (w = w') as -> by by eapply ids_determine_rows.
Qed.


Lemma truthy_ids_hit l w : hit (truthy_ids l) w = true → hit (fst <$> l) w = true.
Proof.
  unfold hit, truthy_ids. intros (i & Hi & Hid)%existsb_exists. apply existsb_exists.
  exists i. split; [|done]. apply in_map_iff in Hi as (p & <- & Hp).
  apply filter_In in Hp as [Hp _]. apply in_map_iff. eauto.
Qed.

Lemma gc_lookup ttl now st k w :
  workspaces (w_db st) !! k = Some w →
  workspaces (w_db (runWorkspaceGC ttl now st)) !! k
  = Some (if hit (fst <$> ((λ w, (ws_id w, ws_volume_name w)) <$>
                    select_where (is_expired_cold (now - ttl * day_ms)) (workspaces (w_db st)))) w
          then mark_deleted w else w).
Proof.
  intros H. unfold runWorkspaceGC. rewrite gc_workspaces.
  by apply update_each_lookup.
Qed.





(** X12. The sweeps spare the rest. When ids are unique, the idle reaper leaves
    every row that is not warm and past its idle deadline exactly as it is,
    and the retention sweep leaves every row that is not cold and expired:
    a workspace in use keeps its container, and a workspace that went cold
    recently keeps its volume. *)
Theorem sweeps_spare_the_rest ttl now st k w :
  NoDup (ws_id <$> workspaces (w_db st)) →
  workspaces (w_db st) !! k = Some w →
  (is_idle now w = false →
   workspaces (w_db (reapIdleWorkspaces now st)) !! k = Some w)
  ∧ (is_expired_cold (now - ttl * day_ms) w = false →
     workspaces (w_db (runWorkspaceGC ttl now st)) !! k = Some w).
Proof.
  intros Hnd Hk. pose proof (list_elem_of_lookup_2 _ _ _ Hk) as Hw. split; intros Hsel.
  - rewrite (ReaperProofs.reap_lookup now st k w Hk).
    destruct (hit _ w) eqn:Hhit; [|done].
    apply truthy_ids_hit, hit_selected in Hhit; [congruence|done..].
  - rewrite (gc_lookup ttl now st k w Hk).
    destruct (hit _ w) eqn:Hhit; [|done].
    apply hit_selected in Hhit; [congruence|done..].
Qed.

Lemma sweeps_spare_the_rest_witness :
  workspaces (w_db (reapIdleWorkspaces (morning + 1000) Tenants.shared_world)) !! 1%nat
  = Some Tenants.other_row.
Proof.
  apply (sweeps_spare_the_rest 30 (morning + 1000) Tenants.shared_world 1 Tenants.other_row).
  - apply (bool_decide_unpack _). vm_compute. exact I.
  - reflexivity.
  - vm_compute. reflexivity.
Defined.

(** *** Sweeping twice *)





Lemma gc_bundle_rows l st :
  evidence_bundles (w_db (fold_left gc_bundle l st))
  = (λ b, if hitb (fst <$> l) b then mark_bundle_deleted b else b) <$> evidence_bundles (w_db st).
Proof.
  revert st. induction l as [|[i p] l IH]; intros st; cbn [fold_left].
  - rewrite <- (list_fmap_id (evidence_bundles (w_db st))) at 1. done.
  - rewrite IH. cbn. unfold update_where. rewrite <- list_fmap_compose.
    apply list_fmap_ext. intros k b _. cbn. unfold hitb. cbn.
    destruct (bool_decide (eb_id b = i)); cbn; [|done].
    by destruct (existsb _ _).
Qed.


Lemma gc_bundles ttl now st :
  evidence_bundles (w_db (runWorkspaceGC ttl now st)) = evidence_bundles (w_db st).
Proof.
  unfold runWorkspaceGC. cbv zeta. generalize ((λ w, (ws_id w, ws_volume_name w)) <$>
    select_where (is_expired_cold (now - ttl * day_ms)) (workspaces (w_db st))).
  intros l. revert st. induction l as [|[i c] l IH]; intros st; cbn [fold_left]; [done|].
  rewrite IH. unfold gc_one. cbn. by repeat case_match.
Qed.





End SweepProofs.

(** ** Evidence bundles *)

Module EvidenceProofs.

Import EvidenceBuilder GC Scenario.

#[local] Arguments putFile : simpl never.
#[local] Arguments update_where : simpl never.

(** *** The rows *)

Lemma trigger_bundles runId user id wsId newId now st :
  evidence_bundles (w_db (triggerEvidenceBuild runId user id wsId newId now st))
  = evidence_bundles (w_db st)
  ∨ existsb (for_run runId) (evidence_bundles (w_db st)) = false
    ∧ evidence_bundles (w_db (triggerEvidenceBuild runId user id wsId newId now st))
      = evidence_bundles (w_db st)
        ++ [EvidenceBundle newId runId user id wsId pending None None now now].
Proof.
  unfold triggerEvidenceBuild. destruct (existsb (for_run runId) _) eqn:H; [by left|].
  destruct (existsb (λ b, bool_decide (eb_id b = newId)) _); [by left|]. by right.
Qed.

Lemma bundles_putFile cid path content ok st :
  evidence_bundles (w_db (putFile cid path content ok st)) = evidence_bundles (w_db st).
Proof. unfold putFile. by destruct ok. Qed.

Lemma evict_bundles others st :
  evidence_bundles (w_db (evict others st)) = evidence_bundles (w_db st).
Proof.
  unfold evict. revert st. induction others as [|[i c] others IH]; intros st; simpl; [done|].
  rewrite IH. unfold evict_one. simpl. by repeat case_match.
Qed.

Lemma open_bundles cfg user id a st :
  evidence_bundles (w_db (open cfg user id a st).2) = evidence_bundles (w_db st).
Proof.
  unfold open. destruct (find_project _ _ _); [|done].
  unfold warm_up. repeat case_match; simplify_eq; cbn; by rewrite ?evict_bundles.
Qed.

Lemma reap_bundles now st :
  evidence_bundles (w_db (IdleReaper.reapIdleWorkspaces now st)) = evidence_bundles (w_db st).
Proof.
  unfold IdleReaper.reapIdleWorkspaces.
  generalize ((λ w, (ws_id w, ws_container_id w)) <$>
                select_where (IdleReaper.is_idle now) (workspaces (w_db st))).
  intros l. revert st. induction l as [|[i c] l IH]; intros st; simpl; [done|].
  rewrite IH. unfold IdleReaper.reap_one. simpl. by repeat case_match.
Qed.

(** What a run handler does to the bundles table: nothing, or one pending
    row for its run, which had none. *)
Lemma message_bundles cfg rq a st :
  evidence_bundles (w_db (message cfg rq a st).2) = evidence_bundles (w_db st)
  ∨ ∃ w, find_warm_workspace (w_db st) (rq_user rq) (rq_id rq) = Some w
       ∧ existsb (for_run (ra_run_id a)) (evidence_bundles (w_db st)) = false
       ∧ evidence_bundles (w_db (message cfg rq a st).2)
         = evidence_bundles (w_db st)
           ++ [EvidenceBundle (ra_bundle_id a) (ra_run_id a) (rq_user rq) (rq_id rq) (ws_id w)
                 pending None None (ra_bundle_now a) (ra_bundle_now a)].
Proof.
  unfold message.
  destruct (negb _); [by left|].
  destruct (find_warm_workspace _ _ _) as [w|] eqn:Hw; [|by left].
  destruct (ws_container_id w) as [cid|] eqn:Hc; [|by left].
  destruct (negb (truthy _)); [by left|].
  destruct (existsb _ _) eqn:Hfresh; [by left|].
  destruct (ra_addr_error a); [by left|].
  destruct (worker_call _) as [msg|res]; cbn [snd].
  all: match goal with |- context [triggerEvidenceBuild ?r ?u ?i ?ws ?n ?t ?s] =>
         destruct (trigger_bundles r u i ws n t s) as [E|[Hnone E]]; rewrite E end.
  all: rewrite ?bundles_putFile in *; cbn in *; rewrite ?bundles_putFile in *; cbn in *.
  all: first [by left | right; by exists w].
Qed.

Lemma stream_bundles cfg rq a st :
  evidence_bundles (w_db (stream cfg rq a st).2) = evidence_bundles (w_db st)
  ∨ ∃ w, find_warm_workspace (w_db st) (rq_user rq) (rq_id rq) = Some w
       ∧ existsb (for_run (ra_run_id a)) (evidence_bundles (w_db st)) = false
       ∧ evidence_bundles (w_db (stream cfg rq a st).2)
         = evidence_bundles (w_db st)
           ++ [EvidenceBundle (ra_bundle_id a) (ra_run_id a) (rq_user rq) (rq_id rq) (ws_id w)
                 pending None None (ra_bundle_now a) (ra_bundle_now a)].
Proof.
  unfold stream.
  destruct (negb _); [by left|].
  destruct (find_warm_workspace _ _ _) as [w|] eqn:Hw; [|by left].
  destruct (ws_container_id w) as [cid|] eqn:Hc; [|by left].
  destruct (negb (truthy _)); [by left|].
  destruct (existsb _ _) eqn:Hfresh; [by left|].
  destruct (ra_addr_error a); [by left|].
  destruct (worker_call_stream _) as [msg|res]; cbn [snd].
  all: match goal with |- context [triggerEvidenceBuild ?r ?u ?i ?ws ?n ?t ?s] =>
         destruct (trigger_bundles r u i ws n t s) as [E|[Hnone E]]; rewrite E end.
  all: rewrite ?bundles_putFile in *; cbn in *; rewrite ?bundles_putFile in *; cbn in *.
  all: first [by left | right; by exists w].
Qed.

(** The builder rewrites the rows of its run and no others, and never the
    columns that say whose bundle it is. *)
Lemma build_bundles root runId a st :
  ∃ f, evidence_bundles (w_db (buildBundle root runId a st))
       = update_where (for_run runId) f (evidence_bundles (w_db st))
       ∧ ((∃ zip now, f = mark_ready zip now ∧ zip = zipFilePath root runId ∧ now = ba_now a)
          ∨ ∃ m now, f = mark_error m now).
Proof.
  unfold buildBundle, on_error, update_bundle.
  destruct (take_first _ (runs _)) as [r|]; [|eexists; split; [done|right; eauto]].
  destruct (take_first _ (workspaces _)) as [ws|]; [|eexists; split; [done|right; eauto]].
  destruct (truthy _); [|eexists; split; [done|right; eauto]].
  destruct (assemble root runId r a st) as [[e|[]] st'] eqn:Ha.
  - assert (evidence_bundles (w_db st') = evidence_bundles (w_db st)) as <-.
    { revert Ha. unfold assemble. repeat case_match; intros; simplify_eq; done. }
    eexists; split; [done|right; eauto].
  - exists (mark_ready (zipFilePath root runId) (ba_now a)). split; [|left; eauto].
    revert Ha. unfold assemble, update_bundle. repeat case_match; intros; simplify_eq; done.
Qed.

(** One operation maps the rows it finds, keeping their keys, and adds at
    most one row, for a run that had none and is in the runs table. *)
Lemma exec_op_bundles cfg o st :
  ∃ g more,
    evidence_bundles (w_db (exec_op cfg st o)) = (g <$> evidence_bundles (w_db st)) ++ more
    ∧ (∀ b, bundle_key (g b) = bundle_key b)
    ∧ (more = []
       ∨ ∃ b r, more = [b] ∧ (eb_run_id b ∉ eb_run_id <$> evidence_bundles (w_db st))
                ∧ r ∈ runs (w_db (exec_op cfg st o)) ∧ bundle_of r b).
Proof.
  assert (∀ l : list evidence_bundle, l = (Datatypes.id <$> l) ++ []) as Hid.
  { intros l. by rewrite list_fmap_id, app_nil_r. }
  destruct o as [user name url newId|user id a|rq a|rq a|now|now|now|runId a]; cbn [exec_op].
  - exists Datatypes.id, []. split; [|by split; [|left]]. unfold createProject. case_match; apply Hid.
  - exists Datatypes.id, []. rewrite open_bundles. eauto.
  - destruct (message_bundles cfg rq a st) as [E|(w & Hw & Hnone & E)]; rewrite E.
    { exists Datatypes.id, []. eauto. }
    exists Datatypes.id. eexists. rewrite list_fmap_id. split; [done|]. split; [done|]. right.
    destruct (RunRowProofs.message_runs cfg rq a st) as [Er|(w' & f & Hw' & _ & Hf & Er)].
    { exfalso. revert E Er. unfold message. rewrite Hw.
      repeat case_match; cbn; rewrite ?runs_trigger, ?runs_putFile; cbn;
        rewrite ?runs_putFile; cbn; intros E Er;
        try (apply (f_equal length) in E; rewrite ?length_app in E; cbn in E; lia);
        try (apply (f_equal length) in Er; unfold update_where in Er;
             rewrite ?length_fmap, ?length_app in Er; cbn in Er; lia). }
    rewrite Hw in Hw'. injection Hw' as <-.
    eexists _, _. split; [done|]. split.
    { intros Hold. apply list_elem_of_fmap in Hold as (b & Hb & Hin).
      apply not_true_iff_false in Hnone.
      apply Hnone, existsb_exists. exists b. split; [by apply list_elem_of_In|].
      by apply bool_decide_eq_true. }
    split; [rewrite Er; apply elem_of_app; right; apply list_elem_of_here|].
    destruct Hf; done.
  - destruct (stream_bundles cfg rq a st) as [E|(w & Hw & Hnone & E)]; rewrite E.
    { exists Datatypes.id, []. eauto. }
    exists Datatypes.id. eexists. rewrite list_fmap_id. split; [done|]. split; [done|]. right.
    destruct (RunRowProofs.stream_runs cfg rq a st) as [Er|(w' & f & Hw' & _ & Hf & Er)].
    { exfalso. revert E Er. unfold stream. rewrite Hw.
      repeat case_match; cbn; rewrite ?runs_trigger, ?runs_putFile; cbn;
        rewrite ?runs_putFile; cbn; intros E Er;
        try (apply (f_equal length) in E; rewrite ?length_app in E; cbn in E; lia);
        try (apply (f_equal length) in Er; unfold update_where in Er;
             rewrite ?length_fmap, ?length_app in Er; cbn in Er; lia). }
    rewrite Hw in Hw'. injection Hw' as <-.
    eexists _, _. split; [done|]. split.
    { intros Hold. apply list_elem_of_fmap in Hold as (b & Hb & Hin).
      apply not_true_iff_false in Hnone.
      apply Hnone, existsb_exists. exists b. split; [by apply list_elem_of_In|].
      by apply bool_decide_eq_true. }
    split; [rewrite Er; apply elem_of_app; right; apply list_elem_of_here|].
    destruct Hf; done.
  - exists Datatypes.id, []. rewrite reap_bundles. eauto.
  - exists Datatypes.id, []. rewrite SweepProofs.gc_bundles. eauto.
  - eexists _, []. unfold runEvidenceGC. rewrite SweepProofs.gc_bundle_rows, app_nil_r.
    split; [done|]. split; [|by left]. intros b. by destruct (hitb _ b).
  - destruct (build_bundles (cfg_evidence_root cfg) runId a st) as (f & -> & Hf).
    eexists _, []. rewrite app_nil_r. split; [done|]. split; [|by left].
    intros b. cbn. destruct (for_run runId b); [|done].
    destruct Hf as [(? & ? & -> & _)|(? & ? & ->)]; done.
Qed.

Lemma exec_op_bundles_sound cfg o st :
  bundles_sound (w_db st) → bundles_sound (w_db (exec_op cfg st o)).
Proof.
  intros [Hnd Hruns].
  destruct (exec_op_bundles cfg o st) as (g & more & E & Hg & Hmore).
  assert (∀ b, eb_run_id (g b) = eb_run_id b) as Hrun.
  { intros b. specialize (Hg b). unfold bundle_key in Hg. by injection Hg. }
  assert (eb_run_id <$> (g <$> evidence_bundles (w_db st))
          = eb_run_id <$> evidence_bundles (w_db st)) as Hids.
  { rewrite <- list_fmap_compose. apply list_fmap_ext. intros ? b _. apply Hrun. }
  assert (∀ r, r ∈ runs (w_db st) → r ∈ runs (w_db (exec_op cfg st o))) as Hkeep.
  { intros r Hr.
    destruct (RunRowProofs.exec_op_runs cfg o st) as [->|(? & ? & ? & ? & _ & _ & _ & _ & ->)];
      [done|]. apply elem_of_app. by left. }
  split.
  - rewrite E, fmap_app, Hids.
    destruct Hmore as [->|(b & r & -> & Hnew & _)]; [by rewrite app_nil_r|].
    apply NoDup_app. split; [done|]. split; [|apply NoDup_singleton].
    by intros x Hx ->%list_elem_of_singleton.
  - rewrite E. intros b [(b0 & -> & Hb0)%list_elem_of_fmap|Hb]%elem_of_app.
    + destruct (Hruns b0 Hb0) as (r & Hr & Hof). exists r. split; [by apply Hkeep|].
      specialize (Hg b0). unfold bundle_key in Hg. injection Hg as ? ? ? ? ?.
      destruct Hof as (? & ? & ? & ?). unfold bundle_of. repeat split; congruence.
    + destruct Hmore as [->|(b1 & r & -> & _ & Hr & Hof)]; [by apply elem_of_nil in Hb|].
      apply list_elem_of_singleton in Hb as ->. eauto.
Qed.

(** X14. One bundle per run, and every bundle the bundle of a run. If the
    bundles table starts with at most one row per run, each naming the
    user, project and workspace of its Run row, no sequence of requests,
    sweeps and builds breaks that. *)
Theorem bundles_stay_sound cfg ops st :
  bundles_sound (w_db st) → bundles_sound (w_db (exec_ops cfg ops st)).
Proof.
  unfold exec_ops. revert st. induction ops as [|o ops IH]; intros st H; simpl; [done|].
  by apply IH, exec_op_bundles_sound.
Qed.

Lemma bundles_stay_sound_witness :
  bundles_sound (w_db (exec_ops cfg [OpMessage hello (answers (says [111; 107]%N));
                                     OpBuild "r3" all_fine;
                                     OpEvidenceGC (morning + 200 * 86400000)] fresh_world)).
Proof.
  apply (bundles_stay_sound cfg _ fresh_world). split; [constructor|].
  intros b Hb. by apply elem_of_nil in Hb.
Defined.

(** *** The builder *)

(** X15. A build settles the bundle of its run. Whatever happens during the
    build, every bundle row of the run ends up [ready] or [error], never
    [pending]; the rows of other runs, the Run rows and the workspace rows
    are as they were. *)
Theorem build_settles_the_bundle root runId a st :
  (∀ b, b ∈ evidence_bundles (w_db (buildBundle root runId a st)) → eb_run_id b = runId →
        eb_status b = ready ∨ eb_status b = bundle_error)
  ∧ (∀ k b, evidence_bundles (w_db st) !! k = Some b → eb_run_id b ≠ runId →
            evidence_bundles (w_db (buildBundle root runId a st)) !! k = Some b)
  ∧ runs (w_db (buildBundle root runId a st)) = runs (w_db st)
  ∧ workspaces (w_db (buildBundle root runId a st)) = workspaces (w_db st).
Proof.
  destruct (build_bundles root runId a st) as (f & -> & Hf).
  split; [|split; [|split; [apply RunRowProofs.build_runs|apply build_workspaces]]].
  - unfold update_where. intros b (b0 & -> & Hb0)%list_elem_of_fmap.
    destruct (for_run runId b0) eqn:Hfor.
    + intros _. destruct Hf as [(? & ? & -> & _)|(? & ? & ->)]; cbn; eauto.
    + intros Hrun. unfold for_run in Hfor. by apply bool_decide_eq_false in Hfor.
  - intros k b Hk Hne. unfold update_where. rewrite list_lookup_fmap, Hk. cbn.
    unfold for_run. by rewrite bool_decide_eq_false_2.
Qed.

Lemma take_first_stronger {A} (p q : A → bool) rows r :
  take_first p rows = Some r → q r = true →
  take_first (λ x, p x && q x) rows = Some r.
Proof.
  unfold take_first, select_where. induction rows as [|x rows IH]; [done|]. cbn.
  destruct (p x) eqn:Hp; cbn.
  - intros [= ->] ->. done.
  - auto.
Qed.

Lemma take_first_update {A} (p : A → bool) f rows r :
  (∀ x, p (f x) = p x) → take_first p rows = Some r →
  take_first p (update_where p f rows) = Some (f r).
Proof.
  intros Hf. unfold take_first, select_where, update_where.
  induction rows as [|x rows IH]; [done|]. rewrite fmap_cons. cbn.
  destruct (p x) eqn:Hp; cbn.
  - rewrite Hf, Hp. by intros [= ->].
  - rewrite Hp. auto.
Qed.

Lemma temp_not_above_zip root runId :
  ¬ tempDir root runId `prefix_of` zipFilePath root runId.
Proof.
  intros Hpre%prefix_length. unfold tempDir, zipFilePath in Hpre.
  rewrite !length_app in Hpre. cbn in Hpre. lia.
Qed.

(** What a build that meets no failure leaves on disk and in the row. *)
Lemma assemble_success root runId r a st :
  ba_archive a = None → ba_untar a = None → ba_copy a = None → ba_zip a = None →
  ∃ st', assemble root runId r a st = (inr (), st')
         ∧ zipFilePath root runId ∈ w_fs st'
         ∧ (∀ q, tempDir root runId `prefix_of` q → q ∉ w_fs st')
         ∧ evidence_bundles (w_db st')
           = update_where (for_run runId) (mark_ready (zipFilePath root runId) (ba_now a))
               (evidence_bundles (w_db st))
         ∧ runs (w_db st') = runs (w_db st).
Proof.
  intros Ha Hu Hc Hz. unfold assemble. rewrite Ha, Hu, Hc, Hz.
  assert (∀ fs, zipFilePath root runId
                ∈ rm_rf (tempDir root runId) (writeFile (zipFilePath root runId) fs)) as Hzip.
  { intros fs. unfold rm_rf, writeFile. apply elem_of_filter.
    split; [apply temp_not_above_zip|]. apply elem_of_union_l, elem_of_singleton. done. }
  assert (∀ fs q, tempDir root runId `prefix_of` q → q ∉ rm_rf (tempDir root runId) fs) as Hgone.
  { intros fs q Hq [Hn _]%elem_of_filter. by apply Hn. }
  destruct (ba_items a) as [|[name [below|]] items]; eexists; (split; [done|]); cbn; eauto.
Qed.

(** X16. A build that meets no failure publishes the bundle. For a run whose
    workspace still has its container, when the archive, the extraction,
    the copy and the zip all go through, the file [<root>/<run>.zip] is on
    disk, nothing is left under the staging directory, every bundle row of
    the run is [ready] with that path, and the owner of the run, asking for
    the evidence, is sent that file. *)
Theorem successful_build_publishes_bundle root runId a st r ws :
  take_first (λ r, bool_decide (run_id r = runId)) (runs (w_db st)) = Some r →
  take_first (has_id (run_workspace_id r)) (workspaces (w_db st)) = Some ws →
  truthy (ws_container_id ws) = true →
  ba_archive a = None → ba_untar a = None → ba_copy a = None → ba_zip a = None →
  zipFilePath root runId ∈ w_fs (buildBundle root runId a st)
  ∧ (∀ q, tempDir root runId `prefix_of` q → q ∉ w_fs (buildBundle root runId a st))
  ∧ (∀ b, b ∈ evidence_bundles (w_db (buildBundle root runId a st)) → eb_run_id b = runId →
          eb_status b = ready ∧ eb_bundle_path b = Some (zipFilePath root runId)
          ∧ eb_updated_at b = ba_now a)
  ∧ (existsb (for_run runId) (evidence_bundles (w_db st)) = true →
     Api.getEvidence (run_user_id r) runId (buildBundle root runId a st)
     = Api.ZipStream (zipFilePath root runId)).
Proof.
  intros Hr Hws Hc Ha Hu Hcp Hz. unfold buildBundle. rewrite Hr, Hws, Hc.
  destruct (assemble_success root runId r a st Ha Hu Hcp Hz)
    as (st' & -> & Hzip & Htemp & Hrows & Hruns).
  split; [done|]. split; [done|]. split.
  - rewrite Hrows. unfold update_where. intros b (b0 & -> & Hb0)%list_elem_of_fmap.
    unfold for_run. case_bool_decide; [done|]. intros; congruence.
  - intros Hsome. unfold Api.getEvidence. rewrite Hruns.
    rewrite (take_first_stronger _ (λ x, bool_decide (run_user_id x = run_user_id r)) _ r Hr)
      by by apply bool_decide_eq_true.
    assert (∃ b, take_first (for_run runId) (evidence_bundles (w_db st)) = Some b) as [b Hb].
    { unfold take_first, select_where. apply existsb_exists in Hsome as (b & Hin & Hb).
      assert (In b (List.filter (for_run runId) (evidence_bundles (w_db st)))) as Hf
        by (apply filter_In; done).
      destruct (List.filter _ _) as [|x l]; [done|]. by exists x. }
    rewrite Hrows, (take_first_update _ _ _ b) by done. cbn.
    unfold zipFilePath in *. destruct (root ++ [runId +:+ ".zip"]) as [|c p] eqn:Hp.
    { by destruct root. }
    unfold existsSync. by rewrite bool_decide_eq_true_2.
Qed.

Lemma successful_build_publishes_bundle_witness :
  Api.getEvidence "u1" "r3" (buildBundle ["evidence"] "r3" all_fine after_run)
  = Api.ZipStream ["evidence"; "r3.zip"].
Proof.
  destruct (successful_build_publishes_bundle ["evidence"] "r3" all_fine after_run
              (mark_succeeded (WorkerResult [111; 107]%N [] "thread-1" None) warm_row
                 (morning + 50) 50 (new_run "r3" "u1" "p1" warm_row [104; 105]%N (morning + 1)))
              (mark_active "thread-1" (morning + 53) (morning + 52 + 1200000) warm_row))
    as (_ & _ & _ & Hserve);
    [reflexivity | reflexivity | reflexivity | reflexivity | reflexivity | reflexivity
    | reflexivity |].
  apply Hserve. reflexivity.
Defined.

(** *** Retention *)





End EvidenceProofs.

(** ** The read-only routes *)

Module ApiProofs.

Import Api Scenario.

#[local] Instance later_first_total : Total later_first.
Proof. intros r1 r2. unfold later_first. lia. Qed.

#[local] Instance later_first_trans : Transitive later_first.
Proof. intros r1 r2 r3. unfold later_first. lia. Qed.

Lemma take_first_Some {A} (p : A → bool) rows r :
  take_first p rows = Some r → r ∈ rows ∧ p r = true.
Proof.
  unfold take_first, select_where. intros H.
  assert (In r (List.filter p rows)) as Hin.
  { destruct (List.filter p rows); [done|]. injection H as ->. by left. }
  apply filter_In in Hin as [Hin Hp]. split; [by apply list_elem_of_In|done].
Qed.


Lemma sorted_summaries l :
  StronglySorted later_first l →
  StronglySorted (λ s1 s2, rs_started_at s2 ≤ rs_started_at s1) (summary <$> l).
Proof.
  induction 1 as [|r l Hl IH Hr]; [constructor|]. rewrite fmap_cons. constructor; [done|].
  apply Forall_fmap. eapply Forall_impl; [exact Hr|]. done.
Qed.

(** X18. The run history of a project. When [GET /projects/:id/runs] answers
    with a list, the project is the caller's; the list has at most 50
    entries, all of them runs of that project, the most recently started
    first; a run of the project that is missing from it started no later
    than every run listed; and nothing is missing when the project has at
    most 50 runs. *)
Theorem run_history_is_the_latest_fifty user id d listed :
  listRuns user id d = RunList listed →
  (∃ p, p ∈ projects d ∧ pr_id p = id ∧ pr_user_id p = user)
  ∧ (length listed ≤ 50)%nat
  ∧ StronglySorted (λ s1 s2, rs_started_at s2 ≤ rs_started_at s1) listed
  ∧ (∀ s, s ∈ listed → ∃ r, r ∈ runs d ∧ run_project_id r = id ∧ s = summary r)
  ∧ (∀ r, r ∈ runs d → run_project_id r = id →
          summary r ∈ listed ∨ ∀ s, s ∈ listed → run_started_at r ≤ rs_started_at s)
  ∧ ((length (select_where (λ r, bool_decide (run_project_id r = id)) (runs d)) ≤ 50)%nat →
     ∀ r, r ∈ runs d → run_project_id r = id → summary r ∈ listed).
Proof.
  unfold listRuns. destruct (find_project d user id) as [p|] eqn:Hp; [|done].
  intros [= <-].
  set (F := select_where _ (runs d)). set (L := merge_sort later_first F).
  assert (StronglySorted later_first L) as HS by (apply StronglySorted_merge_sort; apply _).
  assert (L ≡ₚ F) as HP by apply merge_sort_Permutation.
  assert (∀ r, r ∈ L ↔ r ∈ runs d ∧ run_project_id r = id) as HL.
  { intros r. rewrite HP. unfold F, select_where. rewrite list_elem_of_In, filter_In.
    rewrite <- list_elem_of_In, bool_decide_eq_true. done. }
  rewrite <- (take_drop 50 L) in HS.
  split.
  { apply take_first_Some in Hp as [Hin [H1 H2]%andb_prop].
    apply bool_decide_eq_true in H1, H2. eauto. }
  split; [rewrite length_fmap, length_take; lia|].
  split; [by apply sorted_summaries, (StronglySorted_app_1_l _ _ _ HS)|].
  split.
  { intros s (r & -> & Hr)%list_elem_of_fmap. exists r.
    assert (r ∈ L) as HrL by (rewrite <- (take_drop 50 L); apply elem_of_app; by left).
    apply HL in HrL as [? ?]. done. }
  split.
  { intros r Hr Hid. assert (r ∈ L) as HrL by by apply HL.
    rewrite <- (take_drop 50 L) in HrL. apply elem_of_app in HrL as [Ht|Hd].
    - left. apply list_elem_of_fmap. eauto.
    - right. intros s (r' & -> & Hr')%list_elem_of_fmap. cbn.
      apply (StronglySorted_app_1_elem_of _ _ _ r' r HS); done. }
  intros Hlen r Hr Hid. apply list_elem_of_fmap. exists r. split; [done|].
  rewrite take_ge; [by apply HL|]. by rewrite HP.
Qed.

Lemma run_history_is_the_latest_fifty_witness :
  ∃ listed, listRuns "u1" "p1" Records.history = RunList listed
            ∧ rs_id <$> listed = ["r2"; "r3"; "r1"].
Proof.
  eexists. split; [reflexivity|].
  destruct (run_history_is_the_latest_fifty "u1" "p1" Records.history _ eq_refl) as (_ & _).
  reflexivity.
Defined.

(** X19. Evidence is served to the owner of the run only. When
    [GET /runs/:id/evidence] streams a file, the run exists and is the
    caller's, a bundle row of that run is [ready] with the path of that
    file, and the file is on disk. *)
Theorem evidence_is_served_to_the_owner user id st p :
  getEvidence user id st = ZipStream p →
  (∃ r, r ∈ runs (w_db st) ∧ run_id r = id ∧ run_user_id r = user)
  ∧ (∃ b, b ∈ evidence_bundles (w_db st) ∧ eb_run_id b = id ∧ eb_status b = ready
          ∧ eb_bundle_path b = Some p)
  ∧ p ∈ w_fs st.
Proof.
  unfold getEvidence.
  destruct (take_first _ (runs _)) as [r|] eqn:Hr; [|done].
  destruct (take_first _ (evidence_bundles _)) as [b|] eqn:Hb; [|done].
  apply take_first_Some in Hr as [Hr [H1 H2]%andb_prop].
  apply bool_decide_eq_true in H1, H2.
  apply take_first_Some in Hb as [Hb Hfor]. apply bool_decide_eq_true in Hfor.
  destruct (eb_status b) eqn:Hs; try done.
  destruct (eb_bundle_path b) as [[|c q]|] eqn:Hq; try done.
  destruct (EvidenceBuilder.existsSync _ _) eqn:He; [|done]. intros [= <-].
  apply bool_decide_eq_true in He. split; [eauto|]. split; [|done].
  exists b. by rewrite Hq.
Qed.

Lemma evidence_is_served_to_the_owner_witness :
  ∃ r, r ∈ runs (w_db (EvidenceBuilder.buildBundle ["evidence"] "r3" all_fine after_run))
       ∧ run_id r = "r3" ∧ run_user_id r = "u1".
Proof.
  apply (evidence_is_served_to_the_owner "u1" "r3"
           (EvidenceBuilder.buildBundle ["evidence"] "r3" all_fine after_run)
           ["evidence"; "r3.zip"]).
  reflexivity.
Defined.





End ApiProofs.

(** ** The lock map and progress *)

Module LockMapProofs.

Import LockManager LockInv.

#[local] Open Scope nat_scope.

Lemma busy_step s e s' : LockMap.busy s → step s e = Some s' → LockMap.busy s'.
Proof.
  intros Hb. destruct e as [key|i|i now|i]; cbn [step].
  - intros [= <-]. intros k p. cbn. destruct (decide (k = key)) as [->|Hne].
    + rewrite lookup_insert_eq. intros [= <-].
      exists (length (tasks s)). eexists.
      split; [by rewrite lookup_app_r, Nat.sub_diag|done].
    + rewrite lookup_insert_ne by done. intros Hk.
      destruct (Hb k p Hk) as (i & t & Hi & ?). exists i, t. split; [|done].
      by apply lookup_app_l_Some.
  - destruct (tasks s !! i) as [t|] eqn:Hi; [|done].
    destruct (t_phase t) eqn:Hph; try done. destruct (fulfilled _ _); [|done].
    intros [= <-]. intros k p Hk. cbn in *.
    destruct (Hb k p Hk) as (j & tj & Hj & Hkey & Hp & Hnd).
    destruct (decide (j = i)) as [->|Hne].
    + exists i. eexists. rewrite list_lookup_insert_eq by by eapply lookup_lt_Some.
      split; [done|]. assert (tj = t) as -> by congruence. by cbn.
    + exists j, tj. by rewrite list_lookup_insert_ne.
  - destruct (tasks s !! i) as [t|] eqn:Hi; [|done].
    destruct (t_phase t) as [|[]|] eqn:Hph; try done.
    intros [= <-]. intros k p Hk. cbn in *.
    destruct (Hb k p Hk) as (j & tj & Hj & Hkey & Hp & Hnd).
    destruct (decide (j = i)) as [->|Hne].
    + exists i. eexists. rewrite list_lookup_insert_eq by by eapply lookup_lt_Some.
      split; [done|]. assert (tj = t) as -> by congruence. by cbn.
    + exists j, tj. by rewrite list_lookup_insert_ne.
  - destruct (tasks s !! i) as [t|] eqn:Hi; [|done].
    destruct (t_phase t) eqn:Hph; try done.
    intros [= <-]. intros k p Hk. cbn in *.
    assert (mutexes s !! k = Some p ∧ (k = t_key t → p ≠ t_newMutex t)) as [Hk0 Hother].
    { destruct (decide _) as [Heq|Hne].
      - destruct (decide (k = t_key t)) as [->|Hkne]; [by rewrite lookup_delete_eq in Hk|].
        rewrite lookup_delete_ne in Hk by done. done.
      - split; [done|]. intros -> ->. done. }
    destruct (Hb k p Hk0) as (j & tj & Hj & Hkey & Hp & Hnd).
    destruct (decide (j = i)) as [->|Hne].
    + exfalso. assert (tj = t) as -> by congruence. by apply Hother.
    + exists j, tj. by rewrite list_lookup_insert_ne.
Qed.

Lemma busy_exec tr : ∀ s s', LockMap.busy s → exec tr s = Some s' → LockMap.busy s'.
Proof.
  induction tr as [|e tr IH]; intros s s' Hs; cbn; [by intros [= <-]|].
  destruct (step s e) as [s1|] eqn:He; [|done]. intros Hx.
  eapply IH; [|done]. by eapply busy_step.
Qed.

(** X22. The lock map does not grow with the calls. After any schedule, a key
    is in the map only while a call with that key is waiting or running;
    once every call has returned the map is empty. *)
Theorem lock_map_holds_only_busy_keys tr s :
  exec tr init = Some s →
  (∀ key, is_Some (mutexes s !! key) →
          ∃ i t, tasks s !! i = Some t ∧ t_key t = key ∧ t_phase t ≠ Done)
  ∧ ((∀ t, t ∈ tasks s → t_phase t = Done) → mutexes s = ∅).
Proof.
  intros Hx. assert (LockMap.busy s) as Hb.
  { eapply busy_exec; [|done]. intros key p Hk. cbn in Hk. by rewrite lookup_empty in Hk. }
  split.
  - intros key [p Hk]. destruct (Hb key p Hk) as (i & t & ? & ? & _ & ?). eauto.
  - intros Hall. apply map_empty. intros key.
    destruct (mutexes s !! key) as [p|] eqn:Hk; [|done]. exfalso.
    destruct (Hb key p Hk) as (i & t & Hi & _ & _ & Hnd). apply Hnd, Hall.
    by eapply list_elem_of_lookup_2.
Qed.

Lemma lock_map_holds_only_busy_keys_witness :
  match exec Scenario.two_messages init with
  | Some s => mutexes s = ∅
  | None => False
  end.
Proof.
  destruct (exec Scenario.two_messages init) as [s|] eqn:Hx; [|vm_compute in Hx; discriminate].
  destruct (lock_map_holds_only_busy_keys Scenario.two_messages s Hx) as [_ Hempty].
  apply Hempty. vm_compute in Hx. injection Hx as <-. intros t Ht.
  repeat (apply elem_of_cons in Ht as [->|Ht]; [reflexivity|]). by apply elem_of_nil in Ht.
Defined.

(** X23. A call is let in as soon as the earlier calls of its key are through.
    After any schedule, a waiting call whose predecessors on the same key
    have all returned can get past [await mutex], whatever the calls of
    other keys are doing: keys do not block one another and no call waits
    for ever on finished work. *)
Theorem waiting_call_can_enter tr s j tj :
  exec tr init = Some s →
  tasks s !! j = Some tj → t_phase tj = Waiting →
  (∀ i ti, i < j → tasks s !! i = Some ti → t_key ti = t_key tj → t_phase ti = Done) →
  ∃ s', step s (Resume j) = Some s'
        ∧ (∃ tj', tasks s' !! j = Some tj' ∧ t_phase tj' = Holding false)
        ∧ mutexes s' = mutexes s.
Proof.
  intros Hx Hj Hph Hprior.
  pose proof (LockProofs.holds_exec tr init s LockProofs.holds_init Hx) as Hs.
  assert (fulfilled (completed s) (t_mutex tj) = true) as Hful.
  { destruct (inv_chain s Hs j tj Hj) as [[-> _]|(i & ti & Hij & Hi & Hkey & Hm & _)]; [done|].
    rewrite Hm, (inv_new s Hs i ti Hi). cbn.
    assert (t_phase ti = Done) as Hdone by by eapply Hprior.
    rewrite (inv_entered s Hs i ti Hi) by by rewrite Hdone.
    cbn. apply bool_decide_eq_true. by apply (inv_done s Hs i ti Hi). }
  cbn [step]. rewrite Hj, Hph, Hful. eexists. split; [done|]. cbn. split; [|done].
  eexists. rewrite list_lookup_insert_eq by by eapply lookup_lt_Some. done.
Qed.

Lemma waiting_call_can_enter_witness :
  is_Some (exec [Call "p1"; Call "p2"; Call "p1"; Resume 0; Resume 1] init).
Proof.
  destruct (exec [Call "p1"; Call "p2"; Call "p1"; Resume 0] init) as [s|] eqn:Hx;
    [|vm_compute in Hx; discriminate].
  destruct (waiting_call_can_enter _ s 1 (Task "p2" Resolved (Then Resolved 1) Waiting) Hx)
    as (s' & Hstep & _).
  - vm_compute in Hx. injection Hx as <-. reflexivity.
  - reflexivity.
  - intros i ti Hi Hti Hkey. vm_compute in Hx. injection Hx as <-.
    assert (i = 0) as -> by lia. cbn in Hti. injection Hti as <-. discriminate Hkey.
  - change (exec [Call "p1"; Call "p2"; Call "p1"; Resume 0; Resume 1] init)
      with (exec ([Call "p1"; Call "p2"; Call "p1"; Resume 0] ++ [Resume 1]) init).
    assert (∀ tr1 tr2 s0, exec (tr1 ++ tr2) s0
                          = match exec tr1 s0 with Some s1 => exec tr2 s1 | None => None end) as Happ.
    { induction tr1 as [|e tr1 IH]; intros tr2 s0; cbn; [done|].
      destruct (step s0 e); [apply IH|done]. }
    rewrite Happ, Hx. cbn [exec]. rewrite Hstep. by eexists.
Defined.

End LockMapProofs.

(** ** The quota and the other users *)

Module QuotaIsolationProofs.

Import Quota Scenario.

(** X24. Nobody else can use up a user's quota. A request made by another user,
    a sweep or a build leaves the answer of the quota check for [u] as it
    was, at every clock reading and for every limit. *)
Theorem quota_is_untouched_by_others cfg o st u m now :
  requested_by o ≠ Some u →
  checkQuota m now (w_db (exec_op cfg st o)) u = checkQuota m now (w_db st) u.
Proof.
  intros Ho. unfold checkQuota, run_count. do 3 f_equal.
  destruct (RunRowProofs.exec_op_runs cfg o st)
    as [->|(rq & a & w & f & Hop & _ & _ & Hf & ->)]; [done|].
  unfold select_where. rewrite List.filter_app.
  assert (counted u (startOfDay now)
            (f (new_run (ra_run_id a) (rq_user rq) (rq_id rq) w (rq_text rq) (ra_start a)))
          = false) as Hnot.
  { unfold counted. apply andb_false_iff. left. apply bool_decide_eq_false.
    assert (rq_user rq ≠ u) by (destruct Hop as [-> | ->]; cbn in Ho; congruence).
    by destruct Hf. }
  cbn [List.filter]. rewrite Hnot. by rewrite app_nil_r.
Qed.

Lemma quota_is_untouched_by_others_witness :
  checkQuota (Num 1) morning
    (w_db (exec_op cfg Tenants.shared_world (OpMessage hello (answers (says [111; 107]%N)))))
    "u2"
  = true.
Proof.
  rewrite (quota_is_untouched_by_others cfg _ Tenants.shared_world "u2" (Num 1) morning).
  - reflexivity.
  - discriminate.
Defined.

End QuotaIsolationProofs.

(** ** The metrics registry *)

Module MetricsProofs.

Import Text Metrics.

Lemma leb_compare s1 s2 : String.leb s1 s2 = true ↔ String.compare s1 s2 ≠ Gt.
Proof. unfold String.leb. by destruct (String.compare s1 s2). Qed.

Lemma ascii_compare_Lt_trans a b c :
  Ascii.compare a b = Lt → Ascii.compare b c = Lt → Ascii.compare a c = Lt.
Proof.
  unfold Ascii.compare. rewrite !N.compare_lt_iff. apply N.lt_trans.
Qed.

Lemma compare_not_Gt_trans s1 : ∀ s2 s3,
  String.compare s1 s2 ≠ Gt → String.compare s2 s3 ≠ Gt → String.compare s1 s3 ≠ Gt.
Proof.
  induction s1 as [|a s1 IH]; intros [|b s2] [|c s3]; cbn; try done.
  destruct (Ascii.compare a b) eqn:Hab; [| |done].
  - apply Ascii.compare_eq_iff in Hab as ->.
    destruct (Ascii.compare b c); [apply IH|done|done].
  - intros _. destruct (Ascii.compare b c) eqn:Hbc; [| |done].
    + apply Ascii.compare_eq_iff in Hbc as <-. by rewrite Hab.
    + by rewrite (ascii_compare_Lt_trans a b c).
Qed.

#[local] Instance str_le_trans : Transitive str_le.
Proof.
  intros s1 s2 s3. unfold str_le. rewrite !leb_compare. apply compare_not_Gt_trans.
Qed.

#[local] Instance str_le_total : Total str_le.
Proof. intros s1 s2. apply String.leb_total. Qed.

#[local] Instance str_le_antisym : AntiSymm (=) str_le.
Proof. intros s1 s2. apply String.leb_antisym. Qed.

Lemma sorted_keys_perm (l l' : list string) :
  l ≡ₚ l' → merge_sort str_le l = merge_sort str_le l'.
Proof.
  intros Hp. apply (Sorted_unique str_le).
  - apply Sorted_merge_sort; apply _.
  - apply Sorted_merge_sort; apply _.
  - by rewrite !merge_sort_Permutation.
Qed.

Lemma label_value_elem labels k v :
  NoDup (fst <$> labels) → (k, v) ∈ labels → label_value labels k = v.
Proof.
  unfold label_value. induction labels as [|[k0 v0] labels IH]; [by intros _ ?%elem_of_nil|].
  rewrite fmap_cons. intros [Hk0 Hnd]%NoDup_cons Hin. cbn.
  destruct (String.eqb_spec k0 k) as [->|Hne].
  - apply elem_of_cons in Hin as [[= ->]|Hin]; [done|]. exfalso. apply Hk0.
    apply list_elem_of_fmap. by exists (k, v).
  - apply elem_of_cons in Hin as [[= <- _]|Hin]; [done|]. by apply IH.
Qed.

(** X25. The order in which labels are written does not matter. Two label
    objects with the same entries, in whatever order, give the same metric
    key, so incrementing with either counts on the same counter. *)
Theorem metric_key_ignores_label_order name labels labels' counters :
  NoDup (fst <$> labels) → labels ≡ₚ labels' →
  getMetricKey name labels = getMetricKey name labels'
  ∧ increment name labels' (increment name labels counters) !! getMetricKey name labels
    = Some (2 + default 0 (counters !! getMetricKey name labels))%nat.
Proof.
  intros Hnd Hp.
  assert (getMetricKey name labels = getMetricKey name labels') as Hkey.
  { unfold getMetricKey.
    rewrite <- (sorted_keys_perm (fst <$> labels) (fst <$> labels')) by by rewrite Hp.
    destruct (merge_sort str_le (fst <$> labels)) as [|k ks] eqn:Hs; [done|].
    do 4 f_equal. apply list_fmap_ext. intros i k' Hk'.
    assert (k' ∈ fst <$> labels) as ([k0 v] & -> & Hin)%list_elem_of_fmap.
    { rewrite <- (merge_sort_Permutation str_le), Hs. by eapply list_elem_of_lookup_2. }
    cbn. rewrite (label_value_elem labels k0 v), (label_value_elem labels' k0 v); try done.
    - by rewrite <- Hp.
    - by rewrite <- Hp. }
  split; [done|]. unfold increment. rewrite <- Hkey.
  by rewrite !lookup_insert_eq.
Qed.

Lemma metric_key_ignores_label_order_witness :
  getMetricKey "runs_total" [("status", "ok"); ("mode", "stream")]
  = getMetricKey "runs_total" [("mode", "stream"); ("status", "ok")].
Proof.
  apply (metric_key_ignores_label_order "runs_total" [("status", "ok"); ("mode", "stream")]
           [("mode", "stream"); ("status", "ok")] ∅).
  - apply (bool_decide_unpack _). vm_compute. exact I.
  - apply Permutation_swap.
Defined.

End MetricsProofs.

(** ** Authentication *)

Module AuthProofs.

Import Auth.

Lemma joined_elem h keys users x :
  x ∈ joined h keys users →
  ∃ k u, k ∈ keys ∧ k_token_hash k = h ∧ u ∈ users ∧ u_id u = k_user_id k
         ∧ x = (u_id u, u_is_admin u, k_revoked_at k).
Proof.
  unfold joined. intros (k & Hx & Hk)%list_elem_of_bind.
  apply list_elem_of_bind in Hx as (u & Hx & Hu).
  apply list_elem_of_singleton in Hx as ->.
  apply list_elem_of_In, filter_In in Hk as [Hk Hh]. apply bool_decide_eq_true in Hh.
  apply list_elem_of_In, filter_In in Hu as [Hu Hi]. apply bool_decide_eq_true in Hi.
  apply list_elem_of_In in Hk, Hu. exists k, u. done.
Qed.

(** X26. Who gets in. A request is let through as user [id] only when it is not
    the health check, carries one non-empty [x-api-key], and the key table
    holds a row with the hash of that key which is not revoked and belongs
    to that user, whose admin flag is the one attached to the request. *)
Theorem authenticated_means_live_key sha256 url apiKey keys users id is_admin :
  authCheck sha256 url apiKey keys users = Authenticated id is_admin →
  url ≠ "/healthz"
  ∧ ∃ key k u, apiKey = One key ∧ key ≠ EmptyString
      ∧ k ∈ keys ∧ k_token_hash k = sha256 key ∧ k_revoked_at k = None
      ∧ u ∈ users ∧ u_id u = k_user_id k ∧ u_id u = id ∧ u_is_admin u = is_admin.
Proof.
  unfold authCheck. case_bool_decide as Hurl; [done|].
  destruct apiKey as [|key|]; try done. case_bool_decide as Hkey; [done|].
  destruct (head (joined (sha256 key) keys users)) as [[[i adm] rev]|] eqn:Hhead; [|done].
  destruct rev; [done|]. intros [= <- <-]. split; [done|].
  assert ((i, adm, None) ∈ joined (sha256 key) keys users) as Hin.
  { destruct (joined _ _ _); [done|]. injection Hhead as ->. apply list_elem_of_here. }
  apply joined_elem in Hin as (k & u & Hk & Hh & Hu & Hid & [= -> -> Hrev]).
  exists key, k, u. eauto 10.
Qed.

Lemma authenticated_means_live_key_witness :
  ∃ k, k ∈ Records.keys ∧ k_token_hash k = Records.digest "secret-1" ∧ k_revoked_at k = None
       ∧ k_user_id k = "u1".
Proof.
  destruct (authenticated_means_live_key Records.digest "/projects" (One "secret-1")
              Records.keys Records.users "u1" false eq_refl)
    as (_ & key & k & u & Hkey & _ & Hk & Hh & Hr & _ & Hid & Hu & _).
  injection Hkey as <-. exists k. rewrite <- Hid, Hu. done.
Defined.

(** X27. Revocation works. A key all of whose rows are revoked, or which has no
    row at all, is refused with 401 on every route but the health check. *)
Theorem revoked_key_is_refused sha256 url key keys users :
  url ≠ "/healthz" → key ≠ EmptyString →
  (∀ k, k ∈ keys → k_token_hash k = sha256 key → is_Some (k_revoked_at k)) →
  authCheck sha256 url (One key) keys users = Denied 401 "Unauthorized: Invalid API Key".
Proof.
  intros Hurl Hkey Hrev. unfold authCheck.
  rewrite !bool_decide_eq_false_2 by done.
  destruct (head (joined (sha256 key) keys users)) as [[[i adm] rev]|] eqn:Hhead; [|done].
  destruct rev; [done|]. exfalso.
  assert ((i, adm, None) ∈ joined (sha256 key) keys users) as Hin.
  { destruct (joined _ _ _); [done|]. injection Hhead as ->. apply list_elem_of_here. }
  apply joined_elem in Hin as (k & u & Hk & Hh & _ & _ & [= _ _ Hnone]).
  destruct (Hrev k Hk Hh) as [t Ht]. congruence.
Qed.

Lemma revoked_key_is_refused_witness :
  authCheck Records.digest "/projects" (One "secret-2") Records.keys Records.users
  = Denied 401 "Unauthorized: Invalid API Key".
Proof.
  apply revoked_key_is_refused; [discriminate | discriminate |].
  intros k Hk Hh. vm_compute in Hk.
  apply elem_of_cons in Hk as [->|Hk]; [discriminate Hh|].
  apply list_elem_of_singleton in Hk as ->. by eexists.
Defined.

End AuthProofs.

(** ** Where [putFile] writes *)

Module PutFilePathProofs.

Import Text PutFilePath.

Lemma split_slash_cons c s :
  split_slash (String c s)
  = if Ascii.eqb c slash then EmptyString :: split_slash s
    else match split_slash s with
         | x :: rest => String c x :: rest
         | [] => [String c EmptyString]
         end.
Proof. done. Qed.

Lemma split_slash_nonempty s : split_slash s ≠ [].
Proof.
  destruct s as [|c s]; [done|]. rewrite split_slash_cons.
  destruct (Ascii.eqb c slash); [done|]. by destruct (split_slash s).
Qed.

Lemma split_slash_app a b :
  split_slash (a +:+ String slash b) = split_slash a ++ split_slash b.
Proof.
  induction a as [|c a IH].
  - change (EmptyString +:+ String slash b) with (String slash b).
    rewrite split_slash_cons. by rewrite Ascii.eqb_refl.
  - change (String c a +:+ String slash b) with (String c (a +:+ String slash b)).
    rewrite !split_slash_cons, IH.
    destruct (Ascii.eqb c slash); [done|].
    pose proof (split_slash_nonempty a). by destruct (split_slash a).
Qed.

Lemma split_slash_plain f : has_slash f = false → split_slash f = [f].
Proof.
  induction f as [|c f IH]; [done|]. rewrite split_slash_cons. cbn [has_slash].
  intros [Hc Hf]%orb_false_iff. by rewrite Hc, IH.
Qed.

Lemma join_cons sep x y rest :
  join sep (x :: y :: rest) = x +:+ sep +:+ join sep (y :: rest).
Proof. done. Qed.

Lemma join_split_slash s : join (String slash EmptyString) (split_slash s) = s.
Proof.
  induction s as [|c s IH]; [done|]. rewrite split_slash_cons.
  pose proof (split_slash_nonempty s) as Hne.
  destruct (Ascii.eqb_spec c slash) as [->|Hc].
  - destruct (split_slash s) as [|x rest]; [done|]. rewrite join_cons, IH. done.
  - destruct (split_slash s) as [|x [|y rest]]; [done| |].
    + cbn in *. by rewrite IH.
    + rewrite join_cons. rewrite join_cons in IH. by rewrite <- IH.
Qed.

(** X28. [putFile] splits the path at its last slash. For a path made of a
    directory, a slash and a name with no slash in it, the directory is
    what [mkdir -p] and [putArchive] are given and the name is the entry
    written into the archive; an empty name is replaced by [file]. So the
    event log of run [r] is written as [events.jsonl] into
    [/workspace/evidence/r], whatever [r] is. *)
Theorem putFile_splits_at_the_last_slash dir f :
  has_slash f = false →
  target (dir +:+ String slash f)
  = (dir, if bool_decide (f = EmptyString) then "file" else f)
  ∧ ∀ runId, target (events_path runId) = (evidence_dir runId, "events.jsonl").
Proof.
  assert (∀ d g, has_slash g = false →
            target (d +:+ String slash g)
            = (d, if bool_decide (g = EmptyString) then "file" else g)) as H.
  { intros d g Hg. unfold target.
    rewrite split_slash_app, (split_slash_plain g Hg), length_app, last_snoc. cbn [length].
    replace (length (split_slash d) + 1 - 1)%nat with (length (split_slash d)) by lia.
    rewrite take_app_length. f_equal. apply join_split_slash. }
  intros Hf. split; [by apply H|]. intros runId.
  apply (H (evidence_dir runId) "events.jsonl"). reflexivity.
Qed.

Lemma putFile_splits_at_the_last_slash_witness :
  target "/workspace/evidence/r3/events.jsonl" = ("/workspace/evidence/r3", "events.jsonl")
  ∧ target "/workspace/repo/" = ("/workspace/repo", "file").
Proof.
  split.
  - apply (putFile_splits_at_the_last_slash "/workspace/evidence/r3" "events.jsonl").
    reflexivity.
  - apply (putFile_splits_at_the_last_slash "/workspace/repo" EmptyString). reflexivity.
Defined.

End PutFilePathProofs.
